(** * MediboxApi: the real-time alert distribution engine of [server.js]

    A shallow embedding of the operator session registry ([wsClients]), the
    pending-alert queue ([pendingAlerts]), the dispatcher ([sendToAide]), the
    retry sweep ([retryTimer]), the websocket connection handler, the patient
    directory cache ([fetchAllPatients], [getAideForPatient]) and the MQTT
    topic router, followed by the properties proved about them.

    Conventions of the embedding.
    - Handlers live in a state-and-exception monad [M]: JavaScript does not
      roll back mutations when an exception propagates, so a computation
      returns the state it reached together with [Ok v] or [Throw e].
    - Whatever the handlers obtain from outside the process is an argument:
      the values of [crypto.randomUUID()], [new Date().toISOString()] and
      [Date.now()], the settlement of every [fetch], the outcome of
      [new URL(req.url, ...)] on a connection, and the condition of a
      socket.  [JSON.parse], [API_KEY] and [API_BASE] are section variables.
    - [console.*] output is not part of the state.
    - A socket stands for a [ws] object; it is named by its index in the
      heap [sockets].  The text handed to [ws.send] is [JSON.stringify obj];
      the embedding records [obj] itself. *)

From Stdlib Require Import List String Ascii ZArith Bool Lia.
Import ListNotations.
Local Open Scope string_scope.
Local Open Scope list_scope.

(* ------------------------------------------------------------------ *)
(** ** JavaScript values *)

(** Primitive values.  A number is identified by its canonical rendering
    (what [String(n)] yields): two numbers are the same key of a [Map]
    exactly when they render alike. *)
Inductive prim : Type :=
| PUndefined
| PNull
| PBool (b : bool)
| PNum (repr : string)
| PStr (s : string).

#[warnings="-register-all"]
Inductive jsval : Type :=
| JP (p : prim)
| JArr (items : list jsval)
| JObj (fields : list (string * jsval)).

(** A plain object literal. *)
Definition jsobj : Type := list (string * jsval).

Definition prim_eq_dec (x y : prim) : {x = y} + {x <> y}.
Proof. decide equality; try apply string_dec; apply bool_dec. Defined.

(** ToBoolean. *)
Definition truthy (p : prim) : bool :=
  match p with
  | PUndefined | PNull => false
  | PBool b => b
  | PNum r => negb (r =? "0") && negb (r =? "NaN")
  | PStr s => negb (s =? "")
  end.

Definition truthy_val (v : jsval) : bool :=
  match v with
  | JP p => truthy p
  | JArr _ | JObj _ => true
  end.

(** [String(p)] on a primitive. *)
Definition String_ (p : prim) : string :=
  match p with
  | PUndefined => "undefined"
  | PNull => "null"
  | PBool true => "true"
  | PBool false => "false"
  | PNum r => r
  | PStr s => s
  end.

(** [v === s] for a string [s]. *)
Definition strict_eq_str (v : jsval) (s : string) : bool :=
  match v with
  | JP (PStr t) => t =? s
  | _ => false
  end.

(** The result of [url.searchParams.get(name)]: [null] or a string. *)
Definition param_falsy (p : option string) : bool :=
  match p with
  | None => true
  | Some s => s =? ""
  end.

Definition param_val (p : option string) : jsval :=
  match p with
  | None => JP PNull
  | Some s => JP (PStr s)
  end.

(** [{...o, k: v}]: an existing key keeps its place and takes the new value,
    a new key goes last. *)
Fixpoint obj_set (o : jsobj) (k : string) (v : jsval) : jsobj :=
  match o with
  | [] => [(k, v)]
  | (k', v') :: r =>
      if k' =? k then (k, v) :: r else (k', v') :: obj_set r k v
  end.

Fixpoint obj_get (o : jsobj) (k : string) : jsval :=
  match o with
  | [] => JP PUndefined
  | (k', v') :: r => if k' =? k then v' else obj_get r k
  end.

(* ------------------------------------------------------------------ *)
(** ** [Map] and [Set] with insertion order *)

Section JsMap.
Context {V : Type}.

(** A [Map] whose keys are primitives: the entries in insertion order. *)
Definition jsmap : Type := list (prim * V).

Fixpoint map_get (m : jsmap) (k : prim) : option V :=
  match m with
  | [] => None
  | (k', v) :: r => if prim_eq_dec k k' then Some v else map_get r k
  end.

Definition map_has (m : jsmap) (k : prim) : bool :=
  match map_get m k with Some _ => true | None => false end.

Fixpoint map_set (m : jsmap) (k : prim) (v : V) : jsmap :=
  match m with
  | [] => [(k, v)]
  | (k', v') :: r =>
      if prim_eq_dec k k' then (k, v) :: r else (k', v') :: map_set r k v
  end.

Fixpoint map_delete (m : jsmap) (k : prim) : jsmap :=
  match m with
  | [] => []
  | (k', v') :: r =>
      if prim_eq_dec k k' then map_delete r k else (k', v') :: map_delete r k
  end.

Definition map_values (m : jsmap) : list V := map snd m.

Definition map_size (m : jsmap) : nat := List.length m.
End JsMap.
Arguments jsmap V : clear implicits.

(** A [Set] of sockets in insertion order. *)
Definition ws_id : Type := nat.
Definition wsset : Type := list ws_id.

Definition set_add (st : wsset) (w : ws_id) : wsset :=
  if existsb (Nat.eqb w) st then st else st ++ [w].

Definition set_delete (st : wsset) (w : ws_id) : wsset :=
  filter (fun x => negb (Nat.eqb x w)) st.

(* ------------------------------------------------------------------ *)
(** ** Process state *)

(** What the process sees of a [ws] object.  [send_throws] is the fault the
    [try] of [wsSendSafe] guards against; [close_called] records [ws.close()];
    [bound] is the [aideId] captured by the closures installed with
    [ws.on("message")] and [ws.on("close")], if they were installed. *)
Record socket : Type := mkSocket {
  readyState : Z;
  send_throws : bool;
  close_called : bool;
  bound : option prim
}.

(** One element of the array returned by [GET /patients]: [null]
    (or [undefined]), on which a property read throws, or a record with the
    two fields the process reads.  The identifiers of the directory are
    primitives; a field that is absent is [PUndefined], and an element that
    is no object reads as a record whose two fields are [PUndefined]. *)
Inductive patient_elem : Type :=
| ElemNullish
| ElemRec (id_patient fk_aide_soignant : prim).

(** The value cached in [patientsCache]: an array of patients, or any other
    value, of which only the truthiness is ever observed. *)
Inductive directory : Type :=
| DirArray (l : list patient_elem)
| DirOther (is_truthy : bool).

Definition dir_truthy (d : directory) : bool :=
  match d with
  | DirArray _ => true
  | DirOther b => b
  end.

Record state : Type := mkState {
  wsClients : jsmap wsset;
  pendingAlerts : jsmap (jsmap jsobj);
  patientsCache : directory;
  patientsCacheTs : Z;
  sockets : list socket;
  (** every message accepted by [ws.send], oldest first *)
  wire : list (ws_id * jsobj);
  (** history variable, never read by the program: every payload
      [sendToAide] stored, with the caregiver it was stored for *)
  enqueued : list (prim * jsobj)
}.

Definition init : state :=
  {| wsClients := []; pendingAlerts := []; patientsCache := DirOther false;
     patientsCacheTs := 0; sockets := []; wire := []; enqueued := [] |}.

Definition with_wsClients (f : jsmap wsset -> jsmap wsset) (s : state) : state :=
  mkState (f (wsClients s)) (pendingAlerts s) (patientsCache s)
          (patientsCacheTs s) (sockets s) (wire s) (enqueued s).

Definition with_pendingAlerts
    (f : jsmap (jsmap jsobj) -> jsmap (jsmap jsobj)) (s : state) : state :=
  mkState (wsClients s) (f (pendingAlerts s)) (patientsCache s)
          (patientsCacheTs s) (sockets s) (wire s) (enqueued s).

Definition with_cache (d : directory) (t : Z) (s : state) : state :=
  mkState (wsClients s) (pendingAlerts s) d t (sockets s) (wire s) (enqueued s).

Definition with_sockets (f : list socket -> list socket) (s : state) : state :=
  mkState (wsClients s) (pendingAlerts s) (patientsCache s)
          (patientsCacheTs s) (f (sockets s)) (wire s) (enqueued s).

Definition push_wire (l : list (ws_id * jsobj)) (s : state) : state :=
  mkState (wsClients s) (pendingAlerts s) (patientsCache s)
          (patientsCacheTs s) (sockets s) (wire s ++ l) (enqueued s).

Definition push_enqueued (c : prim) (p : jsobj) (s : state) : state :=
  mkState (wsClients s) (pendingAlerts s) (patientsCache s)
          (patientsCacheTs s) (sockets s) (wire s) (enqueued s ++ [(c, p)]).

Fixpoint update_nth {A} (n : nat) (f : A -> A) (l : list A) : list A :=
  match l, n with
  | [], _ => []
  | x :: r, O => f x :: r
  | x :: r, S n' => x :: update_nth n' f r
  end.

(** [ws.send] goes through on an open socket whose [send] does not throw. *)
Definition sendable (s : state) (w : ws_id) : bool :=
  match nth_error (sockets s) w with
  | Some k => (readyState k =? 1)%Z && negb (send_throws k)
  | None => false
  end.

Definition bound_of (s : state) (w : ws_id) : option prim :=
  match nth_error (sockets s) w with
  | Some k => bound k
  | None => None
  end.

(* ------------------------------------------------------------------ *)
(** ** The state-and-exception monad *)

Inductive exn : Type :=
| SendError | SyntaxError | TypeError | ReferenceError | NetworkError.

Inductive outcome (A : Type) : Type :=
| Ok (a : A)
| Throw (e : exn).
Arguments Ok {A} a.
Arguments Throw {A} e.

Definition M (A : Type) : Type := state -> outcome A * state.

Definition ret {A} (a : A) : M A := fun s => (Ok a, s).

Definition bind {A B} (m : M A) (k : A -> M B) : M B :=
  fun s =>
    match m s with
    | (Ok a, s') => k a s'
    | (Throw e, s') => (Throw e, s')
    end.

Definition throw {A} (e : exn) : M A := fun s => (Throw e, s).

(** [try { m } catch (err) { h err }] *)
Definition try_catch {A} (m : M A) (h : exn -> M A) : M A :=
  fun s =>
    match m s with
    | (Ok a, s') => (Ok a, s')
    | (Throw e, s') => h e s'
    end.

Definition gets {A} (f : state -> A) : M A := fun s => (Ok (f s), s).

Definition modify (f : state -> state) : M unit := fun s => (Ok tt, f s).

Declare Scope js_scope.
Delimit Scope js_scope with js.
Notation "x <- m ;; k" := (bind m (fun x => k))
  (at level 61, m at next level, right associativity) : js_scope.
Notation "m ;; k" := (bind m (fun _ => k))
  (at level 61, right associativity) : js_scope.
Local Open Scope js_scope.

(** [for (const x of l) body(x)], also [l.forEach(body)]: an exception leaves
    the loop. *)
Fixpoint for_each {A} (l : list A) (body : A -> M unit) : M unit :=
  match l with
  | [] => ret tt
  | x :: r => body x ;; for_each r body
  end.

Definition when (b : bool) (m : M unit) : M unit := if b then m else ret tt.

(* ------------------------------------------------------------------ *)
(** ** Sockets *)

(** [ws.send(JSON.stringify(obj))] *)
Definition ws_send (w : ws_id) (obj : jsobj) : M unit :=
  fun s =>
    match nth_error (sockets s) w with
    | Some k =>
        if send_throws k then (Throw SendError, s)
        else (Ok tt, push_wire [(w, obj)] s)
    | None => (Throw TypeError, s)
    end.

Definition ws_readyState (w : ws_id) : M Z :=
  fun s =>
    match nth_error (sockets s) w with
    | Some k => (Ok (readyState k), s)
    | None => (Throw TypeError, s)
    end.

(** [ws.close()] *)
Definition ws_close (w : ws_id) : M unit :=
  modify (with_sockets (update_nth w (fun k =>
    mkSocket (readyState k) (send_throws k) true (bound k)))).

(** [ws.on("message", ...)] and [ws.on("close", ...)], whose closures
    capture [aideId]. *)
Definition ws_on_handlers (w : ws_id) (aideId : prim) : M unit :=
  modify (with_sockets (update_nth w (fun k =>
    mkSocket (readyState k) (send_throws k) (close_called k) (Some aideId)))).

Definition wsSendSafe (w : ws_id) (obj : jsobj) : M unit :=
  try_catch
    (rs <- ws_readyState w ;;
     if (rs =? 1)%Z then ws_send w obj else ret tt)
    (fun _ => ret tt).

(* ------------------------------------------------------------------ *)
(** ** Dispatcher and retry sweep *)

Definition mk_payload (data : jsobj) (alertId timestamp : string) : jsobj :=
  obj_set (obj_set data "alertId" (JP (PStr alertId)))
          "timestamp" (JP (PStr timestamp)).

(** [pendingAlerts.get(aideId).set(alertId, payload)] *)
Definition pending_set (aideId : prim) (alertId : string) (payload : jsobj)
  : M unit :=
  pa <- gets pendingAlerts ;;
  match map_get pa aideId with
  | Some q =>
      modify (with_pendingAlerts (fun pa =>
        map_set pa aideId (map_set q (PStr alertId) payload))) ;;
      modify (push_enqueued aideId payload)
  | None => throw TypeError
  end.

(** [sendToAide(aideId, data)]; [uuid] is the value of
    [crypto.randomUUID()] and [ts] that of [new Date().toISOString()]. *)
Definition sendToAide (aideId : prim) (data : jsobj) (uuid ts : string)
  : M bool :=
  pa <- gets pendingAlerts ;;
  when (negb (map_has pa aideId))
       (modify (with_pendingAlerts (fun pa => map_set pa aideId []))) ;;
  clients <- gets (fun s => map_get (wsClients s) aideId) ;;
  let alertId := uuid in
  let payload := mk_payload data alertId ts in
  pending_set aideId alertId payload ;;
  match clients with
  | None => ret false
  | Some cs =>
      if Nat.eqb (List.length cs) 0 then ret false
      else
        for_each cs (fun w => wsSendSafe w payload) ;;
        ret true
  end.

(** The callback of [setInterval(..., RETRY_INTERVAL_MS)]. *)
Definition retryTimer : M unit :=
  try_catch
    (wc <- gets wsClients ;;
     for_each wc (fun '(aideId, clientSet) =>
       pa <- gets pendingAlerts ;;
       match map_get pa aideId with
       | None => ret tt
       | Some queue =>
           if Nat.eqb (map_size queue) 0 then ret tt
           else
             for_each (map_values queue) (fun payload =>
               for_each clientSet (fun w => wsSendSafe w payload))
       end))
    (fun _ => ret tt).

(* ------------------------------------------------------------------ *)
(** ** What the network answers *)

(** The parts of the parsed [req.url] the connection handler reads: the
    serialised URL and the three query parameters. *)
Record request : Type := mkRequest {
  href : string;
  q_token : option string;
  q_id : option string;
  q_pwd : option string
}.

(** How [new URL(req.url, base)], the first statement of the connection
    handler, ends.  The constructor throws a [TypeError] for a request target
    that is no URL against the base (the target [//], say, or a [Host]
    header that names no host); otherwise the handler reads the parts of the
    URL that [request] holds. *)
Inductive url_result : Type :=
| URLThrows
| URLParsed (req : request).

(** A [Response]: [json_body] is [None] when [response.json()] rejects. *)
Record response : Type := mkResponse {
  ok : bool;
  status : Z;
  text_rejects : bool;
  json_body : option jsval
}.

Inductive fetch_result : Type :=
| FetchRejects
| FetchResolves (r : response).

(** The settlement of [fetch(API_BASE/patients)] followed by [res.json()]. *)
Inductive patients_fetch : Type :=
| PFRejects
| PFJsonRejects
| PFData (data : directory).

Definition await_fetch (f : fetch_result) : M response :=
  match f with
  | FetchRejects => throw NetworkError
  | FetchResolves r => ret r
  end.

Definition response_text (r : response) : M unit :=
  if text_rejects r then throw TypeError else ret tt.

(** [await response.json()]; the body can be read once. *)
Definition response_json (body_used : bool) (r : response) : M jsval :=
  if body_used then throw TypeError
  else match json_body r with
       | Some v => ret v
       | None => throw SyntaxError
       end.

(** [v.k] for a name [k] that no array, string, number or boolean has.  The
    fields of an object have distinct names. *)
Definition get_prop (v : jsval) (k : string) : M jsval :=
  match v with
  | JP PNull | JP PUndefined => throw TypeError
  | JObj fields => ret (obj_get fields k)
  | _ => ret (JP PUndefined)
  end.

Definition error_obj (msg : string) : jsobj := [("error", JP (PStr msg))].

Definition PATIENTS_CACHE_TTL_MS : Z := 30000.

(** The inputs of the process. *)
Inductive event : Type :=
| EvConnection (rs : Z) (throws : bool) (url : url_result)
               (auth : fetch_result)
| EvWsMessage (w : ws_id) (msgBuf : string)
| EvWsClose (w : ws_id)
| EvSocket (w : ws_id) (rs : Z) (throws : bool)
| EvRetry
| EvSendAlert (aideId : prim) (data : jsobj) (uuid ts : string)
| EvFetchPatients (now now' : Z) (pf : patients_fetch)
| EvMqtt (topic message : string) (now now' : Z) (pf : patients_fetch)
         (api : fetch_result) (uuid ts : string).

(** [topic.split("/")] *)
Fixpoint split_slash (s : string) : list string :=
  match s with
  | EmptyString => [""]
  | String c r =>
      if Ascii.eqb c "/" then "" :: split_slash r
      else match split_slash r with
           | h :: t => String c h :: t
           | [] => [String c ""]
           end
  end.

(** [topic.split("/").filter(Boolean)] *)
Definition topic_parts (topic : string) : list string :=
  filter (fun x => negb (x =? "")) (split_slash topic).

(* ------------------------------------------------------------------ *)
(** ** HTTP requests and answers *)

(** What a handler answers: [res.status(n).json(v)], and [res.json(v)] with
    status 200. *)
Record http_response : Type := mkHttp {
  http_status : Z;
  http_body : jsval
}.

Definition res_json (v : jsval) : http_response := mkHttp 200 v.

Definition json_error (msg : string) : jsval := JObj [("error", JP (PStr msg))].

(** [v || d] *)
Definition or_else (v d : jsval) : jsval := if truthy_val v then v else d.


(** The fields the alert endpoints read in [req.body]; a field that is
    absent is [undefined].  A caregiver id is a primitive. *)
Record alert_body : Type := mkAlertBody {
  b_aideId : prim;
  b_patientId : jsval;
  b_alertType : jsval;
  b_message : jsval
}.




(* ------------------------------------------------------------------ *)
(** ** Sample inputs of the examples *)

(** The double-quote character. *)
Definition dq : string := String (ascii_of_nat 34) EmptyString.

(** The text of an acknowledgment of alert [u1]:
    an object with [type] equal to [ack] and [alertId] equal to [u1]. *)
Definition sample_ack_text : string :=
  ("{" ++ dq ++ "type" ++ dq ++ ":" ++ dq ++ "ack" ++ dq ++ ","
       ++ dq ++ "alertId" ++ dq ++ ":" ++ dq ++ "u1" ++ dq ++ "}")%string.

(** A stand-in for [JSON.parse] in the examples: it answers as [JSON.parse]
    does on the three texts the examples feed it, [sample_ack_text],
    [null] and [not json]. *)
Definition sample_parse (text : string) : option jsval :=
  if text =? sample_ack_text then
    Some (JObj [("type", JP (PStr "ack")); ("alertId", JP (PStr "u1"))])
  else if text =? "null" then Some (JP PNull)
  else None.

Definition sample_key : string := "secret".
Definition sample_base : string := "http://directory".

(** Operator [A] with password [pw] and the configured token. *)
Definition sample_req : request :=
  mkRequest "http://localhost/?id=A&pwd=pw&token=secret"
            (Some "secret") (Some "A") (Some "pw").

(** The same with a wrong token, and a connection with no parameter. *)
Definition sample_req_bad_token : request :=
  mkRequest "http://localhost/?id=A&pwd=pw&token=FAKE"
            (Some "FAKE") (Some "A") (Some "pw").

Definition sample_req_empty : request :=
  mkRequest "http://localhost/" None None None.

(** The directory's answer for an operator whose password is [pw]. *)
Definition sample_resp : response :=
  mkResponse true 200 false
             (Some (JObj [("mot_de_passe", JP (PStr "pw"))])).

Definition sample_data : jsobj :=
  [("type", JP (PStr "box_alert")); ("patientId", JP (PStr "P1"));
   ("alertType", JP (PStr "urgence")); ("message", JP (PStr "(manual)"))].

(** Two caregivers with one session and one pending alert each; the socket
    of [A] is open and its [send] throws, the socket of [B] is healthy. *)
Definition sample_two_caregivers : state :=
  {| wsClients := [(PStr "A", [0%nat]); (PStr "B", [1%nat])];
     pendingAlerts :=
       [(PStr "A", [(PStr "u1", mk_payload sample_data "u1" "t1")]);
        (PStr "B", [(PStr "u2", mk_payload sample_data "u2" "t2")])];
     patientsCache := DirOther false;
     patientsCacheTs := 0;
     sockets := [mkSocket 1 true false (Some (PStr "A"));
                 mkSocket 1 false false (Some (PStr "B"))];
     wire := [];
     enqueued := [(PStr "A", mk_payload sample_data "u1" "t1");
                  (PStr "B", mk_payload sample_data "u2" "t2")] |}.

(** Operator [A] is connected on socket [0] and alert [u1], dispatched to
    [A], went out on it and is still pending. *)
Definition sample_connected_then_alerted : state :=
  {| wsClients := [(PStr "A", [0%nat])];
     pendingAlerts :=
       [(PStr "A", [(PStr "u1", mk_payload sample_data "u1" "t1")])];
     patientsCache := DirOther false;
     patientsCacheTs := 0;
     sockets := [mkSocket 1 false false (Some (PStr "A"))];
     wire := [(0%nat, mk_payload sample_data "u1" "t1")];
     enqueued := [(PStr "A", mk_payload sample_data "u1" "t1")] |}.

(** A cache filled at time [0] with patient [P1] of caregiver [A]. *)
Definition sample_cached : state :=
  with_cache (DirArray [ElemRec (PStr "P1") (PStr "A")]) 0 init.


(** A manual alert for caregiver [A], and a request that names only [A]. *)
Definition sample_alert_body : alert_body :=
  mkAlertBody (PStr "A") (JP (PStr "P1")) (JP (PStr "urgence")) (JP PUndefined).

Definition sample_alert_body_only_id : alert_body :=
  mkAlertBody (PStr "A") (JP PUndefined) (JP PUndefined) (JP PUndefined).

(** The text of a resend request, and a stand-in for [JSON.parse] that
    knows it besides the texts [sample_parse] knows. *)
Definition sample_resend_text : string :=
  ("{" ++ dq ++ "type" ++ dq ++ ":" ++ dq ++ "resend_pending" ++ dq ++ "}")%string.

Definition sample_parse_more (text : string) : option jsval :=
  if text =? sample_resend_text then
    Some (JObj [("type", JP (PStr "resend_pending"))])
  else sample_parse text.

(** A connection of operator [A] without password, and the directory's
    answer for an operator whose password is not [pw]. *)
Definition sample_req_no_pwd : request :=
  mkRequest "http://localhost/?id=A" None (Some "A") None.

Definition sample_resp_other : response :=
  mkResponse true 200 false
             (Some (JObj [("mot_de_passe", JP (PStr "other"))])).

(** [sample_connected_then_alerted] with patient [P1] of caregiver [A] cached
    at time [0]. *)
Definition sample_connected_cached : state :=
  with_cache (DirArray [ElemRec (PStr "P1") (PStr "A")]) 0
             sample_connected_then_alerted.

(** A cache whose records carry numeric ids, and one that starts with a
    [null] element. *)
Definition sample_numeric_ids : state :=
  with_cache (DirArray [ElemRec (PNum "7") (PStr "B");
                        ElemRec (PNum "12") (PStr "A")]) 0 init.

Definition sample_null_first : state :=
  with_cache (DirArray [ElemNullish; ElemRec (PStr "P1") (PStr "A")]) 0 init.



Section Server.
Variable API_KEY : string.
Variable API_BASE : string.
(** [JSON.parse]: [None] when it throws a [SyntaxError]. *)
Variable JSON_parse : string -> option jsval.

(* ---------------------------------------------------------------- *)
(** *** Patient directory cache *)

Definition fetchAllPatients (now now' : Z) (pf : patients_fetch)
  : M directory :=
  cache <- gets patientsCache ;;
  ts <- gets patientsCacheTs ;;
  if dir_truthy cache && (now - ts <? PATIENTS_CACHE_TTL_MS)%Z then ret cache
  else if API_BASE =? "" then ret (DirArray [])
  else
    try_catch
      (match pf with
       | PFRejects => throw NetworkError
       | PFJsonRejects => throw SyntaxError
       | PFData data =>
           modify (with_cache data now') ;;
           ret data
       end)
      (fun _ => ret (DirArray [])).

(** [patients.find((x) => String(x.id_patient) === String(patientId))];
    [patientId] is a string. *)
Fixpoint find_patient (l : list patient_elem) (patientId : string)
  : M (option prim) :=
  match l with
  | [] => ret None
  | ElemNullish :: _ => throw TypeError
  | ElemRec id fk :: r =>
      if String_ id =? patientId then ret (Some fk)
      else find_patient r patientId
  end.

Definition getAideForPatient (patientId : string) (now now' : Z)
    (pf : patients_fetch) : M prim :=
  try_catch
    (patients <- fetchAllPatients now now' pf ;;
     match patients with
     | DirOther _ => ret PNull
     | DirArray l =>
         p <- find_patient l patientId ;;
         match p with
         | None => ret PNull
         | Some fk => ret (if truthy fk then fk else PNull)
         end
     end)
    (fun _ => ret PNull).

(* ---------------------------------------------------------------- *)
(** *** Websocket connection handler *)

(** [ws.on("message", ...)] for the socket [w] of caregiver [aideId]. *)
Definition on_ws_message (w : ws_id) (aideId : prim) (msgBuf : string)
  : M unit :=
  match JSON_parse msgBuf with
  | None => ret tt
  | Some data =>
      if truthy_val data then
        type <- get_prop data "type" ;;
        alertId <- get_prop data "alertId" ;;
        if strict_eq_str type "ack" && truthy_val alertId then
          pa <- gets pendingAlerts ;;
          match map_get pa aideId, alertId with
          | Some q, JP k =>
              when (map_has q k)
                (modify (with_pendingAlerts (fun pa =>
                   map_set pa aideId (map_delete q k))))
          | _, _ => ret tt
          end
        else if strict_eq_str type "resend_pending" then
          pa <- gets pendingAlerts ;;
          match map_get pa aideId with
          | Some q =>
              for_each (map_values q) (fun payload => wsSendSafe w payload)
          | None => ret tt
          end
        else ret tt
      else ret tt
  end.

(** [ws.on("close", ...)] *)
Definition on_ws_close (w : ws_id) (aideId : prim) : M unit :=
  wc <- gets wsClients ;;
  match map_get wc aideId with
  | Some st =>
      let st' := set_delete st w in
      modify (with_wsClients (fun wc => map_set wc aideId st')) ;;
      when (Nat.eqb (List.length st') 0)
           (modify (with_wsClients (fun wc => map_delete wc aideId)))
  | None => ret tt
  end.

Definition token_mismatch (token : option string) : bool :=
  match token with
  | Some t => negb (t =? API_KEY)
  | None => true
  end.

Definition invalid_token_obj (req : request) : jsobj :=
  [("error", JP (PStr "Invalid token"));
   ("debug", JObj [("token_recu", param_val (q_token req));
                   ("api_key_attendue", JP (PStr API_KEY));
                   ("url", JP (PStr (href req)))])].

(** [wss.on("connection", async (ws, req) => ...)]; [url] is how the
    parsing of the request URL ends, before every check and outside the
    [try], and [auth] is how the [fetch] of the stored password settles.  The handler reads and writes
    [wsClients] and [pendingAlerts] only after its last [await], so the
    state it runs on is the state at that moment. *)
Definition on_connection (w : ws_id) (url : url_result) (auth : fetch_result)
  : M unit :=
  match url with
  | URLThrows => throw TypeError
  | URLParsed req =>
  let token := q_token req in
  let password := match q_pwd req with Some p => p | None => "" end in
  let aideId := PStr (match q_id req with Some i => i | None => "" end) in
  if param_falsy (q_id req) then
    wsSendSafe w (error_obj "Missing 'id' query param") ;;
    ws_close w
  else if param_falsy (q_pwd req) then
    wsSendSafe w (error_obj "Missing 'pwd' query param") ;;
    ws_close w
  else if negb (API_KEY =? "") && token_mismatch token then
    wsSendSafe w (invalid_token_obj req) ;;
    ws_close w
  else
    try_catch
      (response <- await_fetch auth ;;
       if negb (ok response) then
         wsSendSafe w (error_obj "Authentication failed due to API error") ;;
         ws_close w
       else
         aideData <- response_json false response ;;
         mot_de_passe <- get_prop aideData "mot_de_passe" ;;
         if negb (strict_eq_str mot_de_passe password) then
           wsSendSafe w (error_obj "Invalid password") ;;
           ws_close w
         else
           wc <- gets wsClients ;;
           when (negb (map_has wc aideId))
                (modify (with_wsClients (fun wc => map_set wc aideId []))) ;;
           wc <- gets wsClients ;;
           match map_get wc aideId with
           | Some st =>
               modify (with_wsClients (fun wc =>
                 map_set wc aideId (set_add st w)))
           | None => throw TypeError
           end ;;
           pa <- gets pendingAlerts ;;
           when (negb (map_has pa aideId))
                (modify (with_pendingAlerts (fun pa =>
                   map_set pa aideId []))) ;;
           pa <- gets pendingAlerts ;;
           match map_get pa aideId with
           | Some queue =>
               for_each (map_values queue)
                        (fun payload => wsSendSafe w payload)
           | None => throw TypeError
           end ;;
           ws_on_handlers w aideId)
      (fun _ =>
         wsSendSafe w (error_obj "Internal server error.") ;;
         try_catch (ws_close w) (fun _ => ret tt))
  end.

(* ---------------------------------------------------------------- *)
(** *** MQTT topic router *)

Definition alert_obj (type patientId alertType message topic : string)
  : jsobj :=
  [("type", JP (PStr type)); ("patientId", JP (PStr patientId));
   ("alertType", JP (PStr alertType)); ("message", JP (PStr message));
   ("topic", JP (PStr topic))].

(** [if (aideId) { ...; sendToAide(aideId, payload); } else log]
    with [call] the guarded call to the data-store API. *)
Definition notify (aideId : prim) (call : M unit) (payload : jsobj)
    (uuid ts : string) : M unit :=
  if truthy aideId then
    call ;;
    _ <- sendToAide aideId payload uuid ts ;;
    ret tt
  else ret tt.

(** [mqttClient.on("message", async (topic, messageBuf) => ...)].
    [now], [now'] and [pf] serve [getAideForPatient]; [api] is how the one
    call to the data-store API settles.  The outcome [Throw e] is the
    rejection of the promise of the handler, which nothing handles. *)
Definition on_mqtt_message (topic message : string) (now now' : Z)
    (pf : patients_fetch) (api : fetch_result) (uuid ts : string) : M unit :=
  let parts := topic_parts topic in
  if (4 <=? List.length parts)%nat
     && (nth 0 parts "" =? "alert") && (nth 1 parts "" =? "box")
  then
    let patientId := nth 2 parts "" in
    let alertType := String.concat "/" (skipn 3 parts) in
    aideId <- getAideForPatient patientId now now' pf ;;
    if alertType =? "mecanic" then ret tt
    else if alertType =? "seuilmedoc" then
      notify aideId (ret tt)
             (alert_obj "warning" patientId alertType message topic) uuid ts
    else if alertType =? "plusmedoc" then
      notify aideId (ret tt)
             (alert_obj "critical" patientId alertType message topic) uuid ts
    else if alertType =? "delivery" then
      data <- match JSON_parse message with
              | Some v => ret v
              | None => throw SyntaxError
              end ;;
      _ <- get_prop data "heure_distrib" ;;
      _ <- get_prop data "nom_medoc" ;;
      _ <- get_prop data "quantite_totale" ;;
      _ <- get_prop data "quantite_restante" ;;
      _ <- get_prop data "compartiment" ;;
      if truthy aideId then
        try_catch
          (response <- await_fetch api ;;
           when (negb (ok response)) (response_text response) ;;
           _ <- response_json (negb (ok response)) response ;;
           ret tt)
          (fun _ => ret tt)
      else ret tt
    else if alertType =? "getprescription" then
      notify aideId
        (try_catch
           (response <- await_fetch api ;;
            when (negb (ok response)) (response_text response) ;;
            _ <- response_json (negb (ok response)) response ;;
            ret tt)
           (fun _ => ret tt))
        (alert_obj "request" patientId alertType message topic) uuid ts
    else if alertType =? "getmedocs" then
      notify aideId
        (try_catch
           (response <- await_fetch api ;;
            _ <- response_json false response ;;
            ret tt)
           (fun _ => ret tt))
        (alert_obj "request" patientId alertType message topic) uuid ts
    else if alertType =? "createclient" then
      (* the request body names the undeclared [id_patient]: evaluating it
         throws inside the [try], before [fetch] is called *)
      notify aideId
        (try_catch (throw ReferenceError) (fun _ => ret tt))
        (alert_obj "request" patientId alertType message topic) uuid ts
    else ret tt
  else ret tt.

(* ---------------------------------------------------------------- *)
(** *** The event loop *)

(** The [ws] object of a new connection. *)
Definition accept (rs : Z) (throws : bool) : M ws_id :=
  fun s =>
    (Ok (List.length (sockets s)),
     with_sockets (fun l => l ++ [mkSocket rs throws false None]) s).

Definition handle (e : event) : M unit :=
  match e with
  | EvConnection rs throws url auth =>
      w <- accept rs throws ;;
      on_connection w url auth
  | EvWsMessage w msgBuf =>
      b <- gets (fun s => bound_of s w) ;;
      match b with
      | Some aideId => on_ws_message w aideId msgBuf
      | None => ret tt
      end
  | EvWsClose w =>
      modify (with_sockets (update_nth w (fun k =>
        mkSocket 3 (send_throws k) (close_called k) (bound k)))) ;;
      b <- gets (fun s => bound_of s w) ;;
      match b with
      | Some aideId => on_ws_close w aideId
      | None => ret tt
      end
  | EvSocket w rs throws =>
      modify (with_sockets (update_nth w (fun k =>
        mkSocket rs throws (close_called k) (bound k))))
  | EvRetry => retryTimer
  | EvSendAlert aideId data uuid ts =>
      _ <- sendToAide aideId data uuid ts ;;
      ret tt
  | EvFetchPatients now now' pf =>
      _ <- fetchAllPatients now now' pf ;;
      ret tt
  | EvMqtt topic message now now' pf api uuid ts =>
      on_mqtt_message topic message now now' pf api uuid ts
  end.

(** The state after a handler ran; an exception it lets escape leaves the
    mutations made so far. *)
Definition step (s : state) (e : event) : state := snd (handle e s).

Definition run (s : state) (evs : list event) : state :=
  fold_left step evs s.

Definition reachable (s : state) : Prop := exists evs, s = run init evs.

(** The sessions registered for a caregiver, and the alert pending for a
    caregiver under an id. *)
Definition sessions (s : state) (c : prim) : wsset :=
  match map_get (wsClients s) c with Some st => st | None => [] end.

Definition queue_of (s : state) (c : prim) : jsmap jsobj :=
  match map_get (pendingAlerts s) c with Some q => q | None => [] end.

Definition pending_lookup (s : state) (c a : prim) : option jsobj :=
  map_get (queue_of s c) a.

(** The messages a broadcast of [p] to the sockets [l] puts on the wire. *)
Definition broadcast_msgs (s : state) (l : wsset) (p : jsobj)
  : list (ws_id * jsobj) :=
  map (fun w => (w, p)) (filter (sendable s) l).

(* ---------------------------------------------------------------- *)
(** *** REST endpoints *)

(** The text of [err.message] for a caught exception. *)
Variable err_message : exn -> string.

(** [apiKeyMiddleware(req, res, next)]; [key] is [req.headers["api_key"]]
    and [next] the handler behind the middleware. *)
Definition apiKeyMiddleware (key : option string) (next : M http_response)
  : M http_response :=
  if API_KEY =? "" then next
  else if param_falsy key || token_mismatch key then
    ret (mkHttp 401 (json_error "Unauthorized: invalid API key"))
  else next.

(** [app.get("/api/health", ...)]; [mqttConnected] and [PORT] are the two
    other values it reports. *)
Definition api_health (mqttConnected : bool) (PORT : string)
  : M http_response :=
  wc <- gets wsClients ;;
  ret (res_json (JObj [("status", JP (PStr "ok"));
                       ("mqttConnected", JP (PBool mqttConnected));
                       ("wsPort", JP (PNum PORT));
                       ("activeAides", JArr (map (fun '(c, _) => JP c) wc))])).

(** The handler of [app.post("/api/send-alert", ...)]. *)
Definition api_send_alert (body : alert_body) (uuid ts : string)
  : M http_response :=
  if negb (truthy (b_aideId body)) || negb (truthy_val (b_patientId body))
     || negb (truthy_val (b_alertType body))
  then ret (mkHttp 400 (json_error "aideId, patientId and alertType required"))
  else
    let payload :=
      [("type", JP (PStr "box_alert"));
       ("patientId", b_patientId body);
       ("alertType", b_alertType body);
       ("message", or_else (b_message body) (JP (PStr "(manual)")))] in
    sent <- sendToAide (b_aideId body) payload uuid ts ;;
    ret (res_json (JObj [("sent", JP (PBool sent))])).

(** The handler of [app.post("/api/test/send-alert", ...)]. *)
Definition api_test_send_alert (body : alert_body) (uuid ts : string)
  : M http_response :=
  if negb (truthy (b_aideId body))
  then ret (mkHttp 400 (json_error "aideId requis"))
  else
    let payload :=
      [("type", JP (PStr "box_alert"));
       ("patientId", or_else (b_patientId body) (JP (PStr "test-patient")));
       ("alertType", or_else (b_alertType body) (JP (PStr "test")));
       ("message", or_else (b_message body) (JP (PStr "Alerte de test")));
       ("topic", JP (PStr "alert/box/test/manual"))] in
    sent <- sendToAide (b_aideId body) payload uuid ts ;;
    ret (res_json (JObj [("success", JP (PBool true));
                         ("sent", JP (PBool sent));
                         ("message",
                          JP (PStr (if sent then "Alerte envoyée"
                                    else "Aide-soignant hors ligne, alerte en attente")))])).



(* ------------------------------------------------------------------ *)
(** ** Vocabulary of the properties *)

Definition flush_msgs (s : state) (w : ws_id) (l : list jsobj)
  : list (ws_id * jsobj) :=
  if sendable s w then map (fun p => (w, p)) l else [].

(** The store and history after [pendingAlerts.get(c).set(a, p)]. *)
Definition enqueue (c : prim) (a : string) (p : jsobj) (s : state) : state :=
  push_enqueued c p
    (with_pendingAlerts
       (fun pa => map_set pa c (map_set (queue_of s c) (PStr a) p)) s).

(** What one sweep puts on the wire: for every caregiver of the registry,
    in order, every pending payload to every session that takes it. *)
Definition sweep_msgs (s : state) : list (ws_id * jsobj) :=
  flat_map (fun '(c, clientSet) =>
              flat_map (fun p => broadcast_msgs s clientSet p)
                       (map_values (queue_of s c)))
           (wsClients s).

Definition sent (s : state) (w : ws_id) (obj : jsobj)
  : list (ws_id * jsobj) :=
  if sendable s w then [(w, obj)] else [].

Definition closed (w : ws_id) (s : state) : state :=
  with_sockets (update_nth w (fun k =>
    mkSocket (readyState k) (send_throws k) true (bound k))) s.

Definition rejected_with (w : ws_id) (obj : jsobj) (s : state) : state :=
  closed w (push_wire (sent s w obj) s).

(** The state a handshake that passes every check leaves: the session is
    registered under [c], the queue of [c] exists and was flushed to [w],
    and the closures of [w] are installed. *)
Definition registered (w : ws_id) (c : prim) (s : state) : state :=
  with_sockets (update_nth w (fun k =>
    mkSocket (readyState k) (send_throws k) (close_called k) (Some c)))
  (push_wire (flush_msgs s w (map_values (queue_of s c)))
  (with_pendingAlerts (fun pa => if map_has pa c then pa else map_set pa c [])
  (with_wsClients (fun wc => map_set wc c (set_add (sessions s c) w)) s))).

(** How the handler decides: the error object of a rejection, or [None]
    when every check passes. *)
Definition verdict (req : request) (auth : fetch_result) : option jsobj :=
  let password := match q_pwd req with Some p => p | None => "" end in
  if param_falsy (q_id req) then Some (error_obj "Missing 'id' query param")
  else if param_falsy (q_pwd req) then
    Some (error_obj "Missing 'pwd' query param")
  else if negb (API_KEY =? "") && token_mismatch (q_token req) then
    Some (invalid_token_obj req)
  else
    match auth with
    | FetchRejects => Some (error_obj "Internal server error.")
    | FetchResolves r =>
        if negb (ok r) then
          Some (error_obj "Authentication failed due to API error")
        else
          match json_body r with
          | None => Some (error_obj "Internal server error.")
          | Some (JP PNull) | Some (JP PUndefined) =>
              Some (error_obj "Internal server error.")
          | Some (JObj fields) =>
              if strict_eq_str (obj_get fields "mot_de_passe") password
              then None else Some (error_obj "Invalid password")
          | Some _ => Some (error_obj "Invalid password")
          end
    end.

Definition caregiver_of (req : request) : prim :=
  PStr (match q_id req with Some i => i | None => "" end).

Inductive msg_kind : Type :=
| MAck (k : prim)
| MResend
| MIgnored.

(** What the message handler makes of a message. *)
Definition classify (msgBuf : string) : msg_kind :=
  match JSON_parse msgBuf with
  | Some (JObj fields) =>
      if strict_eq_str (obj_get fields "type") "ack"
         && truthy_val (obj_get fields "alertId")
      then match obj_get fields "alertId" with
           | JP k => MAck k
           | _ => MIgnored
           end
      else if strict_eq_str (obj_get fields "type") "resend_pending"
           then MResend else MIgnored
  | _ => MIgnored
  end.

(** The store after [q.delete(k)] guarded by [q && q.has(k)]. *)
Definition acked (c k : prim) (s : state) : state :=
  match map_get (pendingAlerts s) c with
  | Some q =>
      if map_has q k
      then with_pendingAlerts (fun pa => map_set pa c (map_delete q k)) s
      else s
  | None => s
  end.

(** The registry after the close handler. *)
Definition unregistered (w : ws_id) (c : prim) (s : state) : state :=
  match map_get (wsClients s) c with
  | Some st =>
      with_wsClients (fun wc =>
        if Nat.eqb (List.length (set_delete st w)) 0
        then map_delete (map_set wc c (set_delete st w)) c
        else map_set wc c (set_delete st w)) s
  | None => s
  end.

Definition cache_fresh (s : state) (now : Z) : bool :=
  dir_truthy (patientsCache s)
  && (now - patientsCacheTs s <? PATIENTS_CACHE_TTL_MS)%Z.

(** The state after [fetchAllPatients]: only a fetch that yields data
    touches the cache. *)
Definition refreshed (now now' : Z) (pf : patients_fetch) (s : state) : state :=
  if cache_fresh s now then s
  else if API_BASE =? "" then s
  else match pf with
       | PFData data => with_cache data now' s
       | _ => s
       end.

Definition fetched (now : Z) (pf : patients_fetch) (s : state) : directory :=
  if cache_fresh s now then patientsCache s
  else if API_BASE =? "" then DirArray []
  else match pf with
       | PFData data => data
       | _ => DirArray []
       end.

(** The five reads [data.heure_distrib], ..., [data.compartiment]. *)
Definition reads_throw (data : jsval) : bool :=
  match data with
  | JP PNull | JP PUndefined => true
  | _ => false
  end.

(** A message is routed when its topic has at least four non-empty
    segments, the first two being [alert] and [box]. *)
Definition routed (topic : string) : bool :=
  (4 <=? List.length (topic_parts topic))%nat
  && (nth 0 (topic_parts topic) "" =? "alert")
  && (nth 1 (topic_parts topic) "" =? "box").

Definition alertType_of (topic : string) : string :=
  String.concat "/" (skipn 3 (topic_parts topic)).

Definition accepted (rs : Z) (throws : bool) (s : state) : state :=
  with_sockets (fun l => l ++ [mkSocket rs throws false None]) s.

Definition gone (w : ws_id) (s : state) : state :=
  with_sockets (update_nth w (fun k =>
    mkSocket 3 (send_throws k) (close_called k) (bound k))) s.

(** [msgBuf] parses to an object whose [type] is ["ack"] and whose
    [alertId] is [a]. *)
Definition ack_message (msgBuf : string) (a : prim) : Prop :=
  exists fields,
    JSON_parse msgBuf = Some (JObj fields) /\
    obj_get fields "type" = JP (PStr "ack") /\
    obj_get fields "alertId" = JP a.

Record Inv (s : state) : Prop := mkInv {
  inv_pending : forall c q a p,
    In (c, q) (pendingAlerts s) -> In (a, p) q -> In (c, p) (enqueued s);
  inv_sessions : forall c st w,
    In (c, st) (wsClients s) -> In w st -> bound_of s w = Some c;
  inv_wire : forall w m c,
    In (w, m) (wire s) -> bound_of s w = Some c -> In (c, m) (enqueued s);
  inv_alloc : forall w m,
    In (w, m) (wire s) -> (w < List.length (sockets s))%nat
}.

(** [ws.close()] was called on the socket. *)
Definition close_requested (s : state) (w : ws_id) : bool :=
  match nth_error (sockets s) w with
  | Some k => close_called k
  | None => false
  end.

(** The message a socket in condition [rs], [throws] lets through. *)
Definition delivered (rs : Z) (throws : bool) (w : ws_id) (l : list jsobj)
  : list (ws_id * jsobj) :=
  if (rs =? 1)%Z && negb throws then map (fun p => (w, p)) l else [].

(** The stored credential read from the answer is the supplied password. *)
Definition stored_password_is (data : jsval) (pwd : string) : bool :=
  match data with
  | JObj fields => strict_eq_str (obj_get fields "mot_de_passe") pwd
  | _ => false
  end.

(** The ways a handshake is turned down: no id, no password, a token that
    is not the configured secret, a credential lookup that is not OK, a
    stored password that differs, an exception while authenticating. *)
Definition handshake_rejected (req : request) (auth : fetch_result) : Prop :=
  param_falsy (q_id req) = true \/
  param_falsy (q_pwd req) = true \/
  (API_KEY <> "" /\ q_token req <> Some API_KEY) \/
  (exists r, auth = FetchResolves r /\ ok r = false) \/
  (exists r data,
     auth = FetchResolves r /\ json_body r = Some data /\
     stored_password_is data
       (match q_pwd req with Some p => p | None => "" end) = false) \/
  auth = FetchRejects \/
  (exists r, auth = FetchResolves r /\ json_body r = None).

(** A connection that is turned down: its request URL does not parse, or
    its handshake is rejected. *)
Definition turned_down (url : url_result) (auth : fetch_result) : Prop :=
  match url with
  | URLThrows => True
  | URLParsed req => handshake_rejected req auth
  end.

(** An operator id as a handshake accepts it: a non-empty string. *)
Definition is_operator_id (c : prim) : Prop :=
  exists id, c = PStr id /\ id <> "".

(** The shape the registry keeps: one entry per caregiver, each with a
    non-empty set without repetition, under a non-empty string. *)
Record RegInv (s : state) : Prop := mkRegInv {
  reg_keys : NoDup (map fst (wsClients s));
  reg_sets : forall c st,
    In (c, st) (wsClients s) -> st <> [] /\ NoDup st /\ is_operator_id c;
  reg_bound : forall w c, bound_of s w = Some c -> is_operator_id c
}.

(** [Array.from(wsClients.keys())] *)
Definition activeAides (s : state) : list prim := map fst (wsClients s).

(** The caregiver [getAideForPatient] finds in an array of records: the
    [fk_aide_soignant] of the first record whose id renders as [patientId],
    or [null]; a [null] element met before stops the search with [null]. *)
Fixpoint aide_in (l : list patient_elem) (patientId : string) : prim :=
  match l with
  | [] => PNull
  | ElemNullish :: _ => PNull
  | ElemRec id fk :: r =>
      if String_ id =? patientId then (if truthy fk then fk else PNull)
      else aide_in r patientId
  end.

Definition aide_of (d : directory) (patientId : string) : prim :=
  match d with
  | DirArray l => aide_in l patientId
  | DirOther _ => PNull
  end.

(** The [type] of the alert the router dispatches for an alert class, when
    it dispatches one. *)
Definition severity_of (alertType : string) : option string :=
  if alertType =? "mecanic" then None
  else if alertType =? "seuilmedoc" then Some "warning"
  else if alertType =? "plusmedoc" then Some "critical"
  else if alertType =? "delivery" then None
  else if alertType =? "getprescription" then Some "request"
  else if alertType =? "getmedocs" then Some "request"
  else if alertType =? "createclient" then Some "request"
  else None.

(** The state the router leaves for a routed message. *)
Definition routed_state (topic message : string) (now now' : Z)
    (pf : patients_fetch) (uuid ts : string) (s : state) : state :=
  let patientId := nth 2 (topic_parts topic) "" in
  let aide := aide_of (fetched now pf s) patientId in
  match severity_of (alertType_of topic) with
  | Some severity =>
      if truthy aide then
        step (refreshed now now' pf s)
             (EvSendAlert aide
                (alert_obj severity patientId (alertType_of topic) message topic)
                uuid ts)
      else refreshed now now' pf s
  | None => refreshed now now' pf s
  end.

(** No [/] in the string. *)
Fixpoint slash_free (x : string) : bool :=
  match x with
  | EmptyString => true
  | String c r => negb (Ascii.eqb c "/") && slash_free r
  end.

(** The alert classes for which the router calls [sendToAide]. *)
Definition dispatching_classes : list string :=
  ["seuilmedoc"; "plusmedoc"; "getprescription"; "getmedocs"; "createclient"].

(** The topic [alert/box/<patientId>/<alertType>]. *)
Definition box_topic (patientId alertType : string) : string :=
  ("alert/box/" ++ patientId ++ "/" ++ alertType)%string.

(** The three checks the connection handler makes before it calls the
    directory: [id] and [pwd] are supplied and the token is the configured
    secret, if there is one. *)
Definition passes_first_checks (req : request) : Prop :=
  param_falsy (q_id req) = false /\
  param_falsy (q_pwd req) = false /\
  (API_KEY = "" \/ q_token req = Some API_KEY).

(** An event that neither acknowledges the alert [uuid] nor dispatches
    another alert under the same id. *)
Definition leaves_alone (uuid : string) (e : event) : Prop :=
  match e with
  | EvWsMessage _ msgBuf => ~ ack_message msgBuf (PStr uuid)
  | EvSendAlert _ _ u _ => u <> uuid
  | EvMqtt _ _ _ _ _ _ u _ => u <> uuid
  | _ => True
  end.

(** One of the objects a turned-down handshake sends. *)
Definition is_rejection (m : jsobj) : Prop :=
  (exists msg, m = error_obj msg) \/ (exists req, m = invalid_token_obj req).

(* ================================================================ *)
(** ** Properties *)

(** *** Maps and objects *)

Lemma map_get_set {V} (m : jsmap V) k v k' :
  map_get (map_set m k v) k' = if prim_eq_dec k' k then Some v else map_get m k'.
Proof.
  induction m as [|[k0 v0] r IH]; simpl.
  - destruct (prim_eq_dec k' k); reflexivity.
  - destruct (prim_eq_dec k k0) as [->|Hk]; simpl.
    + destruct (prim_eq_dec k' k0); reflexivity.
    + rewrite IH. destruct (prim_eq_dec k' k0) as [->|]; [|reflexivity].
      destruct (prim_eq_dec k0 k); congruence.
Qed.

Lemma map_get_delete {V} (m : jsmap V) k k' :
  map_get (map_delete m k) k' = if prim_eq_dec k' k then None else map_get m k'.
Proof.
  induction m as [|[k0 v0] r IH]; simpl.
  - destruct (prim_eq_dec k' k); reflexivity.
  - destruct (prim_eq_dec k k0) as [->|Hk]; simpl.
    + rewrite IH. destruct (prim_eq_dec k' k0); reflexivity.
    + rewrite IH. destruct (prim_eq_dec k' k0) as [->|]; [|reflexivity].
      destruct (prim_eq_dec k0 k); congruence.
Qed.

Lemma map_set_In {V} (m : jsmap V) k v k' v' :
  In (k', v') (map_set m k v) -> (k', v') = (k, v) \/ In (k', v') m.
Proof.
  induction m as [|[k0 v0] r IH]; simpl.
  - intros [H|[]]; left; congruence.
  - destruct (prim_eq_dec k k0); simpl; intros [H|H]; auto.
    destruct (IH H); auto.
Qed.

Lemma map_delete_In {V} (m : jsmap V) k k' v' :
  In (k', v') (map_delete m k) -> In (k', v') m.
Proof.
  induction m as [|[k0 v0] r IH]; simpl; [auto|].
  destruct (prim_eq_dec k k0); simpl; intros H; auto.
  destruct H; auto.
Qed.

Lemma map_delete_absent {V} (m : jsmap V) k :
  map_get m k = None -> map_delete m k = m.
Proof.
  induction m as [|[k0 v0] r IH]; simpl; [reflexivity|].
  destruct (prim_eq_dec k k0); [discriminate|].
  intros H. now rewrite IH.
Qed.

Lemma map_set_set {V} (m : jsmap V) k v v' :
  map_set (map_set m k v) k v' = map_set m k v'.
Proof.
  induction m as [|[k0 v0] r IH]; simpl.
  - destruct (prim_eq_dec k k); congruence.
  - destruct (prim_eq_dec k k0) as [->|Hk]; simpl.
    + destruct (prim_eq_dec k0 k0); congruence.
    + destruct (prim_eq_dec k k0); [congruence|]. now rewrite IH.
Qed.

Lemma obj_get_set (o : jsobj) k v k' :
  obj_get (obj_set o k v) k' = if k =? k' then v else obj_get o k'.
Proof.
  induction o as [|[k0 v0] r IH]; simpl.
  - reflexivity.
  - destruct (String.eqb_spec k0 k) as [->|Hk]; simpl.
    + destruct (k =? k'); reflexivity.
    + rewrite IH. destruct (String.eqb_spec k0 k') as [->|]; [|reflexivity].
      destruct (String.eqb_spec k k'); congruence.
Qed.

Lemma set_add_In st w w' : In w' (set_add st w) <-> w' = w \/ In w' st.
Proof.
  unfold set_add. destruct (existsb (Nat.eqb w) st) eqn:E.
  - apply existsb_exists in E as (x & Hx & Hw). apply Nat.eqb_eq in Hw.
    subst x. split; [auto|]. intros [->|]; auto.
  - rewrite in_app_iff; simpl.
    split; [intros [H|[H|[]]]; auto | intros [H|H]; auto].
Qed.

Lemma set_delete_In st w w' : In w' (set_delete st w) -> In w' st.
Proof. unfold set_delete. intros H. now apply filter_In in H. Qed.

(** *** Sending *)

Lemma push_wire_nil s : push_wire [] s = s.
Proof. destruct s; unfold push_wire; simpl. now rewrite app_nil_r. Qed.

Lemma push_wire_app a b s : push_wire b (push_wire a s) = push_wire (a ++ b) s.
Proof. unfold push_wire; simpl. now rewrite app_assoc. Qed.

(** [wsSendSafe] never throws. *)
Lemma wsSendSafe_run w p s :
  wsSendSafe w p s = (Ok tt, push_wire (if sendable s w then [(w, p)] else []) s).
Proof.
  unfold wsSendSafe, try_catch, bind, ws_readyState, ws_send, sendable, ret.
  destruct (nth_error (sockets s) w) as [k|] eqn:E; simpl.
  - destruct (readyState k =? 1)%Z; simpl.
    + rewrite E. destruct (send_throws k); simpl;
        [now rewrite push_wire_nil | reflexivity].
    + now rewrite push_wire_nil.
  - now rewrite push_wire_nil.
Qed.

Lemma broadcast_run l p s :
  for_each l (fun w => wsSendSafe w p) s
  = (Ok tt, push_wire (broadcast_msgs s l p) s).
Proof.
  unfold broadcast_msgs. revert s.
  induction l as [|w r IH]; intros s; simpl.
  - unfold ret. now rewrite push_wire_nil.
  - unfold bind. rewrite wsSendSafe_run, IH, push_wire_app.
    change (sendable (push_wire _ s)) with (sendable s).
    destruct (sendable s w); reflexivity.
Qed.

Lemma flush_run w l s :
  for_each l (fun p => wsSendSafe w p) s = (Ok tt, push_wire (flush_msgs s w l) s).
Proof.
  unfold flush_msgs. revert s.
  induction l as [|p r IH]; intros s; simpl.
  - unfold ret. destruct (sendable s w); now rewrite push_wire_nil.
  - unfold bind. rewrite wsSendSafe_run, IH, push_wire_app.
    change (sendable (push_wire _ s)) with (sendable s).
    destruct (sendable s w); reflexivity.
Qed.

(** *** The dispatcher *)

Lemma sendToAide_run c data uuid ts s :
  sendToAide c data uuid ts s
  = (Ok (negb (Nat.eqb (List.length (sessions s c)) 0)),
     push_wire (broadcast_msgs s (sessions s c) (mk_payload data uuid ts))
               (enqueue c uuid (mk_payload data uuid ts) s)).
Proof.
  set (p := mk_payload data uuid ts).
  assert (E : forall s0,
    (pending_set c uuid p s0 = (Ok tt, enqueue c uuid p s0)) \/
    map_get (pendingAlerts s0) c = None).
  { intros s0. unfold pending_set, bind, gets, enqueue, queue_of.
    destruct (map_get (pendingAlerts s0) c); [left|right]; reflexivity. }
  unfold sendToAide, bind, gets, when, map_has, sessions. fold p.
  destruct (map_get (pendingAlerts s) c) as [q|] eqn:Hq; simpl.
  - destruct (E s) as [-> | H]; [|congruence].
    destruct (map_get (wsClients s) c) as [cs|].
    + destruct (Nat.eqb (List.length cs) 0) eqn:El.
      * destruct cs; [|discriminate]. now rewrite push_wire_nil.
      * unfold bind. rewrite broadcast_run. reflexivity.
    + now rewrite push_wire_nil.
  - unfold modify.
    set (s1 := with_pendingAlerts _ s).
    destruct (E s1) as [-> | H].
    2:{ subst s1. simpl in H. rewrite map_get_set in H.
        destruct (prim_eq_dec c c); congruence. }
    assert (E1 : enqueue c uuid p s1 = enqueue c uuid p s).
    { subst s1. unfold enqueue, queue_of, with_pendingAlerts, push_enqueued.
      simpl. rewrite map_get_set, Hq, map_set_set.
      destruct (prim_eq_dec c c); congruence. }
    rewrite E1.
    change (wsClients s1) with (wsClients s).
    destruct (map_get (wsClients s) c) as [cs|].
    + destruct (Nat.eqb (List.length cs) 0) eqn:El.
      * destruct cs; [|discriminate]. now rewrite push_wire_nil.
      * unfold bind. rewrite broadcast_run. reflexivity.
    + now rewrite push_wire_nil.
Qed.

(** *** The retry sweep *)

Lemma rebroadcast_run (cs : wsset) (l : list jsobj) s :
  for_each l (fun payload => for_each cs (fun w => wsSendSafe w payload)) s
  = (Ok tt, push_wire (flat_map (fun p => broadcast_msgs s cs p) l) s).
Proof.
  revert s. induction l as [|p r IH]; intros s; simpl.
  - unfold ret. now rewrite push_wire_nil.
  - unfold bind. rewrite broadcast_run, IH, push_wire_app. reflexivity.
Qed.

Lemma sweep_loop_run (l : jsmap wsset) s :
  for_each l (fun '(aideId, clientSet) =>
     pa <- gets pendingAlerts ;;
     match map_get pa aideId with
     | None => ret tt
     | Some queue =>
         if Nat.eqb (map_size queue) 0 then ret tt
         else
           for_each (map_values queue) (fun payload =>
             for_each clientSet (fun w => wsSendSafe w payload))
     end) s
  = (Ok tt,
     push_wire (flat_map (fun '(c, clientSet) =>
                  flat_map (fun p => broadcast_msgs s clientSet p)
                           (map_values (queue_of s c))) l) s).
Proof.
  revert s. induction l as [|[c cs] r IH]; intros s; simpl.
  - unfold ret. now rewrite push_wire_nil.
  - unfold bind at 1. unfold bind at 1. unfold gets, queue_of.
    destruct (map_get (pendingAlerts s) c) as [q|] eqn:Hq.
    + destruct (Nat.eqb (map_size q) 0) eqn:El.
      * destruct q; [|discriminate]. unfold ret. simpl. apply IH.
      * rewrite rebroadcast_run, IH, push_wire_app. reflexivity.
    + unfold ret. simpl. apply IH.
Qed.

Lemma retryTimer_run s : retryTimer s = (Ok tt, push_wire (sweep_msgs s) s).
Proof.
  unfold retryTimer, try_catch, sweep_msgs.
  unfold bind at 1. unfold gets at 1. now rewrite sweep_loop_run.
Qed.

(** *** The connection handler *)

Lemma reject_run w obj s :
  (wsSendSafe w obj ;; ws_close w) s = (Ok tt, rejected_with w obj s).
Proof. unfold bind. now rewrite wsSendSafe_run. Qed.

Lemma reject_caught_run w obj s :
  (wsSendSafe w obj ;; try_catch (ws_close w) (fun _ => ret tt)) s
  = (Ok tt, rejected_with w obj s).
Proof. unfold bind. now rewrite wsSendSafe_run. Qed.

Lemma register_run w c s :
  (wc <- gets wsClients ;;
   when (negb (map_has wc c))
        (modify (with_wsClients (fun wc => map_set wc c []))) ;;
   wc <- gets wsClients ;;
   match map_get wc c with
   | Some st => modify (with_wsClients (fun wc => map_set wc c (set_add st w)))
   | None => throw TypeError
   end ;;
   pa <- gets pendingAlerts ;;
   when (negb (map_has pa c))
        (modify (with_pendingAlerts (fun pa => map_set pa c []))) ;;
   pa <- gets pendingAlerts ;;
   match map_get pa c with
   | Some queue =>
       for_each (map_values queue) (fun payload => wsSendSafe w payload)
   | None => throw TypeError
   end ;;
   ws_on_handlers w c) s
  = (Ok tt, registered w c s).
Proof.
  unfold registered, sessions, queue_of, bind, gets, when, modify, map_has.
  destruct (map_get (wsClients s) c) as [st|] eqn:Hc; simpl;
    [rewrite Hc | rewrite map_get_set; destruct (prim_eq_dec c c); [|congruence]];
    simpl;
    (destruct (map_get (pendingAlerts s) c) as [q|] eqn:Hq; simpl;
     [rewrite Hq | rewrite map_get_set; destruct (prim_eq_dec c c); [|congruence]];
     rewrite flush_run; unfold ws_on_handlers, modify, with_sockets, push_wire,
       with_pendingAlerts, with_wsClients, flush_msgs, sendable; simpl;
     rewrite ?Hq, ?Hc, ?map_set_set; reflexivity).
Qed.

Lemma on_connection_throws w auth s :
  on_connection w URLThrows auth s = (Throw TypeError, s).
Proof. reflexivity. Qed.

Lemma on_connection_run w req auth s :
  on_connection w (URLParsed req) auth s
  = (Ok tt,
     match verdict req auth with
     | Some obj => rejected_with w obj s
     | None => registered w (caregiver_of req) s
     end).
Proof.
  unfold on_connection, verdict, caregiver_of.
  destruct (param_falsy (q_id req)); [apply reject_run|].
  destruct (param_falsy (q_pwd req)); [apply reject_run|].
  destruct (negb (API_KEY =? "") && token_mismatch (q_token req));
    [apply reject_run|].
  unfold try_catch. unfold bind at 1.
  destruct auth as [|r]; simpl; [apply reject_caught_run|].
  destruct (ok r); simpl.
  2:{ now rewrite reject_run. }
  unfold bind at 1. unfold response_json.
  destruct (json_body r) as [data|]; simpl; [|apply reject_caught_run].
  unfold bind at 1.
  destruct data as [[]| |fields]; simpl; try apply reject_caught_run;
    try (now rewrite reject_run).
  destruct (strict_eq_str (obj_get fields "mot_de_passe") _); simpl.
  - now rewrite register_run.
  - now rewrite reject_run.
Qed.

(** *** Messages of an authenticated socket *)

Lemma flush_msgs_nil s w : flush_msgs s w [] = [].
Proof. unfold flush_msgs. now destruct (sendable s w). Qed.

Lemma on_ws_message_run w c msgBuf s :
  on_ws_message w c msgBuf s
  = (Ok tt,
     match classify msgBuf with
     | MAck k => acked c k s
     | MResend => push_wire (flush_msgs s w (map_values (queue_of s c))) s
     | MIgnored => s
     end).
Proof.
  unfold on_ws_message, classify.
  destruct (JSON_parse msgBuf) as [data|]; [|reflexivity].
  destruct data as [p| |fields]; simpl.
  - destruct p as [| |b|r|t]; simpl; try reflexivity.
    + now destruct b.
    + now destruct (negb (r =? "0") && negb (r =? "NaN")).
    + now destruct (negb (t =? "")).
  - reflexivity.
  - unfold bind at 1; simpl. unfold bind at 1; simpl.
    destruct (strict_eq_str (obj_get fields "type") "ack"
              && truthy_val (obj_get fields "alertId")).
    + unfold bind, gets, acked, when, modify.
      destruct (map_get (pendingAlerts s) c) as [q|]; [|now destruct (obj_get _ _)].
      destruct (obj_get fields "alertId") as [k| |]; try reflexivity.
      now destruct (map_has q k).
    + destruct (strict_eq_str (obj_get fields "type") "resend_pending");
        [|reflexivity].
      unfold bind, gets, queue_of.
      destruct (map_get (pendingAlerts s) c) as [q|].
      * apply flush_run.
      * unfold ret. simpl. now rewrite flush_msgs_nil, push_wire_nil.
Qed.

Lemma on_ws_close_run w c s : on_ws_close w c s = (Ok tt, unregistered w c s).
Proof.
  unfold on_ws_close, unregistered, bind, gets, when, modify.
  destruct (map_get (wsClients s) c) as [st|]; [|reflexivity].
  destruct (Nat.eqb (List.length (set_delete st w)) 0); reflexivity.
Qed.

(** *** The directory cache *)

Lemma fetchAllPatients_run now now' pf s :
  fetchAllPatients now now' pf s
  = (Ok (fetched now pf s), refreshed now now' pf s).
Proof.
  unfold fetchAllPatients, fetched, refreshed, cache_fresh, bind, gets.
  destruct (dir_truthy (patientsCache s) && _); [reflexivity|].
  destruct (API_BASE =? ""); [reflexivity|].
  destruct pf; reflexivity.
Qed.

Lemma find_patient_state l patientId s : snd (find_patient l patientId s) = s.
Proof.
  induction l as [|[|id fk] r IH]; simpl; try reflexivity.
  destruct (String_ id =? patientId); [reflexivity|apply IH].
Qed.

Lemma getAideForPatient_run patientId now now' pf s :
  exists aide,
    getAideForPatient patientId now now' pf s
    = (Ok aide, refreshed now now' pf s).
Proof.
  unfold getAideForPatient, try_catch. unfold bind at 1.
  rewrite fetchAllPatients_run.
  destruct (fetched now pf s) as [l|b]; [|eexists; reflexivity].
  unfold bind.
  pose proof (find_patient_state l patientId (refreshed now now' pf s)) as H.
  destruct (find_patient l patientId (refreshed now now' pf s)) as [[o|e] s'];
    simpl in H; subst s'.
  - destruct o; eexists; reflexivity.
  - eexists; reflexivity.
Qed.

(** *** The topic router *)

Lemma call_with_text_run api s :
  try_catch
    (response <- await_fetch api ;;
     when (negb (ok response)) (response_text response) ;;
     _ <- response_json (negb (ok response)) response ;;
     ret tt)
    (fun _ => ret tt) s
  = (Ok tt, s).
Proof.
  destruct api as [|[o st t [j|]]]; try reflexivity; destruct o, t; reflexivity.
Qed.

Lemma call_json_run api s :
  try_catch
    (response <- await_fetch api ;;
     _ <- response_json false response ;;
     ret tt)
    (fun _ => ret tt) s
  = (Ok tt, s).
Proof. destruct api as [|[o st t [j|]]]; reflexivity. Qed.

Lemma notify_run aideId call payload uuid ts s :
  call s = (Ok tt, s) ->
  notify aideId call payload uuid ts s
  = (Ok tt, if truthy aideId
            then snd (sendToAide aideId payload uuid ts s) else s).
Proof.
  intros Hc. unfold notify. destruct (truthy aideId); [|reflexivity].
  unfold bind at 1. rewrite Hc. unfold bind. now rewrite sendToAide_run.
Qed.

(** The delivery branch lets [JSON.parse] and the reads of [data] throw. *)
Lemma on_mqtt_message_delivery topic message now now' pf api uuid ts s :
  routed topic = true ->
  alertType_of topic = "delivery" ->
  on_mqtt_message topic message now now' pf api uuid ts s
  = (match JSON_parse message with
     | None => Throw SyntaxError
     | Some data => if reads_throw data then Throw TypeError else Ok tt
     end, refreshed now now' pf s).
Proof.
  intros Hr Ha. unfold on_mqtt_message. fold (routed topic).
  fold (alertType_of topic). rewrite Hr, Ha. simpl.
  unfold bind at 1.
  destruct (getAideForPatient_run (nth 2 (topic_parts topic) "") now now' pf s)
    as [aide ->].
  unfold bind at 1.
  destruct (JSON_parse message) as [data|]; [|reflexivity].
  destruct data as [[]| |fields]; try reflexivity;
    unfold bind; simpl; destruct (truthy aide); try reflexivity;
    apply call_with_text_run.
Qed.

(** Every other class completes, and touches the registry and the store
    through [sendToAide] only. *)
Lemma on_mqtt_message_other topic message now now' pf api uuid ts s :
  (routed topic = true -> alertType_of topic <> "delivery") ->
  exists s',
    on_mqtt_message topic message now now' pf api uuid ts s = (Ok tt, s') /\
    (s' = s \/ s' = refreshed now now' pf s \/
     exists c payload,
       s' = snd (sendToAide c payload uuid ts (refreshed now now' pf s))).
Proof.
  intros Hd. unfold on_mqtt_message. fold (routed topic).
  fold (alertType_of topic).
  destruct (routed topic); simpl; [|eexists; split; [reflexivity|auto]].
  specialize (Hd eq_refl).
  unfold bind at 1.
  destruct (getAideForPatient_run (nth 2 (topic_parts topic) "") now now' pf s)
    as [aide ->].
  set (s1 := refreshed now now' pf s).
  assert (N : forall call payload, call s1 = (Ok tt, s1) ->
    exists s', notify aide call payload uuid ts s1 = (Ok tt, s') /\
      (s' = s \/ s' = s1 \/
       exists c p, s' = snd (sendToAide c p uuid ts s1))).
  { intros call payload Hc. rewrite (notify_run _ _ _ _ _ _ Hc).
    eexists; split; [reflexivity|].
    destruct (truthy aide); [right; right; eauto | auto]. }
  destruct (alertType_of topic =? "mecanic");
    [eexists; split; [reflexivity|auto]|].
  destruct (alertType_of topic =? "seuilmedoc"); [now apply N|].
  destruct (alertType_of topic =? "plusmedoc"); [now apply N|].
  destruct (String.eqb_spec (alertType_of topic) "delivery"); [contradiction|].
  destruct (alertType_of topic =? "getprescription");
    [apply N, call_with_text_run|].
  destruct (alertType_of topic =? "getmedocs"); [apply N, call_json_run|].
  destruct (alertType_of topic =? "createclient"); [now apply N|].
  eexists; split; [reflexivity|auto].
Qed.

(** *** One step of the event loop *)

Lemma step_connection s rs throws req auth :
  step s (EvConnection rs throws (URLParsed req) auth)
  = match verdict req auth with
    | Some obj =>
        rejected_with (List.length (sockets s)) obj (accepted rs throws s)
    | None =>
        registered (List.length (sockets s)) (caregiver_of req)
                   (accepted rs throws s)
    end.
Proof.
  unfold step, handle, bind, accept. now rewrite on_connection_run.
Qed.

Lemma step_connection_throws s rs throws auth :
  step s (EvConnection rs throws URLThrows auth) = accepted rs throws s.
Proof. reflexivity. Qed.

Lemma step_message s w msgBuf :
  step s (EvWsMessage w msgBuf)
  = match bound_of s w with
    | Some c =>
        match classify msgBuf with
        | MAck k => acked c k s
        | MResend => push_wire (flush_msgs s w (map_values (queue_of s c))) s
        | MIgnored => s
        end
    | None => s
    end.
Proof.
  unfold step, handle, bind, gets.
  destruct (bound_of s w); [now rewrite on_ws_message_run | reflexivity].
Qed.

Lemma step_close s w :
  step s (EvWsClose w)
  = match bound_of (gone w s) w with
    | Some c => unregistered w c (gone w s)
    | None => gone w s
    end.
Proof.
  unfold step, handle, bind, gets, modify. fold (gone w s).
  destruct (bound_of (gone w s) w); [now rewrite on_ws_close_run | reflexivity].
Qed.

Lemma step_retry s : step s EvRetry = push_wire (sweep_msgs s) s.
Proof. unfold step, handle. now rewrite retryTimer_run. Qed.

Lemma step_send s c data uuid ts :
  step s (EvSendAlert c data uuid ts)
  = push_wire (broadcast_msgs s (sessions s c) (mk_payload data uuid ts))
              (enqueue c uuid (mk_payload data uuid ts) s).
Proof. unfold step, handle, bind. now rewrite sendToAide_run. Qed.

Lemma step_fetch s now now' pf :
  step s (EvFetchPatients now now' pf) = refreshed now now' pf s.
Proof. unfold step, handle, bind. now rewrite fetchAllPatients_run. Qed.

(** The router leaves the state alone, or refreshes the cache, or
    refreshes the cache and dispatches one alert. *)
Lemma step_mqtt s topic message now now' pf api uuid ts :
  let s' := step s (EvMqtt topic message now now' pf api uuid ts) in
  s' = s \/ s' = refreshed now now' pf s \/
  exists c data,
    s' = step (refreshed now now' pf s) (EvSendAlert c data uuid ts).
Proof.
  unfold step at 1. unfold handle.
  destruct (routed topic) eqn:Hr.
  - destruct (String.eqb_spec (alertType_of topic) "delivery") as [Ha|Ha].
    + rewrite on_mqtt_message_delivery by assumption. simpl. auto.
    + destruct (on_mqtt_message_other topic message now now' pf api uuid ts s)
        as (s' & -> & H); [auto|]. simpl.
      destruct H as [H|[H|(c & p & H)]]; auto.
      right; right. exists c, p. rewrite H.
      unfold step, handle, bind. now destruct (sendToAide _ _ _ _ _) as [[|] ?].
  - destruct (on_mqtt_message_other topic message now now' pf api uuid ts s)
      as (s' & -> & H); [congruence|]. simpl.
    destruct H as [H|[H|(c & p & H)]]; auto.
    right; right. exists c, p. rewrite H.
    unfold step, handle, bind. now destruct (sendToAide _ _ _ _ _) as [[|] ?].
Qed.

(** [refreshed] touches the cache only. *)
Lemma refreshed_core now now' pf s :
  wsClients (refreshed now now' pf s) = wsClients s /\
  pendingAlerts (refreshed now now' pf s) = pendingAlerts s /\
  sockets (refreshed now now' pf s) = sockets s /\
  wire (refreshed now now' pf s) = wire s /\
  enqueued (refreshed now now' pf s) = enqueued s.
Proof.
  unfold refreshed. destruct (cache_fresh s now); [auto 6|].
  destruct (API_BASE =? ""); [auto 6|]. destruct pf; simpl; auto 6.
Qed.

(** *** Only an acknowledgment removes a pending alert *)

Lemma strict_eq_str_true v t : strict_eq_str v t = true -> v = JP (PStr t).
Proof.
  destruct v as [[]| |]; simpl; try discriminate.
  intros H. apply String.eqb_eq in H. now subst.
Qed.

Lemma classify_ack msgBuf a : classify msgBuf = MAck a -> ack_message msgBuf a.
Proof.
  unfold classify, ack_message.
  destruct (JSON_parse msgBuf) as [[| |fields]|]; try discriminate.
  destruct (strict_eq_str (obj_get fields "type") "ack") eqn:Et; simpl.
  - destruct (truthy_val (obj_get fields "alertId")).
    + destruct (obj_get fields "alertId") eqn:Ea; try discriminate.
      intros [= ->]. exists fields. apply strict_eq_str_true in Et. auto.
    + destruct (strict_eq_str _ "resend_pending"); discriminate.
  - destruct (strict_eq_str _ "resend_pending"); discriminate.
Qed.

Lemma ack_classify msgBuf a :
  ack_message msgBuf a -> truthy a = true -> classify msgBuf = MAck a.
Proof.
  intros (fields & Hp & Ht & Ha) Htr. unfold classify.
  rewrite Hp, Ht, Ha. simpl. now rewrite Htr.
Qed.

Lemma lookup_frame s s' c a :
  pendingAlerts s' = pendingAlerts s ->
  pending_lookup s' c a = pending_lookup s c a.
Proof. unfold pending_lookup, queue_of. now intros ->. Qed.

Lemma lookup_push_wire l s c a :
  pending_lookup (push_wire l s) c a = pending_lookup s c a.
Proof. reflexivity. Qed.

Lemma lookup_enqueue c0 a0 p s c a :
  pending_lookup (enqueue c0 a0 p s) c a
  = if prim_eq_dec c c0
    then if prim_eq_dec a (PStr a0) then Some p else pending_lookup s c a
    else pending_lookup s c a.
Proof.
  unfold pending_lookup, enqueue, queue_of; simpl.
  rewrite map_get_set. destruct (prim_eq_dec c c0) as [->|]; [|reflexivity].
  now rewrite map_get_set.
Qed.

Lemma lookup_registered w c0 s c a :
  pending_lookup (registered w c0 s) c a = pending_lookup s c a.
Proof.
  unfold pending_lookup, registered, queue_of, map_has; simpl.
  destruct (map_get (pendingAlerts s) c0) eqn:E; [reflexivity|].
  rewrite map_get_set. destruct (prim_eq_dec c c0) as [->|]; [|reflexivity].
  now rewrite E.
Qed.

Lemma lookup_acked c0 k s c a :
  pending_lookup (acked c0 k s) c a
  = if prim_eq_dec c c0
    then if prim_eq_dec a k then None else pending_lookup s c a
    else pending_lookup s c a.
Proof.
  unfold pending_lookup, acked, queue_of, map_has.
  destruct (map_get (pendingAlerts s) c0) as [q|] eqn:E.
  - destruct (map_get q k) eqn:Ek; simpl.
    + rewrite map_get_set.
      destruct (prim_eq_dec c c0) as [->|]; [|reflexivity].
      rewrite map_get_delete, E. reflexivity.
    + destruct (prim_eq_dec c c0) as [->|]; [|reflexivity].
      rewrite E. destruct (prim_eq_dec a k) as [->|]; auto.
  - destruct (prim_eq_dec c c0) as [->|]; [|reflexivity].
    rewrite E. simpl. now destruct (prim_eq_dec a k).
Qed.

Lemma lookup_unregistered w c0 s c a :
  pending_lookup (unregistered w c0 s) c a = pending_lookup s c a.
Proof.
  unfold unregistered. destruct (map_get (wsClients s) c0); reflexivity.
Qed.

Lemma lookup_refreshed now now' pf s c a :
  pending_lookup (refreshed now now' pf s) c a = pending_lookup s c a.
Proof. apply lookup_frame, refreshed_core. Qed.

Lemma step_keeps_pending s e c a :
  pending_lookup s c a <> None ->
  pending_lookup (step s e) c a = None ->
  exists w msgBuf,
    e = EvWsMessage w msgBuf /\ bound_of s w = Some c /\ ack_message msgBuf a.
Proof.
  intros Hin Hout. destruct e.
  - destruct url as [|req]; [exact (False_ind _ (Hin Hout))|].
    rewrite step_connection in Hout.
    destruct (verdict req auth); [contradiction|].
    now rewrite lookup_registered in Hout.
  - rewrite step_message in Hout.
    destruct (bound_of s w) as [c0|] eqn:Hb; [|contradiction].
    destruct (classify msgBuf) eqn:Hc; try contradiction.
    rewrite lookup_acked in Hout.
    destruct (prim_eq_dec c c0) as [->|]; [|contradiction].
    destruct (prim_eq_dec a k) as [->|]; [|contradiction].
    exists w, msgBuf. auto using classify_ack.
  - rewrite step_close in Hout.
    destruct (bound_of (gone w s) w);
      [rewrite lookup_unregistered in Hout|]; contradiction.
  - contradiction.
  - rewrite step_retry in Hout. contradiction.
  - rewrite step_send, lookup_push_wire, lookup_enqueue in Hout.
    destruct (prim_eq_dec c aideId); [|contradiction].
    destruct (prim_eq_dec a (PStr uuid)); [discriminate|contradiction].
  - rewrite step_fetch, lookup_refreshed in Hout. contradiction.
  - destruct (step_mqtt s topic message now now' pf api uuid ts)
      as [H|[H|(c0 & d & H)]]; rewrite H in Hout.
    + contradiction.
    + rewrite lookup_refreshed in Hout. contradiction.
    + rewrite step_send, lookup_push_wire, lookup_enqueue in Hout.
      destruct (prim_eq_dec c c0);
        [destruct (prim_eq_dec a (PStr uuid)); [discriminate|]|];
        rewrite lookup_refreshed in Hout; contradiction.
Qed.

(** *** Every message of a session was enqueued for its caregiver *)

Lemma map_get_In {V} (m : jsmap V) k v : map_get m k = Some v -> In (k, v) m.
Proof.
  induction m as [|[k0 v0] r IH]; simpl; [discriminate|].
  destruct (prim_eq_dec k k0) as [->|]; [intros [= ->]; auto | auto].
Qed.

Lemma queue_of_In s c a p :
  In (a, p) (queue_of s c) ->
  exists q, In (c, q) (pendingAlerts s) /\ In (a, p) q.
Proof.
  unfold queue_of. destruct (map_get (pendingAlerts s) c) as [q|] eqn:E.
  - intros H. exists q. split; [now apply map_get_In | assumption].
  - intros [].
Qed.

Lemma sessions_In s c w :
  In w (sessions s c) -> exists st, In (c, st) (wsClients s) /\ In w st.
Proof.
  unfold sessions. destruct (map_get (wsClients s) c) as [st|] eqn:E.
  - intros H. exists st. split; [now apply map_get_In | assumption].
  - intros [].
Qed.

Lemma sendable_alloc s w : sendable s w = true -> (w < List.length (sockets s))%nat.
Proof.
  unfold sendable. destruct (nth_error (sockets s) w) eqn:E; [|discriminate].
  intros _. apply nth_error_Some. congruence.
Qed.

Lemma bound_alloc s w c : bound_of s w = Some c -> (w < List.length (sockets s))%nat.
Proof.
  unfold bound_of. destruct (nth_error (sockets s) w) eqn:E; [|discriminate].
  intros _. apply nth_error_Some. congruence.
Qed.

Lemma broadcast_msgs_In s l p w m :
  In (w, m) (broadcast_msgs s l p) -> In w l /\ m = p /\ sendable s w = true.
Proof.
  unfold broadcast_msgs. rewrite in_map_iff.
  intros (w' & [= -> ->] & H). apply filter_In in H.
  destruct H. auto.
Qed.

Lemma flush_msgs_In s w0 l w m :
  In (w, m) (flush_msgs s w0 l) -> w = w0 /\ In m l /\ sendable s w0 = true.
Proof.
  unfold flush_msgs. destruct (sendable s w0); [|intros []].
  rewrite in_map_iff. intros (p & [= -> ->] & H). auto.
Qed.

Lemma sweep_msgs_In s w m :
  In (w, m) (sweep_msgs s) ->
  exists c st a,
    In (c, st) (wsClients s) /\ In w st /\ In (a, m) (queue_of s c) /\
    sendable s w = true.
Proof.
  unfold sweep_msgs. rewrite in_flat_map. intros ([c st] & Hc & H).
  rewrite in_flat_map in H. destruct H as (p & Hp & H).
  apply broadcast_msgs_In in H as (Hw & -> & Hs).
  unfold map_values in Hp. rewrite in_map_iff in Hp.
  destruct Hp as ([a p'] & Hp' & Ha). simpl in Hp'. subst p'.
  exists c, st, a. auto.
Qed.

Lemma nth_error_update_nth {A} (f : A -> A) (l : list A) n m :
  nth_error (update_nth n f l) m
  = if Nat.eqb n m then option_map f (nth_error l m) else nth_error l m.
Proof.
  revert n m. induction l as [|x r IH]; intros [|n] [|m]; simpl; try reflexivity.
  - now destruct (Nat.eqb n m).
  - apply IH.
Qed.

Lemma length_update_nth {A} (f : A -> A) (l : list A) n :
  List.length (update_nth n f l) = List.length l.
Proof.
  revert n. induction l as [|x r IH]; intros [|n]; simpl; auto.
Qed.

(** Updating a socket without touching [bound] keeps every binding. *)
Lemma bound_of_update s w f w' :
  (forall k, bound (f k) = bound k) ->
  bound_of (with_sockets (update_nth w f) s) w' = bound_of s w'.
Proof.
  intros Hf. unfold bound_of; simpl. rewrite nth_error_update_nth.
  destruct (Nat.eqb w w'); [|reflexivity].
  destruct (nth_error (sockets s) w'); simpl; auto.
Qed.

Lemma bound_of_accepted rs throws s w :
  bound_of (accepted rs throws s) w = bound_of s w.
Proof.
  unfold bound_of, accepted; simpl.
  destruct (Nat.lt_ge_cases w (List.length (sockets s))) as [H|H].
  - now rewrite nth_error_app1.
  - rewrite nth_error_app2 by assumption.
    replace (nth_error (sockets s) w) with (@None socket)
      by (symmetry; now apply nth_error_None).
    destruct (w - List.length (sockets s))%nat as [|[|n]]; reflexivity.
Qed.

(** A change of the sockets that keeps every binding and frees no slot. *)
Lemma Inv_sockets s f :
  (forall w, bound_of (with_sockets f s) w = bound_of s w) ->
  (List.length (sockets s) <= List.length (f (sockets s)))%nat ->
  Inv s -> Inv (with_sockets f s).
Proof.
  intros Hb Hl [I1 I2 I3 I4]. split; simpl.
  - exact I1.
  - intros c st w H1 H2. rewrite Hb. eauto.
  - intros w m c H1 H2. rewrite Hb in H2. eauto.
  - intros w m H. specialize (I4 w m H). lia.
Qed.

Lemma Inv_push_wire s l :
  (forall w m, In (w, m) l ->
     (w < List.length (sockets s))%nat /\
     forall c, bound_of s w = Some c -> In (c, m) (enqueued s)) ->
  Inv s -> Inv (push_wire l s).
Proof.
  intros Hl [I1 I2 I3 I4]. split; simpl.
  - exact I1.
  - exact I2.
  - intros w m c H Hb. apply in_app_iff in H as [H|H]; [eauto|].
    now apply (Hl w m H).
  - intros w m H. apply in_app_iff in H as [H|H]; [eauto|].
    now apply (Hl w m H).
Qed.

Lemma Inv_enqueue c a p s : Inv s -> Inv (enqueue c a p s).
Proof.
  intros [I1 I2 I3 I4]. split; simpl.
  - intros c' q a' p' Hq Hp. rewrite in_app_iff.
    apply map_set_In in Hq as [[= -> ->]|Hq].
    + apply map_set_In in Hp as [[= -> ->]|Hp]; [right; simpl; auto|].
      left. apply queue_of_In in Hp as (q & Hq & Hp). eauto.
    + left. eauto.
  - exact I2.
  - intros w m c' H Hb. rewrite in_app_iff. left. eauto.
  - exact I4.
Qed.

Lemma Inv_acked c k s : Inv s -> Inv (acked c k s).
Proof.
  intros I. unfold acked.
  destruct (map_get (pendingAlerts s) c) as [q|] eqn:E; [|assumption].
  destruct (map_has q k); [|assumption].
  destruct I as [I1 I2 I3 I4]. split; simpl; auto.
  intros c' q' a p Hq Hp.
  apply map_set_In in Hq as [[= -> ->]|Hq]; [|eauto].
  apply map_delete_In in Hp. apply map_get_In in E. eauto.
Qed.

Lemma Inv_unregistered w c s : Inv s -> Inv (unregistered w c s).
Proof.
  intros I. unfold unregistered.
  destruct (map_get (wsClients s) c) as [st|] eqn:E; [|assumption].
  destruct I as [I1 I2 I3 I4]. apply map_get_In in E.
  assert (H : forall c' st' w', In (c', st') (map_set (wsClients s) c (set_delete st w)) ->
            In w' st' -> bound_of s w' = Some c').
  { intros c' st' w' Hc Hw.
    apply map_set_In in Hc as [[= -> ->]|Hc]; [|eauto].
    apply set_delete_In in Hw. eauto. }
  split; simpl; auto.
  intros c' st' w' Hc Hw.
  destruct (Nat.eqb (List.length (set_delete st w)) 0);
    [apply map_delete_In in Hc|]; eauto.
Qed.

Lemma Inv_refreshed now now' pf s : Inv s -> Inv (refreshed now now' pf s).
Proof.
  intros I. unfold refreshed. destruct (cache_fresh s now); [assumption|].
  destruct (API_BASE =? ""); [assumption|].
  destruct pf; try assumption. destruct I as [I1 I2 I3 I4].
  split; simpl; assumption.
Qed.

Lemma bound_of_registered w c s w' :
  (w < List.length (sockets s))%nat ->
  bound_of (registered w c s) w' = if Nat.eqb w w' then Some c else bound_of s w'.
Proof.
  intros Hw. unfold bound_of, registered; simpl. rewrite nth_error_update_nth.
  destruct (Nat.eqb_spec w w') as [<-|]; [|reflexivity].
  destruct (nth_error (sockets s) w) eqn:E; [reflexivity|].
  apply nth_error_None in E. lia.
Qed.

Lemma Inv_registered w c s :
  (w < List.length (sockets s))%nat ->
  bound_of s w = None ->
  (forall m, ~ In (w, m) (wire s)) ->
  Inv s -> Inv (registered w c s).
Proof.
  intros Hw Hb Hfresh [I1 I2 I3 I4]. split.
  - intros c' q a p Hq Hp. simpl in Hq |- *.
    destruct (map_has (pendingAlerts s) c); [eauto|].
    apply map_set_In in Hq as [[= -> ->]|Hq]; [destruct Hp | eauto].
  - intros c' st w' Hc Hin. rewrite bound_of_registered by assumption.
    destruct (Nat.eqb_spec w w') as [<-|Hne].
    + simpl in Hc. apply map_set_In in Hc as [[= -> ->]|Hc]; [reflexivity|].
      rewrite (I2 _ _ _ Hc Hin) in Hb. discriminate.
    + simpl in Hc. apply map_set_In in Hc as [[= -> ->]|Hc]; [|eauto].
      apply set_add_In in Hin as [->|Hin]; [contradiction|].
      apply sessions_In in Hin as (st & Hst & Hin). eauto.
  - intros w' m c' Hin Hb'. rewrite bound_of_registered in Hb' by assumption.
    simpl in Hin |- *. apply in_app_iff in Hin as [Hin|Hin].
    + destruct (Nat.eqb_spec w w') as [<-|Hne]; [|eauto].
      now apply Hfresh in Hin.
    + apply flush_msgs_In in Hin as (-> & Hm & _).
      rewrite Nat.eqb_refl in Hb'. injection Hb' as <-.
      unfold map_values in Hm. apply in_map_iff in Hm as ([a p] & Hp & Ha).
      simpl in Hp. subst p.
      apply queue_of_In in Ha as (q & Hq & Ha). eauto.
  - intros w' m Hin. simpl in Hin |- *. rewrite length_update_nth.
    apply in_app_iff in Hin as [Hin|Hin]; [eauto|].
    apply flush_msgs_In in Hin as (-> & _). assumption.
Qed.

Lemma Inv_accepted rs throws s : Inv s -> Inv (accepted rs throws s).
Proof.
  apply Inv_sockets.
  - apply bound_of_accepted.
  - rewrite length_app. lia.
Qed.

Lemma fresh_unbound s : bound_of s (List.length (sockets s)) = None.
Proof.
  destruct (bound_of s (List.length (sockets s))) eqn:E; [|reflexivity].
  apply bound_alloc in E. lia.
Qed.

Lemma Inv_step s e : Inv s -> Inv (step s e).
Proof.
  intros I. destruct e.
  - destruct url as [|req];
      [rewrite step_connection_throws; now apply Inv_accepted|].
    rewrite step_connection.
    pose proof (Inv_accepted rs throws s I) as I0.
    assert (Hb : bound_of (accepted rs throws s) (List.length (sockets s)) = None)
      by (rewrite bound_of_accepted; apply fresh_unbound).
    assert (Hl : (List.length (sockets s)
                  < List.length (sockets (accepted rs throws s)))%nat)
      by (simpl; rewrite length_app; simpl; lia).
    destruct (verdict req auth) as [obj|].
    + unfold rejected_with, closed. apply Inv_sockets.
      * intros w. now apply bound_of_update.
      * simpl. now rewrite length_update_nth.
      * apply Inv_push_wire; [|assumption].
        unfold sent. intros w m H.
        destruct (sendable _ _); [|destruct H].
        destruct H as [[= <- <-]|[]]. split; [assumption|].
        intros c Hc. congruence.
    + apply Inv_registered; try assumption.
      intros m Hm. apply (inv_alloc _ I) in Hm. lia.
  - rewrite step_message. destruct (bound_of s w) as [c|] eqn:Hb; [|assumption].
    destruct (classify msgBuf); [now apply Inv_acked| |assumption].
    apply Inv_push_wire; [|assumption].
    intros w' m H. apply flush_msgs_In in H as (-> & Hm & Hs).
    split; [now apply sendable_alloc|].
    intros c' Hc'. rewrite Hb in Hc'. injection Hc' as <-.
    unfold map_values in Hm. apply in_map_iff in Hm as ([a p] & Hp & Ha).
    simpl in Hp. subst p. apply queue_of_In in Ha as (q & Hq & Ha).
    eapply inv_pending; eauto.
  - rewrite step_close.
    assert (I0 : Inv (gone w s)).
    { apply Inv_sockets; [|simpl; now rewrite length_update_nth|assumption].
      intros w'. now apply bound_of_update. }
    destruct (bound_of (gone w s) w); [now apply Inv_unregistered|assumption].
  - unfold step, handle, modify; simpl.
    apply Inv_sockets; [|simpl; now rewrite length_update_nth|assumption].
    intros w'. now apply bound_of_update.
  - rewrite step_retry. apply Inv_push_wire; [|assumption].
    intros w m H. apply sweep_msgs_In in H as (c & st & a & Hc & Hw & Ha & Hs).
    split; [now apply sendable_alloc|].
    intros c' Hc'. rewrite (inv_sessions _ I _ _ _ Hc Hw) in Hc'.
    injection Hc' as <-. apply queue_of_In in Ha as (q & Hq & Ha).
    eapply inv_pending; eauto.
  - rewrite step_send. apply Inv_push_wire; [|now apply Inv_enqueue].
    intros w m H. apply broadcast_msgs_In in H as (Hw & -> & Hs).
    split; [now apply sendable_alloc|].
    intros c Hc. simpl in Hc |- *. rewrite in_app_iff.
    apply sessions_In in Hw as (st & Hst & Hw).
    change (bound_of (enqueue aideId uuid (mk_payload data uuid ts) s) w)
      with (bound_of s w) in Hc.
    rewrite (inv_sessions _ I _ _ _ Hst Hw) in Hc. injection Hc as <-.
    right; simpl; auto.
  - rewrite step_fetch. now apply Inv_refreshed.
  - destruct (step_mqtt s topic message now now' pf api uuid ts)
      as [H|[H|(c & d & H)]]; rewrite H; clear H.
    + assumption.
    + now apply Inv_refreshed.
    + pose proof (Inv_refreshed now now' pf s I) as I1.
      set (s1 := refreshed now now' pf s) in *.
      rewrite step_send. apply Inv_push_wire; [|now apply Inv_enqueue].
      intros w m H. apply broadcast_msgs_In in H as (Hw & -> & Hs).
      split; [now apply sendable_alloc|].
      intros c' Hc. simpl in Hc |- *. rewrite in_app_iff.
      apply sessions_In in Hw as (st & Hst & Hw).
      change (bound_of (enqueue c uuid (mk_payload d uuid ts) s1) w)
        with (bound_of s1 w) in Hc.
      rewrite (inv_sessions _ I1 _ _ _ Hst Hw) in Hc. injection Hc as <-.
      right; simpl; auto.
Qed.

Lemma Inv_init : Inv init.
Proof. split; simpl; intros; contradiction. Qed.

Lemma Inv_run s evs : Inv s -> Inv (run s evs).
Proof.
  revert s. induction evs as [|e r IH]; intros s I; simpl; [assumption|].
  apply IH, Inv_step, I.
Qed.

Lemma sendToAide_pending l c a p s :
  pending_lookup (push_wire l (enqueue c a p s)) c (PStr a) = Some p.
Proof.
  rewrite lookup_push_wire, lookup_enqueue.
  destruct (prim_eq_dec c c); [|congruence].
  destruct (prim_eq_dec (PStr a) (PStr a)); congruence.
Qed.

(** *** What a connection leaves behind *)

Lemma nth_error_fresh (l : list socket) k :
  nth_error (l ++ [k]) (List.length l) = Some k.
Proof. rewrite nth_error_app2 by lia. now rewrite Nat.sub_diag. Qed.

Lemma sendable_accepted rs throws s :
  sendable (accepted rs throws s) (List.length (sockets s))
  = (rs =? 1)%Z && negb throws.
Proof. unfold sendable, accepted; simpl. now rewrite nth_error_fresh. Qed.

Lemma handle_connection_ok s rs throws req auth :
  fst (handle (EvConnection rs throws (URLParsed req) auth) s) = Ok tt.
Proof. unfold handle, bind, accept. now rewrite on_connection_run. Qed.

Lemma rejected_facts s rs throws obj :
  let w := List.length (sockets s) in
  let s' := rejected_with w obj (accepted rs throws s) in
  wsClients s' = wsClients s /\
  pendingAlerts s' = pendingAlerts s /\
  wire s' = wire s ++ delivered rs throws w [obj] /\
  bound_of s' w = None /\
  close_requested s' w = true.
Proof.
  intros w s'. subst w s'. repeat split.
  - unfold rejected_with, closed, sent, delivered; simpl.
    rewrite sendable_accepted. now destruct (_ && _).
  - unfold rejected_with, closed. rewrite bound_of_update by reflexivity.
    change (bound_of (push_wire _ ?x)) with (bound_of x).
    rewrite bound_of_accepted. apply fresh_unbound.
  - unfold close_requested, rejected_with, closed; simpl.
    now rewrite nth_error_update_nth, Nat.eqb_refl, nth_error_fresh.
Qed.

Lemma registered_facts s rs throws c :
  let w := List.length (sockets s) in
  let s' := registered w c (accepted rs throws s) in
  sessions s' c = set_add (sessions s c) w /\
  bound_of s' w = Some c /\
  wire s' = wire s ++ delivered rs throws w (map_values (queue_of s c)) /\
  (forall c' a, pending_lookup s' c' a = pending_lookup s c' a).
Proof.
  intros w s'. subst w s'. repeat split.
  - unfold sessions at 1, registered; simpl. rewrite map_get_set.
    now destruct (prim_eq_dec c c).
  - rewrite bound_of_registered, Nat.eqb_refl; [reflexivity|].
    simpl. rewrite length_app. simpl. lia.
  - unfold registered, flush_msgs, delivered; simpl.
    now rewrite sendable_accepted.
  - intros c' a. now rewrite lookup_registered.
Qed.

Lemma verdict_accepts req r id pwd fields :
  q_id req = Some id -> id <> "" ->
  q_pwd req = Some pwd -> pwd <> "" ->
  API_KEY = "" \/ q_token req = Some API_KEY ->
  ok r = true ->
  json_body r = Some (JObj fields) ->
  obj_get fields "mot_de_passe" = JP (PStr pwd) ->
  verdict req (FetchResolves r) = None /\ caregiver_of req = PStr id.
Proof.
  intros Hid Hid' Hpwd Hpwd' Htok Hok Hbody Hmdp.
  unfold verdict, caregiver_of, param_falsy, token_mismatch.
  rewrite Hid, Hpwd, Hok, Hbody, Hmdp.
  apply String.eqb_neq in Hid', Hpwd'. rewrite Hid', Hpwd'. simpl.
  rewrite String.eqb_refl.
  destruct Htok as [-> | ->]; [now simpl|].
  rewrite String.eqb_refl. now rewrite andb_false_r.
Qed.

Lemma map_get_values {V} (m : jsmap V) k v :
  map_get m k = Some v -> In v (map_values m).
Proof.
  intros H. apply map_get_In in H. unfold map_values.
  apply in_map_iff. now exists (k, v).
Qed.

Lemma token_check_fails req :
  API_KEY <> "" -> q_token req <> Some API_KEY ->
  negb (API_KEY =? "") && token_mismatch (q_token req) = true.
Proof.
  intros Hk Ht. apply String.eqb_neq in Hk. rewrite Hk. simpl.
  unfold token_mismatch. destruct (q_token req) as [t|]; [|reflexivity].
  destruct (String.eqb_spec t API_KEY); [congruence|reflexivity].
Qed.

Lemma verdict_rejects req auth :
  handshake_rejected req auth -> exists obj, verdict req auth = Some obj.
Proof.
  unfold handshake_rejected, verdict.
  intros H.
  destruct (param_falsy (q_id req)); [eauto|].
  destruct (param_falsy (q_pwd req)); [eauto|].
  destruct (negb (API_KEY =? "") && token_mismatch (q_token req)) eqn:Et;
    [eauto|].
  destruct H as [H|[H|[[Hk Ht]|[(r & -> & Hok)|[(r & data & -> & Hb & Hp)|
                 [->|(r & -> & Hb)]]]]]]; try discriminate.
  - rewrite token_check_fails in Et by assumption. discriminate.
  - rewrite Hok. simpl. eauto.
  - destruct (ok r); simpl; [|eauto]. rewrite Hb.
    destruct data as [[]| |fields]; simpl in Hp; eauto.
    rewrite Hp. eauto.
  - eauto.
  - destruct (ok r); simpl; [|eauto]. rewrite Hb. eauto.
Qed.

Lemma sweep_msgs_complete s c w a p :
  In w (sessions s c) -> sendable s w = true ->
  pending_lookup s c a = Some p ->
  In (w, p) (sweep_msgs s).
Proof.
  intros Hw Hs Hp. apply sessions_In in Hw as (st & Hst & Hw).
  unfold sweep_msgs. apply in_flat_map. exists (c, st). split; [assumption|].
  apply in_flat_map. exists p. split; [now apply map_get_values in Hp|].
  unfold broadcast_msgs. apply (in_map (fun w0 => (w0, p))), filter_In. auto.
Qed.

Lemma stale_not_fresh s now :
  (PATIENTS_CACHE_TTL_MS < now - patientsCacheTs s)%Z -> cache_fresh s now = false.
Proof.
  intros H. unfold cache_fresh.
  replace (now - patientsCacheTs s <? PATIENTS_CACHE_TTL_MS)%Z with false
    by (symmetry; apply Z.ltb_ge; lia).
  apply andb_false_r.
Qed.

(* ================================================================== *)
(** ** The claims *)

(** C1.  Every call [sendToAide(aideId, data)] first stores a fresh alert,
    the data extended with the generated [alertId] and the timestamp, in the
    queue of [aideId], whatever the connectivity.  It returns [false] when no
    session is registered for [aideId] and [true] when at least one is, and
    in that case the stored payload itself goes to every registered session
    (through [wsSendSafe], so onto the wire of every session whose socket is
    open). *)
Theorem C1_sendToAide_stores_then_broadcasts
    (s : state) (aideId : prim) (data : jsobj) (uuid ts : string) :
  let payload := mk_payload data uuid ts in
  let r := sendToAide aideId data uuid ts s in
  obj_get payload "alertId" = JP (PStr uuid) /\
  obj_get payload "timestamp" = JP (PStr ts) /\
  pending_lookup (snd r) aideId (PStr uuid) = Some payload /\
  match sessions s aideId with
  | [] => fst r = Ok false
  | _ :: _ => fst r = Ok true
  end /\
  wsClients (snd r) = wsClients s /\
  wire (snd r)
  = wire s ++ map (fun w => (w, payload)) (filter (sendable s) (sessions s aideId)).
Proof.
  intros payload r. subst r. rewrite sendToAide_run. fold payload.
  cbn [fst snd]. repeat split.
  - unfold payload, mk_payload. now rewrite !obj_get_set.
  - unfold payload, mk_payload. now rewrite obj_get_set.
  - apply sendToAide_pending.
  - now destruct (sessions s aideId).
Qed.

(** C2.  Whatever the state and whatever the event (a dispatch, a
    connection with its flush, a retry sweep, a resend request, a close, a
    routed MQTT message), an alert that is pending before the event and gone
    after it was removed by an [ack] message carrying exactly its [alertId],
    received on a socket of its caregiver.  So an alert stored by
    [sendToAide], delivered or not, stays pending along every run that has
    no [ack] for its id. *)
Theorem C2_only_an_ack_removes_a_pending_alert :
  (forall s e c a,
     pending_lookup s c a <> None ->
     pending_lookup (step s e) c a = None ->
     exists w msgBuf,
       e = EvWsMessage w msgBuf /\ bound_of s w = Some c /\
       ack_message msgBuf a) /\
  (forall s c data uuid ts evs,
     (forall w msgBuf,
        In (EvWsMessage w msgBuf) evs -> ~ ack_message msgBuf (PStr uuid)) ->
     pending_lookup (run (snd (sendToAide c data uuid ts s)) evs) c (PStr uuid)
     <> None).
Proof.
  split; [apply step_keeps_pending|].
  intros s c data uuid ts evs.
  assert (H0 : pending_lookup (snd (sendToAide c data uuid ts s)) c (PStr uuid)
               <> None).
  { rewrite sendToAide_run. cbn [snd]. rewrite sendToAide_pending.
    discriminate. }
  revert H0. generalize (snd (sendToAide c data uuid ts s)) as s1.
  induction evs as [|e r IH]; intros s1 H0 Hno; simpl; [assumption|].
  apply IH.
  - intros Hgone.
    destruct (step_keeps_pending s1 e c (PStr uuid) H0 Hgone)
      as (w & m & -> & _ & Hack).
    apply (Hno w m); [left; reflexivity | assumption].
  - intros w m Hin. apply (Hno w). now right.
Qed.

(** C3.  A handshake that supplies [id] and [pwd], carries the shared secret
    when one is configured, gets an OK answer from the credential lookup and
    a stored password equal to [pwd], ends with the socket registered under
    the operator id, after which every alert pending for that id has been
    sent over the new socket, in queue order and leaving the queue as it
    was.  In particular an alert dispatched before the operator connected is
    on the wire of the new socket right after the handshake. *)
Theorem C3_handshake_registers_then_flushes
    (s : state) (rs : Z) (throws : bool) (req : request) (r : response)
    (id pwd : string) (fields : list (string * jsval)) :
  q_id req = Some id -> id <> "" ->
  q_pwd req = Some pwd -> pwd <> "" ->
  API_KEY = "" \/ q_token req = Some API_KEY ->
  ok r = true ->
  json_body r = Some (JObj fields) ->
  obj_get fields "mot_de_passe" = JP (PStr pwd) ->
  let w := List.length (sockets s) in
  let e := EvConnection rs throws (URLParsed req) (FetchResolves r) in
  let s' := step s e in
  fst (handle e s) = Ok tt /\
  In w (sessions s' (PStr id)) /\
  bound_of s' w = Some (PStr id) /\
  wire s' = wire s ++ delivered rs throws w (map_values (queue_of s (PStr id))) /\
  (forall c a, pending_lookup s' c a = pending_lookup s c a) /\
  (rs = 1%Z -> throws = false ->
   forall a p, pending_lookup s (PStr id) a = Some p -> In (w, p) (wire s')) /\
  (rs = 1%Z -> throws = false ->
   forall s0 data uuid ts,
     s = snd (sendToAide (PStr id) data uuid ts s0) ->
     In (w, mk_payload data uuid ts) (wire s')).
Proof.
  intros Hid Hid' Hpwd Hpwd' Htok Hok Hbody Hmdp w e s'.
  destruct (verdict_accepts req r id pwd fields) as [Hv Hc]; try assumption.
  assert (Es : s' = registered w (PStr id) (accepted rs throws s)).
  { subst s' e. now rewrite step_connection, Hv, Hc. }
  destruct (registered_facts s rs throws (PStr id)) as (F1 & F2 & F3 & F4).
  fold w in F1, F2, F3, F4. rewrite <- Es in F1, F2, F3, F4.
  assert (Hflush : rs = 1%Z -> throws = false ->
            forall a p, pending_lookup s (PStr id) a = Some p ->
                        In (w, p) (wire s')).
  { intros -> -> a p Hp. rewrite F3. apply in_or_app. right.
    unfold delivered; simpl. apply in_map. now apply map_get_values in Hp. }
  repeat split; try assumption.
  - apply handle_connection_ok.
  - rewrite F1. apply set_add_In. now left.
  - intros Hrs Hth s0 data uuid ts ->.
    apply (Hflush Hrs Hth (PStr uuid)).
    rewrite sendToAide_run. cbn [snd]. apply sendToAide_pending.
Qed.

(** C7 (the code departs from the claim).  On a connection whose request
    target is no URL ([//], say, which carries no operator id), [new URL]
    throws at the head of the handler, before the id is looked at and
    outside every [try]: the handler ends with an uncaught [TypeError],
    nothing is sent to the socket, so no missing-id error, [close] is not
    called, and the socket stays as it was accepted, bound to nobody. *)
Theorem C7_unparsable_url_escapes_before_the_id_check
    (s : state) (rs : Z) (throws : bool) (auth : fetch_result) :
  let w := List.length (sockets s) in
  let e := EvConnection rs throws URLThrows auth in
  fst (handle e s) = Throw TypeError /\
  wire (step s e) = wire s /\
  close_requested (step s e) w = false /\
  nth_error (sockets (step s e)) w = Some (mkSocket rs throws false None).
Proof.
  intros w e. subst w e. rewrite step_connection_throws.
  split; [reflexivity|]. split; [reflexivity|].
  unfold close_requested, accepted; simpl. rewrite nth_error_fresh.
  split; reflexivity.
Qed.

(** C10.  A connection that is turned down, because its request URL does
    not parse or for a missing id, a missing password, a token that does not
    match, a credential lookup that is not OK, a wrong password or an
    exception during authentication, leaves the session registry and the
    pending-alert store exactly as they were: no session is registered, no
    caregiver key is created or changed.  When the URL parsed, the handler
    also completes and [close] is called on the socket. *)
Theorem C10_rejected_handshake_changes_nothing
    (s : state) (rs : Z) (throws : bool) (url : url_result)
    (auth : fetch_result) :
  turned_down url auth ->
  let e := EvConnection rs throws url auth in
  wsClients (step s e) = wsClients s /\
  pendingAlerts (step s e) = pendingAlerts s /\
  bound_of (step s e) (List.length (sockets s)) = None /\
  (forall req, url = URLParsed req ->
     fst (handle e s) = Ok tt /\
     close_requested (step s e) (List.length (sockets s)) = true).
Proof.
  intros H e. subst e. destruct url as [|req]; simpl in H.
  - rewrite step_connection_throws, bound_of_accepted.
    repeat split; [apply fresh_unbound | discriminate | discriminate].
  - destruct (verdict_rejects req auth H) as [obj Hv].
    rewrite step_connection, Hv.
    destruct (rejected_facts s rs throws obj) as (F1 & F2 & _ & F4 & F5).
    repeat split; try assumption. apply handle_connection_ok.
Qed.

(** C8.  For every caregiver and every alert id, a second acknowledgment of
    the same id leaves the store as the first one left it, with no entry for
    that id; and the acknowledgment of an id that is not in the store
    completes normally and changes nothing. *)
Theorem C8_acknowledgment_is_idempotent
    (s : state) (w : ws_id) (c a : prim) (m1 m2 : string) :
  ack_message m1 a -> ack_message m2 a -> truthy a = true ->
  let r1 := on_ws_message w c m1 s in
  let r2 := on_ws_message w c m2 (snd r1) in
  fst r1 = Ok tt /\ fst r2 = Ok tt /\
  pending_lookup (snd r1) c a = None /\
  snd r2 = snd r1 /\
  (pending_lookup s c a = None -> snd r1 = s).
Proof.
  intros H1 H2 Ht r1 r2. subst r1 r2.
  rewrite !on_ws_message_run.
  rewrite (ack_classify m1 a H1 Ht), (ack_classify m2 a H2 Ht). cbn [fst snd].
  assert (Hgone : pending_lookup (acked c a s) c a = None).
  { rewrite lookup_acked. destruct (prim_eq_dec c c); [|congruence].
    destruct (prim_eq_dec a a); congruence. }
  assert (Hnoop : forall s0, pending_lookup s0 c a = None -> acked c a s0 = s0).
  { intros s0. unfold pending_lookup, queue_of, acked, map_has.
    destruct (map_get (pendingAlerts s0) c) as [q|]; [|reflexivity].
    now intros ->. }
  repeat split; auto.
Qed.

(** C6.  In every tick of the retry sweep, when the send to a session of
    one caregiver raises an exception, the tick still ends normally and
    still re-broadcasts, to every session of every caregiver of the registry
    whose socket takes the message, every alert pending for that
    caregiver. *)
Theorem C6_sweep_survives_a_failing_send
    (s : state) (c0 : prim) (w0 : ws_id) (k0 : socket) :
  In w0 (sessions s c0) ->
  nth_error (sockets s) w0 = Some k0 ->
  readyState k0 = 1%Z -> send_throws k0 = true ->
  let r := retryTimer s in
  (forall p0, fst (ws_send w0 p0 s) = Throw SendError) /\
  fst r = Ok tt /\
  wire (snd r) = wire s ++ sweep_msgs s /\
  (forall c w a p,
     In w (sessions s c) -> sendable s w = true ->
     pending_lookup s c a = Some p ->
     In (w, p) (sweep_msgs s)).
Proof.
  intros Hw0 Hk0 Hrs Hth r. subst r. rewrite retryTimer_run. cbn [fst snd].
  repeat split.
  - intros p0. unfold ws_send. now rewrite Hk0, Hth.
  - apply sweep_msgs_complete.
Qed.

(** C9.  After every sequence of events, a message on the wire of a socket
    registered under caregiver [B] is a payload that [sendToAide] stored for
    [B].  So an alert enqueued for [A] and not for [B] was never sent to a
    session of [B]. *)
Theorem C9_no_cross_caregiver_delivery
    (evs : list event) (w : ws_id) (B : prim) (m : jsobj) :
  let s := run init evs in
  In w (sessions s B) \/ bound_of s w = Some B ->
  (In (w, m) (wire s) -> In (B, m) (enqueued s)) /\
  (forall A, In (A, m) (enqueued s) -> ~ In (B, m) (enqueued s) ->
             ~ In (w, m) (wire s)).
Proof.
  intros s Hreg.
  assert (I : Inv s) by (apply Inv_run, Inv_init).
  assert (Hb : bound_of s w = Some B).
  { destruct Hreg as [Hin|Hb]; [|assumption].
    apply sessions_In in Hin as (st & Hst & Hin).
    eapply inv_sessions; eauto. }
  assert (Hw : In (w, m) (wire s) -> In (B, m) (enqueued s))
    by (intros Hin; eapply inv_wire; eauto).
  split; [assumption|]. intros A _ Hn Hin. auto.
Qed.

(** C5 (the code departs from the claim).  A message on the [delivery] topic
    whose payload [JSON.parse] rejects makes the router's handler end with
    an uncaught [SyntaxError]: the call to [JSON.parse] is outside every
    [try]. *)
Theorem C5_delivery_payload_not_json_escapes
    (message : string) (now now' : Z) (pf : patients_fetch)
    (api : fetch_result) (uuid ts : string) (s : state) :
  JSON_parse message = None ->
  fst (on_mqtt_message "alert/box/P1/delivery" message now now' pf api uuid ts s)
  = Throw SyntaxError.
Proof.
  intros H. rewrite on_mqtt_message_delivery by reflexivity. now rewrite H.
Qed.

(** C4 (amended).  A read of the directory made more than the TTL after the
    last successful fetch, whose refetch fails, returns the empty array, and
    [getAideForPatient] then returns [null]; the stale mapping stays in the
    cache, untouched, and is not returned. *)
Theorem C4_failed_refetch_returns_empty
    (s : state) (now now' : Z) (pf : patients_fetch) (patientId : string) :
  API_BASE <> "" ->
  (PATIENTS_CACHE_TTL_MS < now - patientsCacheTs s)%Z ->
  pf = PFRejects \/ pf = PFJsonRejects ->
  fetchAllPatients now now' pf s = (Ok (DirArray []), s) /\
  getAideForPatient patientId now now' pf s = (Ok PNull, s).
Proof.
  intros Hb Hstale Hpf. apply String.eqb_neq in Hb.
  apply stale_not_fresh in Hstale.
  assert (E : fetchAllPatients now now' pf s = (Ok (DirArray []), s)).
  { rewrite fetchAllPatients_run. unfold fetched, refreshed.
    rewrite Hstale, Hb. now destruct Hpf as [-> | ->]. }
  split; [assumption|].
  unfold getAideForPatient, try_catch. unfold bind at 1. now rewrite E.
Qed.

(* ================================================================== *)
(** ** Further properties *)

(** *** The shape of the registry *)

Lemma map_get_None_keys {V} (m : jsmap V) k :
  map_get m k = None <-> ~ In k (map fst m).
Proof.
  induction m as [|[k0 v0] r IH]; simpl.
  - split; [intros _ [] | reflexivity].
  - destruct (prim_eq_dec k k0) as [->|Hk].
    + split; [discriminate | intros H; exfalso; auto].
    + rewrite IH. split.
      * intros H [E|H']; [congruence | auto].
      * intros H H'. apply H. now right.
Qed.

Lemma map_get_Some_keys {V} (m : jsmap V) k v :
  map_get m k = Some v -> In k (map fst m).
Proof.
  intros H. apply map_get_In in H. apply in_map_iff. now exists (k, v).
Qed.

Lemma map_keys_set {V} (m : jsmap V) k v :
  map fst (map_set m k v)
  = if map_has m k then map fst m else map fst m ++ [k].
Proof.
  unfold map_has. induction m as [|[k0 v0] r IH]; simpl; [reflexivity|].
  destruct (prim_eq_dec k k0) as [->|Hk]; simpl; [reflexivity|].
  rewrite IH. now destruct (map_get r k).
Qed.

Lemma NoDup_keys_set {V} (m : jsmap V) k v :
  NoDup (map fst m) -> NoDup (map fst (map_set m k v)).
Proof.
  intros H. rewrite map_keys_set. unfold map_has.
  destruct (map_get m k) eqn:E; [assumption|].
  apply map_get_None_keys in E.
  apply NoDup_app; [assumption | repeat constructor; intros [] |].
  intros x Hx [<-|[]]. contradiction.
Qed.

Lemma map_delete_In_neq {V} (m : jsmap V) k k' v' :
  In (k', v') (map_delete m k) -> k' <> k /\ In (k', v') m.
Proof.
  induction m as [|[k0 v0] r IH]; simpl; [intros []|].
  destruct (prim_eq_dec k k0) as [->|Hk]; simpl.
  - intros H. destruct (IH H). auto.
  - intros [[= -> ->]|H]; [auto|]. destruct (IH H). auto.
Qed.

Lemma NoDup_keys_delete {V} (m : jsmap V) k :
  NoDup (map fst m) -> NoDup (map fst (map_delete m k)).
Proof.
  induction m as [|[k0 v0] r IH]; simpl; [auto|].
  intros H. inversion H as [|? ? Hn Hr]; subst.
  destruct (prim_eq_dec k k0); simpl; [auto|].
  constructor; [|auto]. intros Hin. apply Hn.
  apply in_map_iff in Hin as ([k1 v1] & E & Hin). simpl in E. subst k1.
  apply map_delete_In_neq in Hin as [_ Hin].
  apply in_map_iff. now exists (k0, v1).
Qed.

Lemma NoDup_set_add st w : NoDup st -> NoDup (set_add st w).
Proof.
  intros H. unfold set_add. destruct (existsb (Nat.eqb w) st) eqn:E; [assumption|].
  apply NoDup_app; [assumption | repeat constructor; intros [] |].
  intros x Hx [<-|[]].
  assert (existsb (Nat.eqb w) st = true); [|congruence].
  apply existsb_exists. exists w. split; [assumption | apply Nat.eqb_refl].
Qed.

Lemma set_add_nonempty st w : set_add st w <> [].
Proof.
  intros E. assert (H : In w (set_add st w)) by (apply set_add_In; now left).
  rewrite E in H. destruct H.
Qed.

Lemma verdict_none_id req auth :
  verdict req auth = None -> is_operator_id (caregiver_of req).
Proof.
  unfold verdict, caregiver_of, param_falsy.
  destruct (q_id req) as [id|]; [|discriminate].
  destruct (String.eqb_spec id ""); [discriminate|].
  intros _. now exists id.
Qed.

Lemma RegInv_frame s s' :
  wsClients s' = wsClients s ->
  (forall w, bound_of s' w = bound_of s w) ->
  RegInv s -> RegInv s'.
Proof.
  intros Hc Hb [R1 R2 R3]. split.
  - now rewrite Hc.
  - rewrite Hc. exact R2.
  - intros w c H. rewrite Hb in H. eauto.
Qed.

Lemma RegInv_registered w c s :
  (w < List.length (sockets s))%nat -> is_operator_id c ->
  RegInv s -> RegInv (registered w c s).
Proof.
  intros Hw Hc [R1 R2 R3]. split.
  - simpl. now apply NoDup_keys_set.
  - intros c' st Hin. simpl in Hin.
    apply map_set_In in Hin as [[= -> ->]|Hin]; [|eauto].
    split; [apply set_add_nonempty|]. split; [|assumption].
    apply NoDup_set_add. unfold sessions.
    destruct (map_get (wsClients s) c) as [st|] eqn:E; [|constructor].
    apply map_get_In in E. now apply R2 in E.
  - intros w' c' H. rewrite bound_of_registered in H by assumption.
    destruct (Nat.eqb w w'); [injection H as <-; assumption | eauto].
Qed.

Lemma RegInv_unregistered w c s : RegInv s -> RegInv (unregistered w c s).
Proof.
  intros R. unfold unregistered.
  destruct (map_get (wsClients s) c) as [st|] eqn:E; [|assumption].
  destruct R as [R1 R2 R3]. apply map_get_In in E.
  destruct (R2 _ _ E) as (_ & Hnd & Hid).
  destruct (Nat.eqb (List.length (set_delete st w)) 0) eqn:El; split; simpl;
    try assumption.
  - now apply NoDup_keys_delete, NoDup_keys_set.
  - intros c' st' Hin. apply map_delete_In_neq in Hin as [Hne Hin].
    apply map_set_In in Hin as [[= -> ->]|Hin]; [congruence | eauto].
  - now apply NoDup_keys_set.
  - intros c' st' Hin.
    apply map_set_In in Hin as [[= -> ->]|Hin]; [|eauto].
    split; [|split; [apply NoDup_filter|]; assumption].
    intros E0. rewrite E0 in El. discriminate.
Qed.

Lemma RegInv_step s e : RegInv s -> RegInv (step s e).
Proof.
  intros R. destruct e.
  - assert (R0 : RegInv (accepted rs throws s)).
    { apply (RegInv_frame s); [reflexivity| |assumption].
      intros w. apply bound_of_accepted. }
    destruct url as [|req]; [now rewrite step_connection_throws|].
    rewrite step_connection.
    destruct (verdict req auth) as [obj|] eqn:Hv.
    + apply (RegInv_frame (accepted rs throws s)); [reflexivity| |assumption].
      intros w. unfold rejected_with, closed.
      rewrite bound_of_update by reflexivity. reflexivity.
    + apply RegInv_registered; [|now apply (verdict_none_id req auth)|assumption].
      simpl. rewrite length_app. simpl. lia.
  - rewrite step_message. destruct (bound_of s w); [|assumption].
    destruct (classify msgBuf); try assumption.
    + unfold acked. destruct (map_get (pendingAlerts s) p); [|assumption].
      destruct (map_has j k); [|assumption].
      apply (RegInv_frame s); [reflexivity|reflexivity|assumption].
    + apply (RegInv_frame s); [reflexivity|reflexivity|assumption].
  - rewrite step_close.
    assert (R0 : RegInv (gone w s)).
    { apply (RegInv_frame s); [reflexivity| |assumption].
      intros w'. unfold gone. now apply bound_of_update. }
    destruct (bound_of (gone w s) w); [now apply RegInv_unregistered|assumption].
  - apply (RegInv_frame s); [reflexivity| |assumption].
    intros w'. unfold step, handle, modify; simpl.
    now apply (bound_of_update s w (fun k => mkSocket rs throws (close_called k) (bound k))).
  - rewrite step_retry. apply (RegInv_frame s); [reflexivity|reflexivity|assumption].
  - rewrite step_send. apply (RegInv_frame s); [reflexivity|reflexivity|assumption].
  - rewrite step_fetch. destruct (refreshed_core now now' pf s) as (H1 & _ & H3 & _).
    apply (RegInv_frame s); [assumption| |assumption].
    intros w. unfold bound_of. now rewrite H3.
  - assert (F : forall s1, RegInv s1 -> RegInv (refreshed now now' pf s1)).
    { intros s1 R1. destruct (refreshed_core now now' pf s1) as (H1 & _ & H3 & _).
      apply (RegInv_frame s1); [assumption| |assumption].
      intros w. unfold bound_of. now rewrite H3. }
    destruct (step_mqtt s topic message now now' pf api uuid ts)
      as [H|[H|(c & d & H)]]; rewrite H; clear H; auto.
    rewrite step_send.
    apply (RegInv_frame (refreshed now now' pf s)); [reflexivity|reflexivity|auto].
Qed.

Lemma RegInv_init : RegInv init.
Proof.
  split; simpl; [constructor | intros ? ? [] |].
  intros w c H. unfold bound_of in H. simpl in H.
  now destruct w.
Qed.

Lemma RegInv_run s evs : RegInv s -> RegInv (run s evs).
Proof.
  revert s. induction evs as [|e r IH]; intros s R; simpl; [assumption|].
  apply IH, RegInv_step, R.
Qed.

Lemma sessions_listed s c :
  RegInv s -> (sessions s c <> [] <-> In c (activeAides s)).
Proof.
  intros R. unfold sessions, activeAides.
  destruct (map_get (wsClients s) c) as [st|] eqn:E.
  - split; [intros _; now apply map_get_Some_keys in E|].
    intros _. apply map_get_In in E. now apply (reg_sets _ R) in E.
  - apply map_get_None_keys in E.
    split; [intros H; now elim H | intros H; contradiction].
Qed.

Lemma sessions_operator s c : RegInv s -> sessions s c <> [] -> is_operator_id c.
Proof.
  intros R. unfold sessions.
  destruct (map_get (wsClients s) c) as [st|] eqn:E; [|congruence].
  intros _. apply map_get_In in E. now apply (reg_sets _ R) in E.
Qed.

Lemma NoDup_sessions s c : RegInv s -> NoDup (sessions s c).
Proof.
  intros R. unfold sessions.
  destruct (map_get (wsClients s) c) as [st|] eqn:E; [|constructor].
  apply map_get_In in E. now apply (reg_sets _ R) in E.
Qed.

(** *** The protected alert endpoints *)

Lemma api_send_alert_run body uuid ts s :
  truthy (b_aideId body) = true ->
  truthy_val (b_patientId body) = true ->
  truthy_val (b_alertType body) = true ->
  api_send_alert body uuid ts s
  = (Ok (res_json (JObj [("sent",
          JP (PBool (negb (Nat.eqb (List.length (sessions s (b_aideId body))) 0))))])),
     step s (EvSendAlert (b_aideId body)
               [("type", JP (PStr "box_alert"));
                ("patientId", b_patientId body);
                ("alertType", b_alertType body);
                ("message", or_else (b_message body) (JP (PStr "(manual)")))]
               uuid ts)).
Proof.
  intros H1 H2 H3. unfold api_send_alert. rewrite H1, H2, H3. simpl.
  unfold bind. rewrite step_send, sendToAide_run. reflexivity.
Qed.

(** X1.  The API-key middleware lets every request through when no key is
    configured; with a key configured it runs the handler exactly for the
    requests whose [api_key] header is that key, and answers the others with
    401 without running the handler or touching the state. *)
Theorem X1_api_key_gate
    (key : option string) (next : M http_response) (s : state) :
  (API_KEY = "" -> apiKeyMiddleware key next s = next s) /\
  (API_KEY <> "" -> key = Some API_KEY ->
   apiKeyMiddleware key next s = next s) /\
  (API_KEY <> "" -> key <> Some API_KEY ->
   apiKeyMiddleware key next s
   = (Ok (mkHttp 401 (json_error "Unauthorized: invalid API key")), s)).
Proof.
  unfold apiKeyMiddleware. repeat split.
  - intros ->. reflexivity.
  - intros Hk ->. apply String.eqb_neq in Hk. rewrite Hk.
    unfold param_falsy, token_mismatch. rewrite String.eqb_refl, Hk. reflexivity.
  - intros Hk Hne. pose proof Hk as Hk'. apply String.eqb_neq in Hk'. rewrite Hk'.
    destruct key as [k|]; simpl; [|reflexivity].
    destruct (String.eqb_spec k API_KEY) as [->|]; [congruence|].
    now rewrite orb_true_r.
Qed.

(** X2.  [POST /api/send-alert] answers 400 and leaves the state as it is
    when [aideId], [patientId] or [alertType] is falsy.  Otherwise it answers
    200 with [sent] telling whether the caregiver has a session, the alert
    is pending under the generated id whatever [sent] is, and the state is
    the one a dispatch of that alert leaves. *)
Theorem X2_send_alert_endpoint
    (body : alert_body) (uuid ts : string) (s : state) :
  (truthy (b_aideId body) = false \/ truthy_val (b_patientId body) = false \/
   truthy_val (b_alertType body) = false ->
   api_send_alert body uuid ts s
   = (Ok (mkHttp 400 (json_error "aideId, patientId and alertType required")),
      s)) /\
  (truthy (b_aideId body) = true -> truthy_val (b_patientId body) = true ->
   truthy_val (b_alertType body) = true ->
   let payload :=
     [("type", JP (PStr "box_alert")); ("patientId", b_patientId body);
      ("alertType", b_alertType body);
      ("message", or_else (b_message body) (JP (PStr "(manual)")))] in
   let r := api_send_alert body uuid ts s in
   fst r = Ok (res_json (JObj [("sent",
             JP (PBool (match sessions s (b_aideId body) with
                        | [] => false
                        | _ :: _ => true
                        end)))])) /\
   snd r = step s (EvSendAlert (b_aideId body) payload uuid ts) /\
   pending_lookup (snd r) (b_aideId body) (PStr uuid)
   = Some (mk_payload payload uuid ts)).
Proof.
  split.
  - intros H. unfold api_send_alert.
    destruct H as [-> | [-> | ->]]; simpl; rewrite ?orb_true_r; reflexivity.
  - intros H1 H2 H3 payload r. subst r.
    rewrite (api_send_alert_run body uuid ts s H1 H2 H3). cbn [fst snd].
    fold payload. repeat split.
    + now destruct (sessions s (b_aideId body)).
    + rewrite step_send. apply sendToAide_pending.
Qed.

(** X3.  [POST /api/test/send-alert] asks for [aideId] only: without it the
    answer is 400 and the state is unchanged; with it the alert is
    dispatched with [patientId], [alertType] and [message] replaced by
    ["test-patient"], ["test"] and ["Alerte de test"] where the request
    leaves them out, under the fixed topic [alert/box/test/manual]. *)
Theorem X3_test_send_alert_defaults
    (body : alert_body) (uuid ts : string) (s : state) :
  (truthy (b_aideId body) = false ->
   api_test_send_alert body uuid ts s
   = (Ok (mkHttp 400 (json_error "aideId requis")), s)) /\
  (truthy (b_aideId body) = true ->
   let payload :=
     [("type", JP (PStr "box_alert"));
      ("patientId", or_else (b_patientId body) (JP (PStr "test-patient")));
      ("alertType", or_else (b_alertType body) (JP (PStr "test")));
      ("message", or_else (b_message body) (JP (PStr "Alerte de test")));
      ("topic", JP (PStr "alert/box/test/manual"))] in
   let r := api_test_send_alert body uuid ts s in
   let sent := negb (Nat.eqb (List.length (sessions s (b_aideId body))) 0) in
   fst r
   = Ok (res_json
           (JObj [("success", JP (PBool true)); ("sent", JP (PBool sent));
                  ("message",
                   JP (PStr (if sent then "Alerte envoyée"
                             else "Aide-soignant hors ligne, alerte en attente")))])) /\
   snd r = step s (EvSendAlert (b_aideId body) payload uuid ts) /\
   pending_lookup (snd r) (b_aideId body) (PStr uuid)
   = Some (mk_payload payload uuid ts) /\
   (b_patientId body = JP PUndefined -> b_alertType body = JP PUndefined ->
    b_message body = JP PUndefined ->
    payload = [("type", JP (PStr "box_alert"));
               ("patientId", JP (PStr "test-patient"));
               ("alertType", JP (PStr "test"));
               ("message", JP (PStr "Alerte de test"));
               ("topic", JP (PStr "alert/box/test/manual"))])).
Proof.
  split.
  - intros H. unfold api_test_send_alert. now rewrite H.
  - intros H payload r sent. subst r. unfold api_test_send_alert. rewrite H.
    simpl. fold payload. unfold bind. rewrite step_send, sendToAide_run.
    cbn [fst snd]. repeat split.
    + apply sendToAide_pending.
    + intros E1 E2 E3. subst payload. now rewrite E1, E2, E3.
Qed.

(** X4.  In every state the process can reach, the registry holds each
    caregiver once, under a non-empty string, with a non-empty set of
    sockets without repetition.  So [GET /api/health] lists, each once,
    exactly the caregivers that have at least one session. *)
Theorem X4_registry_shape
    (evs : list event) (mqttConnected : bool) (PORT : string) :
  let s := run init evs in
  NoDup (activeAides s) /\
  (forall c, In c (activeAides s) <-> sessions s c <> []) /\
  (forall c, In c (activeAides s) -> is_operator_id c) /\
  (forall c, NoDup (sessions s c)) /\
  api_health mqttConnected PORT s
  = (Ok (res_json (JObj [("status", JP (PStr "ok"));
                         ("mqttConnected", JP (PBool mqttConnected));
                         ("wsPort", JP (PNum PORT));
                         ("activeAides", JArr (map JP (activeAides s)))])),
     s).
Proof.
  intros s. assert (R : RegInv s) by apply RegInv_run, RegInv_init.
  split; [apply (reg_keys _ R)|].
  split; [intros c; symmetry; now apply sessions_listed|].
  split; [intros c H; apply (sessions_operator s c R);
          now apply (sessions_listed s c R)|].
  split; [intros c; now apply NoDup_sessions|].
  unfold api_health, bind, gets, ret, activeAides. rewrite map_map.
    replace (map (fun x : prim * wsset => JP (fst x)) (wsClients s))
      with (map (fun '(c, _) => JP c) (wsClients s)); [reflexivity|].
    apply map_ext. now intros [c st].
Qed.

(** X5.  In every reachable state, a valid [POST /api/send-alert] answers
    [sent: true] exactly when its caregiver is among the [activeAides] that
    [GET /api/health] reports. *)
Theorem X5_sent_agrees_with_health
    (evs : list event) (body : alert_body) (uuid ts : string) :
  truthy (b_aideId body) = true ->
  truthy_val (b_patientId body) = true ->
  truthy_val (b_alertType body) = true ->
  let s := run init evs in
  (In (b_aideId body) (activeAides s) ->
   fst (api_send_alert body uuid ts s)
   = Ok (res_json (JObj [("sent", JP (PBool true))]))) /\
  (~ In (b_aideId body) (activeAides s) ->
   fst (api_send_alert body uuid ts s)
   = Ok (res_json (JObj [("sent", JP (PBool false))]))).
Proof.
  intros H1 H2 H3 s. assert (R : RegInv s) by apply RegInv_run, RegInv_init.
  rewrite (api_send_alert_run body uuid ts s H1 H2 H3). cbn [fst].
  pose proof (sessions_listed s (b_aideId body) R) as L.
  split; intros Hin.
  - apply L in Hin. now destruct (sessions s (b_aideId body)).
  - destruct (sessions s (b_aideId body)); [reflexivity|].
    exfalso. apply Hin, L. discriminate.
Qed.

(** X6.  A session is always bound to a non-empty string, the [id] of its
    handshake.  So in every reachable state a dispatch to any other
    caregiver id (a number, as a directory record may carry, or the empty
    string) returns [false] and sends nothing, and whatever is on the wire
    of a session was enqueued under the string that session is bound to. *)
Theorem X6_only_string_ids_are_served
    (evs : list event) :
  let s := run init evs in
  (forall c data uuid ts,
     ~ is_operator_id c ->
     sendToAide c data uuid ts s
     = (Ok false, enqueue c uuid (mk_payload data uuid ts) s)) /\
  (forall w c m,
     bound_of s w = Some c -> In (w, m) (wire s) ->
     is_operator_id c /\ In (c, m) (enqueued s)).
Proof.
  intros s. assert (R : RegInv s) by apply RegInv_run, RegInv_init.
  assert (I : Inv s) by apply Inv_run, Inv_init.
  split.
  - intros c data uuid ts Hc. rewrite sendToAide_run.
    destruct (sessions s c) eqn:E.
    + simpl. now rewrite push_wire_nil.
    + exfalso. apply Hc, (sessions_operator s c R). rewrite E. discriminate.
  - intros w c m Hb Hin. split; [now apply (reg_bound _ R w)|].
    now apply (inv_wire _ I w).
Qed.

(** *** The directory cache and the router *)

Lemma getAide_of_array l patientId s :
  (p <- find_patient l patientId ;;
   match p with
   | None => ret PNull
   | Some fk => ret (if truthy fk then fk else PNull)
   end) s = (Ok (aide_in l patientId), s)
  \/ exists e,
       (p <- find_patient l patientId ;;
        match p with
        | None => ret PNull
        | Some fk => ret (if truthy fk then fk else PNull)
        end) s = (Throw e, s) /\ aide_in l patientId = PNull.
Proof.
  induction l as [|[|id fk] r IH]; simpl.
  - left. reflexivity.
  - right. exists TypeError. split; reflexivity.
  - unfold bind in *. simpl.
    destruct (String_ id =? patientId); [left; reflexivity | exact IH].
Qed.

Lemma getAideForPatient_value patientId now now' pf s :
  getAideForPatient patientId now now' pf s
  = (Ok (aide_of (fetched now pf s) patientId), refreshed now now' pf s).
Proof.
  unfold getAideForPatient, try_catch. unfold bind at 1.
  rewrite fetchAllPatients_run.
  destruct (fetched now pf s) as [l|b]; [|reflexivity].
  destruct (getAide_of_array l patientId (refreshed now now' pf s))
    as [E|(e & E & En)]; rewrite E; simpl; [reflexivity | now rewrite En].
Qed.

Lemma on_mqtt_message_state topic message now now' pf api uuid ts s :
  snd (on_mqtt_message topic message now now' pf api uuid ts s)
  = if routed topic then routed_state topic message now now' pf uuid ts s
    else s.
Proof.
  unfold on_mqtt_message, routed_state. fold (routed topic).
  fold (alertType_of topic).
  destruct (routed topic); [|reflexivity]. simpl.
  unfold bind at 1. rewrite getAideForPatient_value.
  set (s1 := refreshed now now' pf s).
  set (aide := aide_of (fetched now pf s) (nth 2 (topic_parts topic) "")).
  assert (N : forall call payload, call s1 = (Ok tt, s1) ->
    snd (notify aide call payload uuid ts s1)
    = if truthy aide then step s1 (EvSendAlert aide payload uuid ts) else s1).
  { intros call payload Hc. rewrite (notify_run _ _ _ _ _ _ Hc). simpl.
    destruct (truthy aide); [|reflexivity].
    unfold step, handle, bind. now destruct (sendToAide _ _ _ _ _) as [[|] ?]. }
  unfold severity_of.
  destruct (alertType_of topic =? "mecanic"); [reflexivity|].
  destruct (alertType_of topic =? "seuilmedoc"); [now apply N|].
  destruct (alertType_of topic =? "plusmedoc"); [now apply N|].
  destruct (alertType_of topic =? "delivery").
  { unfold bind at 1.
    destruct (JSON_parse message) as [data|]; [|reflexivity].
    destruct data as [[]| |fields]; try reflexivity;
      unfold bind; simpl; destruct (truthy aide); try reflexivity;
      exact (f_equal snd (call_with_text_run api s1)). }
  destruct (alertType_of topic =? "getprescription");
    [apply N, call_with_text_run|].
  destruct (alertType_of topic =? "getmedocs"); [apply N, call_json_run|].
  destruct (alertType_of topic =? "createclient"); [now apply N|].
  reflexivity.
Qed.

Lemma split_slash_nonempty x : split_slash x <> [].
Proof.
  destruct x as [|c r]; simpl; [discriminate|].
  destruct (Ascii.eqb c "/"); [discriminate|].
  destruct (split_slash r); discriminate.
Qed.

Lemma split_slash_segment x rest :
  slash_free x = true ->
  split_slash (x ++ String "/" rest) = x :: split_slash rest.
Proof.
  induction x as [|c r IH]; simpl; [reflexivity|].
  destruct (Ascii.eqb c "/"); simpl; [discriminate|].
  intros H. now rewrite (IH H).
Qed.

Lemma split_slash_last x : slash_free x = true -> split_slash x = [x].
Proof.
  induction x as [|c r IH]; simpl; [reflexivity|].
  destruct (Ascii.eqb c "/"); simpl; [discriminate|].
  intros H. now rewrite (IH H).
Qed.

Lemma split_slash_concat l :
  l <> [] -> forallb slash_free l = true ->
  split_slash (String.concat "/" l) = l.
Proof.
  induction l as [|x r IH]; [congruence|]. intros _ H. simpl in H.
  apply andb_prop in H as [Hx Hr].
  destruct r as [|y r'].
  - simpl. now apply split_slash_last.
  - change (String.concat "/" (x :: y :: r'))
      with (x ++ String "/" (String.concat "/" (y :: r')))%string.
    rewrite split_slash_segment by assumption.
    rewrite IH; [reflexivity | discriminate | assumption].
Qed.

Lemma fresh_refreshed s now now' pf :
  cache_fresh s now = true ->
  refreshed now now' pf s = s /\ fetched now pf s = patientsCache s.
Proof. intros H. unfold refreshed, fetched. now rewrite H. Qed.

Lemma fresh_cache s now :
  dir_truthy (patientsCache s) = true ->
  (now - patientsCacheTs s < PATIENTS_CACHE_TTL_MS)%Z ->
  cache_fresh s now = true.
Proof.
  intros H1 H2. unfold cache_fresh. rewrite H1. simpl. now apply Z.ltb_lt.
Qed.

Lemma no_base_refreshed s now now' pf :
  API_BASE = "" ->
  refreshed now now' pf s = s /\
  (dir_truthy (patientsCache s) = false -> fetched now pf s = DirArray []).
Proof.
  intros Hb. unfold refreshed, fetched, cache_fresh. rewrite Hb. simpl.
  split; [now destruct (_ && _)|]. now intros ->.
Qed.

Lemma severity_dispatching a sv :
  severity_of a = Some sv -> In a dispatching_classes.
Proof.
  unfold severity_of, dispatching_classes.
  destruct (a =? "mecanic"); [discriminate|].
  destruct (String.eqb_spec a "seuilmedoc") as [->|]; [simpl; auto|].
  destruct (String.eqb_spec a "plusmedoc") as [->|]; [simpl; auto|].
  destruct (a =? "delivery"); [discriminate|].
  destruct (String.eqb_spec a "getprescription") as [->|]; [simpl; auto|].
  destruct (String.eqb_spec a "getmedocs") as [->|]; [simpl; auto 6|].
  destruct (String.eqb_spec a "createclient") as [->|]; [simpl; auto 6|].
  discriminate.
Qed.

Lemma box_topic_parts patientId alertType :
  slash_free patientId = true -> patientId <> "" ->
  slash_free alertType = true -> alertType <> "" ->
  topic_parts (box_topic patientId alertType)
  = ["alert"; "box"; patientId; alertType].
Proof.
  intros H1 N1 H2 N2. unfold topic_parts.
  change (box_topic patientId alertType)
    with (String.concat "/" ["alert"; "box"; patientId; alertType]).
  rewrite split_slash_concat; [|discriminate|simpl; now rewrite H1, H2].
  simpl. apply String.eqb_neq in N1, N2. now rewrite N1, N2.
Qed.

Lemma box_topic_routed patientId alertType :
  slash_free patientId = true -> patientId <> "" ->
  slash_free alertType = true -> alertType <> "" ->
  routed (box_topic patientId alertType) = true /\
  nth 2 (topic_parts (box_topic patientId alertType)) "" = patientId /\
  alertType_of (box_topic patientId alertType) = alertType.
Proof.
  intros H1 N1 H2 N2. unfold routed, alertType_of.
  rewrite (box_topic_parts patientId alertType H1 N1 H2 N2). simpl. auto.
Qed.

Lemma aide_in_first_match pre id fk post patientId :
  Forall (fun x => exists id' fk', x = ElemRec id' fk' /\ String_ id' <> patientId) pre ->
  String_ id = patientId ->
  aide_in (pre ++ ElemRec id fk :: post) patientId
  = if truthy fk then fk else PNull.
Proof.
  intros Hpre Hid. induction Hpre as [|x r (id' & fk' & -> & Hne) _ IH]; simpl.
  - apply String.eqb_eq in Hid. now rewrite Hid.
  - apply String.eqb_neq in Hne. now rewrite Hne.
Qed.

Lemma aide_in_null_element pre post patientId :
  Forall (fun x => exists id' fk', x = ElemRec id' fk' /\ String_ id' <> patientId) pre ->
  aide_in (pre ++ ElemNullish :: post) patientId = PNull.
Proof.
  intros Hpre. induction Hpre as [|x r (id' & fk' & -> & Hne) _ IH]; simpl.
  - reflexivity.
  - apply String.eqb_neq in Hne. now rewrite Hne.
Qed.

(** The cache changes through [fetchAllPatients] only. *)
Lemma step_cache s e :
  (patientsCache (step s e) = patientsCache s /\
   patientsCacheTs (step s e) = patientsCacheTs s) \/
  exists now now' pf,
    patientsCache (step s e) = patientsCache (refreshed now now' pf s) /\
    patientsCacheTs (step s e) = patientsCacheTs (refreshed now now' pf s).
Proof.
  destruct e.
  - left. destruct url as [|req]; [now rewrite step_connection_throws|].
    rewrite step_connection. now destruct (verdict req auth).
  - left. rewrite step_message. destruct (bound_of s w); [|auto].
    destruct (classify msgBuf); auto.
    unfold acked. destruct (map_get (pendingAlerts s) p); [|auto].
    destruct (map_has j k); auto.
  - left. rewrite step_close. destruct (bound_of (gone w s) w); [|auto].
    unfold unregistered. destruct (map_get (wsClients (gone w s)) p); auto.
  - left. auto.
  - left. rewrite step_retry. auto.
  - left. rewrite step_send. auto.
  - right. rewrite step_fetch. eauto.
  - destruct (step_mqtt s topic message now now' pf api uuid ts)
      as [H|[H|(c & d & H)]]; rewrite H; [left; auto | right; eauto |].
    right. rewrite step_send. exists now, now', pf. auto.
Qed.

(** X7.  While the cache holds a truthy value younger than the TTL, a read
    of the directory returns it and leaves the state as it is, whatever the
    directory would answer: nothing is fetched. *)
Theorem X7_fresh_cache_is_not_refetched
    (s : state) (now now' : Z) (pf : patients_fetch) (patientId : string) :
  dir_truthy (patientsCache s) = true ->
  (now - patientsCacheTs s < PATIENTS_CACHE_TTL_MS)%Z ->
  fetchAllPatients now now' pf s = (Ok (patientsCache s), s) /\
  getAideForPatient patientId now now' pf s
  = (Ok (aide_of (patientsCache s) patientId), s).
Proof.
  intros H1 H2.
  destruct (fresh_refreshed s now now' pf (fresh_cache s now H1 H2)) as [E1 E2].
  split.
  - now rewrite fetchAllPatients_run, E1, E2.
  - now rewrite getAideForPatient_value, E1, E2.
Qed.

(** X8.  A refetch that yields data stores it with the time of the fetch
    and returns it.  When the data is truthy, every read made less than the
    TTL after that time returns the same data without fetching; when the
    body is falsy (the directory answered [null], say) it is never served
    from the cache: the next read fetches again. *)
Theorem X8_refetch_then_read
    (s : state) (now now' now2 now2' : Z) (d : directory) (pf2 : patients_fetch) :
  API_BASE <> "" ->
  cache_fresh s now = false ->
  let r := fetchAllPatients now now' (PFData d) s in
  fst r = Ok d /\
  patientsCache (snd r) = d /\ patientsCacheTs (snd r) = now' /\
  (dir_truthy d = true -> (now2 - now' < PATIENTS_CACHE_TTL_MS)%Z ->
   fetchAllPatients now2 now2' pf2 (snd r) = (Ok d, snd r)) /\
  (dir_truthy d = false ->
   forall d2, fst (fetchAllPatients now2 now2' (PFData d2) (snd r)) = Ok d2).
Proof.
  intros Hb Hstale r. subst r. apply String.eqb_neq in Hb.
  rewrite fetchAllPatients_run. unfold fetched, refreshed.
  rewrite Hstale, Hb. cbn [fst snd]. repeat split.
  - intros Hd Hlt. rewrite fetchAllPatients_run.
    unfold fetched, refreshed, cache_fresh. simpl. rewrite Hd.
    apply Z.ltb_lt in Hlt. now rewrite Hlt.
  - intros Hd d2. rewrite fetchAllPatients_run.
    unfold fetched, cache_fresh. simpl. now rewrite Hd, Hb.
Qed.

(** X9.  When [API_BASE] is not configured the cache is never filled: in
    every reachable state it still holds [null], every lookup of a caregiver
    yields [null], and no MQTT message changes the state, so the router
    dispatches nothing. *)
Theorem X9_router_inert_without_API_BASE
    (evs : list event) (topic message : string) (now now' : Z)
    (pf : patients_fetch) (api : fetch_result) (uuid ts : string) :
  API_BASE = "" ->
  let s := run init evs in
  patientsCache s = DirOther false /\
  (forall patientId,
     getAideForPatient patientId now now' pf s = (Ok PNull, s)) /\
  step s (EvMqtt topic message now now' pf api uuid ts) = s.
Proof.
  intros Hb s.
  assert (Hc : patientsCache s = DirOther false).
  { subst s. generalize (eq_refl (patientsCache init)).
    generalize init at 1 3 as s0. intros s0 H0. revert s0 H0.
    induction evs as [|e r IH]; intros s0 H0; simpl; [now rewrite H0|].
    apply IH. rewrite <- H0.
    destruct (step_cache s0 e) as [[E _]|(n & n' & p & E & _)]; [assumption|].
    rewrite E. now destruct (no_base_refreshed s0 n n' p Hb) as [-> _]. }
  assert (Hg : forall patientId n n' p,
            getAideForPatient patientId n n' p s = (Ok PNull, s)).
  { intros patientId n n' p. rewrite getAideForPatient_value.
    destruct (no_base_refreshed s n n' p Hb) as [-> ->]; [|now rewrite Hc].
    reflexivity. }
  split; [assumption|]. split; [intros; apply Hg|].
  unfold step, handle. rewrite on_mqtt_message_state.
  destruct (routed topic); [|reflexivity].
  unfold routed_state.
  destruct (no_base_refreshed s now now' pf Hb) as [-> ->]; [|now rewrite Hc].
  simpl. now destruct (severity_of (alertType_of topic)).
Qed.

(** X10.  The router leaves a message alone when its topic has fewer than
    four non-empty segments or does not start with [alert], [box].  It calls
    [sendToAide] for five alert classes only, so neither a maintenance fault
    ([mecanic]) nor a delivery confirmation nor an unknown class ever
    reaches an operator; and it never touches the registry. *)
Theorem X10_router_dispatch_classes
    (topic message : string) (now now' : Z) (pf : patients_fetch)
    (api : fetch_result) (uuid ts : string) (s : state) :
  let s' := step s (EvMqtt topic message now now' pf api uuid ts) in
  (routed topic = false ->
   on_mqtt_message topic message now now' pf api uuid ts s = (Ok tt, s)) /\
  (enqueued s' <> enqueued s \/ wire s' <> wire s \/
   pendingAlerts s' <> pendingAlerts s ->
   routed topic = true /\ In (alertType_of topic) dispatching_classes) /\
  wsClients s' = wsClients s.
Proof.
  intros s'. subst s'. unfold step at 1 2 3 4, handle.
  rewrite on_mqtt_message_state.
  destruct (refreshed_core now now' pf s) as (C1 & C2 & C3 & C4 & C5).
  split; [|split].
  - intros Hr. unfold on_mqtt_message. fold (routed topic). now rewrite Hr.
  - destruct (routed topic); [|intros [H|[H|H]]; congruence].
    unfold routed_state.
    destruct (severity_of (alertType_of topic)) as [sv|] eqn:Hs.
    + intros _. split; [reflexivity|]. now apply (severity_dispatching _ sv).
    + intros [H|[H|H]]; congruence.
  - destruct (routed topic); [|reflexivity]. unfold routed_state.
    destruct (severity_of (alertType_of topic)); [|assumption].
    destruct (truthy _); [|assumption]. now rewrite step_send.
Qed.

(** X11.  Splitting a topic undoes joining its segments with [/], empty
    segments being dropped: for segments without [/], the parts of the
    joined topic are the non-empty segments, in order.  So the topic
    [alert/box/<patientId>/<alertType>] is routed, with that patient id and
    that alert class. *)
Theorem X11_topic_parts_of_joined_segments
    (l : list string) (patientId alertType : string) :
  forallb slash_free l = true ->
  topic_parts (String.concat "/" l) = filter (fun x => negb (x =? "")) l /\
  (slash_free patientId = true -> patientId <> "" ->
   slash_free alertType = true -> alertType <> "" ->
   routed (box_topic patientId alertType) = true /\
   nth 2 (topic_parts (box_topic patientId alertType)) "" = patientId /\
   alertType_of (box_topic patientId alertType) = alertType).
Proof.
  intros H. split; [|apply box_topic_routed].
  unfold topic_parts. destruct l as [|x r]; [reflexivity|].
  rewrite split_slash_concat; [reflexivity | discriminate | assumption].
Qed.

(** X12.  [getAideForPatient] compares ids by their rendering, so the
    patient id of a topic matches a numeric [id_patient] as well as a string
    one, and the first matching record decides: its [fk_aide_soignant], or
    [null] when that is falsy.  A [null] element met before any match makes
    the lookup yield [null], even when a later record matches. *)
Theorem X12_lookup_first_match_decides
    (s : state) (now now' : Z) (pf : patients_fetch) (patientId : string)
    (pre post : list patient_elem) (id fk : prim) :
  dir_truthy (patientsCache s) = true ->
  (now - patientsCacheTs s < PATIENTS_CACHE_TTL_MS)%Z ->
  Forall (fun x => exists id' fk',
            x = ElemRec id' fk' /\ String_ id' <> patientId) pre ->
  (patientsCache s = DirArray (pre ++ ElemRec id fk :: post) ->
   String_ id = patientId ->
   getAideForPatient patientId now now' pf s
   = (Ok (if truthy fk then fk else PNull), s)) /\
  (patientsCache s = DirArray (pre ++ ElemNullish :: post) ->
   getAideForPatient patientId now now' pf s = (Ok PNull, s)).
Proof.
  intros H1 H2 Hpre.
  destruct (fresh_refreshed s now now' pf (fresh_cache s now H1 H2)) as [E1 E2].
  split.
  - intros Hc Hid. rewrite getAideForPatient_value, E1, E2, Hc. simpl.
    now rewrite aide_in_first_match.
  - intros Hc. rewrite getAideForPatient_value, E1, E2, Hc. simpl.
    now rewrite aide_in_null_element.
Qed.


(** *** Connections, closes and messages *)

Lemma first_checks_verdict req auth :
  passes_first_checks req ->
  verdict req auth
  = match auth with
    | FetchRejects => Some (error_obj "Internal server error.")
    | FetchResolves r =>
        if negb (ok r) then
          Some (error_obj "Authentication failed due to API error")
        else
          match json_body r with
          | None => Some (error_obj "Internal server error.")
          | Some (JP PNull) | Some (JP PUndefined) =>
              Some (error_obj "Internal server error.")
          | Some data =>
              if stored_password_is data
                   (match q_pwd req with Some p => p | None => "" end)
              then None else Some (error_obj "Invalid password")
          end
    end.
Proof.
  intros (H1 & H2 & H3). unfold verdict. rewrite H1, H2.
  replace (negb (API_KEY =? "") && token_mismatch (q_token req)) with false.
  - destruct auth as [|r]; [reflexivity|].
    destruct (negb (ok r)); [reflexivity|].
    destruct (json_body r) as [[[]| |]|]; reflexivity.
  - destruct H3 as [-> | ->]; [reflexivity|].
    unfold token_mismatch. rewrite String.eqb_refl. now rewrite andb_false_r.
Qed.

(** X14.  The answer a connection whose URL parsed receives when it is
    turned down names the first check that failed: the missing-id error when
    [id] is not there, whatever [pwd] is; the missing-password error when
    [id] is there and [pwd] is not; with both there, a secret configured and
    a token that is not the secret, the invalid-token object; past these
    checks, the API error when the credential lookup is not OK, the internal
    error when the lookup or the reading of its body throws (a [null] body
    included), and the invalid-password error when the body yields no
    password equal to [pwd].  In each case that one message is all the
    socket gets, and [close] is called on it. *)
Theorem X14_rejection_messages
    (s : state) (rs : Z) (throws : bool) (req : request) (auth : fetch_result) :
  let w := List.length (sockets s) in
  let s' := step s (EvConnection rs throws (URLParsed req) auth) in
  let answered (obj : jsobj) :=
    wire s' = wire s ++ delivered rs throws w [obj] /\
    close_requested s' w = true in
  let told (msg : string) := answered [("error", JP (PStr msg))] in
  (param_falsy (q_id req) = true -> told "Missing 'id' query param") /\
  (param_falsy (q_id req) = false -> param_falsy (q_pwd req) = true ->
   told "Missing 'pwd' query param") /\
  (param_falsy (q_id req) = false -> param_falsy (q_pwd req) = false ->
   API_KEY <> "" -> q_token req <> Some API_KEY ->
   answered
     [("error", JP (PStr "Invalid token"));
      ("debug",
       JObj [("token_recu",
              match q_token req with
              | Some token => JP (PStr token)
              | None => JP PNull
              end);
             ("api_key_attendue", JP (PStr API_KEY));
             ("url", JP (PStr (href req)))])]) /\
  (passes_first_checks req ->
   ((exists r, auth = FetchResolves r /\ ok r = false) ->
    told "Authentication failed due to API error") /\
   (auth = FetchRejects \/
    (exists r, auth = FetchResolves r /\ ok r = true /\
               (json_body r = None \/ json_body r = Some (JP PNull))) ->
    told "Internal server error.") /\
   ((exists r data,
       auth = FetchResolves r /\ ok r = true /\ json_body r = Some data /\
       data <> JP PNull /\ data <> JP PUndefined /\
       stored_password_is data
         (match q_pwd req with Some p => p | None => "" end) = false) ->
    told "Invalid password")).
Proof.
  intros w s' answered told.
  assert (A : forall obj, verdict req auth = Some obj -> answered obj).
  { intros obj Hv. subst answered s'. cbv beta. rewrite step_connection, Hv.
    destruct (rejected_facts s rs throws obj) as (_ & _ & F3 & _ & F5).
    auto. }
  assert (T : forall msg, verdict req auth = Some (error_obj msg) -> told msg).
  { intros msg Hv. exact (A _ Hv). }
  split; [|split; [|split]].
  - intros H1. apply T. unfold verdict. now rewrite H1.
  - intros H1 H2. apply T. unfold verdict. now rewrite H1, H2.
  - intros H1 H2 Hk Ht. apply A. unfold verdict.
    rewrite H1, H2, token_check_fails by assumption.
    unfold invalid_token_obj, param_val. now destruct (q_token req).
  - intros Hp. pose proof (first_checks_verdict req auth Hp) as Hv.
    split; [|split].
    + intros (r & -> & Hok). apply T. rewrite Hv, Hok. reflexivity.
    + intros [-> | (r & -> & Hok & [Hb | Hb])]; apply T; rewrite Hv;
        [reflexivity | |]; rewrite Hok, Hb; reflexivity.
    + intros (r & data & -> & Hok & Hb & N1 & N2 & Hpw). apply T.
      rewrite Hv, Hok, Hb. simpl. rewrite Hpw.
      destruct data as [[]| |]; try reflexivity; congruence.
Qed.

Lemma map_set_absent {V} (m : jsmap V) k v :
  map_get m k = None -> map_set m k v = m ++ [(k, v)].
Proof.
  induction m as [|[k0 v0] r IH]; simpl; [reflexivity|].
  destruct (prim_eq_dec k k0); [discriminate|]. intros H. now rewrite IH.
Qed.

Lemma map_set_same {V} (m : jsmap V) k v :
  map_get m k = Some v -> map_set m k v = m.
Proof.
  induction m as [|[k0 v0] r IH]; simpl; [discriminate|].
  destruct (prim_eq_dec k k0) as [->|]; [now intros [= ->]|].
  intros H. now rewrite IH.
Qed.

Lemma map_delete_last {V} (m : jsmap V) k v :
  map_get m k = None -> map_delete (m ++ [(k, v)]) k = m.
Proof.
  induction m as [|[k0 v0] r IH]; simpl.
  - now destruct (prim_eq_dec k k).
  - destruct (prim_eq_dec k k0); [discriminate|]. intros H. now rewrite IH.
Qed.

Lemma set_delete_add st w : ~ In w st -> set_delete (set_add st w) w = st.
Proof.
  intros Hn. unfold set_add.
  destruct (existsb (Nat.eqb w) st) eqn:E.
  - apply existsb_exists in E as (x & Hx & Hw). apply Nat.eqb_eq in Hw.
    subst x. contradiction.
  - unfold set_delete. rewrite filter_app. simpl. rewrite Nat.eqb_refl. simpl.
    rewrite app_nil_r. apply forallb_filter_id. apply forallb_forall.
    intros x Hx. apply negb_true_iff, Nat.eqb_neq. congruence.
Qed.

Lemma set_delete_idem st w : set_delete (set_delete st w) w = set_delete st w.
Proof.
  unfold set_delete. apply forallb_filter_id, forallb_forall.
  intros x Hx. now apply filter_In in Hx.
Qed.

Lemma bound_of_gone w s w' : bound_of (gone w s) w' = bound_of s w'.
Proof. unfold gone. now apply bound_of_update. Qed.

Lemma update_nth_idem {A} (f : A -> A) n (l : list A) :
  (forall x, f (f x) = f x) -> update_nth n f (update_nth n f l) = update_nth n f l.
Proof.
  intros Hf. revert n. induction l as [|x r IH]; intros [|n]; simpl;
    [reflexivity | reflexivity | now rewrite Hf | now rewrite IH].
Qed.

Lemma gone_idem w s : gone w (gone w s) = gone w s.
Proof.
  unfold gone, with_sockets; simpl. f_equal. now apply update_nth_idem.
Qed.

Lemma gone_unregistered w c s :
  gone w (unregistered w c s) = unregistered w c (gone w s).
Proof.
  unfold unregistered. simpl.
  now destruct (map_get (wsClients s) c).
Qed.

Lemma unregistered_idem w c s :
  unregistered w c (unregistered w c s) = unregistered w c s.
Proof.
  destruct (map_get (wsClients s) c) as [st|] eqn:E.
  - assert (Eu : unregistered w c s
                 = with_wsClients (fun wc =>
                     if Nat.eqb (List.length (set_delete st w)) 0
                     then map_delete (map_set wc c (set_delete st w)) c
                     else map_set wc c (set_delete st w)) s)
      by (unfold unregistered; now rewrite E).
    rewrite Eu. set (t := with_wsClients _ s).
    destruct (Nat.eqb (List.length (set_delete st w)) 0) eqn:El.
    + assert (Et : map_get (wsClients t) c = None).
      { subst t. simpl. rewrite map_get_delete. now destruct (prim_eq_dec c c). }
      unfold unregistered. now rewrite Et.
    + assert (Et : map_get (wsClients t) c = Some (set_delete st w)).
      { subst t. simpl. rewrite map_get_set. now destruct (prim_eq_dec c c). }
      unfold unregistered. rewrite Et, set_delete_idem, El.
      subst t. unfold with_wsClients. simpl. now rewrite map_set_set.
  - assert (Eu : unregistered w c s = s) by (unfold unregistered; now rewrite E).
    now rewrite !Eu.
Qed.

(** X15.  In every reachable state, when a connection is accepted and that
    socket then closes, the registry is back to what it was before the
    connection: the socket is out of its caregiver's set, and a caregiver
    left without a session is no longer a key.  The close does not touch the
    pending alerts. *)
Theorem X15_connect_then_close_restores_registry
    (evs : list event) (rs : Z) (throws : bool) (req : request)
    (auth : fetch_result) (c : prim) :
  let s := run init evs in
  let w := List.length (sockets s) in
  let s1 := step s (EvConnection rs throws (URLParsed req) auth) in
  let s2 := step s1 (EvWsClose w) in
  bound_of s1 w = Some c ->
  In w (sessions s1 c) /\
  wsClients s2 = wsClients s /\
  pendingAlerts s2 = pendingAlerts s1.
Proof.
  intros s w s1 s2 Hb.
  assert (R : RegInv s) by apply RegInv_run, RegInv_init.
  assert (I : Inv s) by apply Inv_run, Inv_init.
  assert (E1 : s1 = registered w c (accepted rs throws s)).
  { subst s1. rewrite step_connection in Hb |- *.
    destruct (verdict req auth) as [obj|].
    - destruct (rejected_facts s rs throws obj) as (_ & _ & _ & F4 & _).
      unfold w in Hb. rewrite F4 in Hb. discriminate.
    - destruct (registered_facts s rs throws (caregiver_of req)) as (_ & F2 & _).
      unfold w in Hb |- *. rewrite F2 in Hb. now injection Hb as ->. }
  destruct (registered_facts s rs throws c) as (F1 & F2 & _).
  fold w in F1, F2. rewrite <- E1 in F1, F2.
  assert (Hfresh : ~ In w (sessions s c)).
  { intros Hin. apply sessions_In in Hin as (st & Hst & Hin).
    pose proof (inv_sessions _ I _ _ _ Hst Hin) as Hw.
    apply bound_alloc in Hw. subst w. lia. }
  split; [rewrite F1; apply set_add_In; now left|].
  subst s2. rewrite step_close, bound_of_gone, F2.
  unfold unregistered.
  change (wsClients (gone w s1)) with (wsClients s1).
  assert (Eg : map_get (wsClients s1) c = Some (set_add (sessions s c) w)).
  { rewrite E1. simpl. rewrite map_get_set. now destruct (prim_eq_dec c c). }
  rewrite Eg, set_delete_add by assumption.
  split; [|now destruct (Nat.eqb _ 0)].
  rewrite E1. simpl. rewrite map_set_set.
  unfold sessions in *.
  destruct (map_get (wsClients s) c) as [st|] eqn:Ec.
  - apply map_get_In in Ec as Hin. destruct (reg_sets _ R _ _ Hin) as (Hne & _).
    destruct st; [congruence|]. simpl. now apply map_set_same.
  - simpl. rewrite (map_set_absent _ _ _ Ec). now apply map_delete_last.
Qed.

(** X16.  A second close event on a socket changes nothing: the state after
    two closes is the state after one, in every state. *)
Theorem X16_close_is_idempotent (s : state) (w : ws_id) :
  step (step s (EvWsClose w)) (EvWsClose w) = step s (EvWsClose w).
Proof.
  rewrite (step_close s w). rewrite bound_of_gone.
  destruct (bound_of s w) as [c|] eqn:Hb.
  - rewrite step_close, gone_unregistered, gone_idem.
    assert (Hb' : bound_of (unregistered w c (gone w s)) w = Some c).
    { unfold unregistered.
      destruct (map_get (wsClients (gone w s)) c);
        change (bound_of (gone w s) w = Some c); now rewrite bound_of_gone. }
    rewrite Hb'. apply unregistered_idem.
  - rewrite step_close, gone_idem, bound_of_gone, Hb. reflexivity.
Qed.

(** X17.  The message handler of a session ignores, without error and
    without any change, a message that is not JSON, one whose [type] is
    neither [ack] nor [resend_pending], and an [ack] whose [alertId] is
    missing or falsy.  A [resend_pending] request sends the caregiver's
    whole queue again to that socket, in queue order, and leaves the store
    as it is. *)
Theorem X17_other_messages_are_ignored
    (s : state) (w : ws_id) (c : prim) (msgBuf : string) :
  (JSON_parse msgBuf = None -> on_ws_message w c msgBuf s = (Ok tt, s)) /\
  (forall data,
     JSON_parse msgBuf = Some data ->
     (forall fields, data = JObj fields ->
        obj_get fields "type" <> JP (PStr "resend_pending") /\
        (obj_get fields "type" <> JP (PStr "ack") \/
         truthy_val (obj_get fields "alertId") = false)) ->
     on_ws_message w c msgBuf s = (Ok tt, s)) /\
  (forall fields,
     JSON_parse msgBuf = Some (JObj fields) ->
     obj_get fields "type" = JP (PStr "resend_pending") ->
     on_ws_message w c msgBuf s
     = (Ok tt, push_wire (flush_msgs s w (map_values (queue_of s c))) s)).
Proof.
  rewrite on_ws_message_run. unfold classify. split; [|split].
  - now intros ->.
  - intros data -> H. destruct data as [p| |fields]; try reflexivity.
    destruct (H fields eq_refl) as [Hr Ha].
    assert (Er : strict_eq_str (obj_get fields "type") "resend_pending" = false).
    { destruct (strict_eq_str (obj_get fields "type") "resend_pending") eqn:E;
        [|reflexivity].
      apply strict_eq_str_true in E. contradiction. }
    rewrite Er.
    destruct Ha as [Ha | Ha].
    + assert (Ea : strict_eq_str (obj_get fields "type") "ack" = false).
      { destruct (strict_eq_str (obj_get fields "type") "ack") eqn:E;
          [|reflexivity].
        apply strict_eq_str_true in E. contradiction. }
      now rewrite Ea.
    + rewrite Ha. now rewrite andb_false_r.
  - intros fields -> Ht. rewrite Ht. reflexivity.
Qed.

(** X18.  After an acknowledgment of alert [a] by a session of caregiver
    [c], nothing the next retry sweep sends comes from the entry [a] of
    [c]: every message of the sweep is a payload still pending under some
    other entry. *)
Theorem X18_sweep_after_ack_skips_the_alert
    (s : state) (w0 : ws_id) (c a : prim) (msgBuf : string) :
  ack_message msgBuf a -> truthy a = true ->
  let s1 := snd (on_ws_message w0 c msgBuf s) in
  pending_lookup s1 c a = None /\
  forall w m,
    In (w, m) (sweep_msgs s1) ->
    exists c' a',
      In (a', m) (queue_of s1 c') /\ In (a', m) (queue_of s c') /\
      (c', a') <> (c, a).
Proof.
  intros Hack Ht s1. subst s1.
  rewrite on_ws_message_run, (ack_classify msgBuf a Hack Ht). cbn [snd].
  assert (Hq : forall c' a' m, In (a', m) (queue_of (acked c a s) c') ->
                 In (a', m) (queue_of s c') /\ (c', a') <> (c, a)).
  { intros c' a' m. unfold queue_of, acked, map_has.
    destruct (map_get (pendingAlerts s) c) as [q|] eqn:Eq.
    - destruct (map_get q a) eqn:Ea; simpl.
      + rewrite map_get_set. destruct (prim_eq_dec c' c) as [->|Hne].
        * rewrite Eq. intros H. apply map_delete_In_neq in H as [Hn H].
          split; [assumption | congruence].
        * intros H. split; [assumption | congruence].
      + intros H. split; [assumption|]. intros [= -> ->].
        rewrite Eq in H. apply map_get_None_keys in Ea. apply Ea.
        apply in_map_iff. now exists (a, m).
    - intros H. split; [assumption|]. intros [= -> ->].
      rewrite Eq in H. destruct H. }
  split.
  - rewrite lookup_acked. destruct (prim_eq_dec c c); [|congruence].
    now destruct (prim_eq_dec a a).
  - intros w m Hin. apply sweep_msgs_In in Hin as (c' & st & a' & _ & _ & Ha & _).
    exists c', a'. destruct (Hq c' a' m Ha). auto.
Qed.

(** X19.  On the [delivery] class the router never calls [sendToAide]: the
    registry, the store, the wire and the history are as before, whatever the
    payload.  The handler completes exactly when the payload parses to a
    value other than [null]; a payload that is not JSON escapes as a
    [SyntaxError] and the payload [null] as a [TypeError]. *)
Theorem X19_delivery_never_dispatches
    (topic message : string) (now now' : Z) (pf : patients_fetch)
    (api : fetch_result) (uuid ts : string) (s : state) :
  routed topic = true -> alertType_of topic = "delivery" ->
  let r := on_mqtt_message topic message now now' pf api uuid ts s in
  wsClients (snd r) = wsClients s /\ pendingAlerts (snd r) = pendingAlerts s /\
  wire (snd r) = wire s /\ enqueued (snd r) = enqueued s /\
  (JSON_parse message = None -> fst r = Throw SyntaxError) /\
  (JSON_parse message = Some (JP PNull) -> fst r = Throw TypeError) /\
  (forall data, JSON_parse message = Some data ->
                data <> JP PNull -> data <> JP PUndefined -> fst r = Ok tt).
Proof.
  intros Hr Ha r. subst r. rewrite on_mqtt_message_delivery by assumption.
  cbn [fst snd]. destruct (refreshed_core now now' pf s) as (C1 & C2 & _ & C4 & C5).
  repeat split; try assumption.
  - now intros ->.
  - now intros ->.
  - intros data -> N1 N2. destruct data as [[]| |]; try reflexivity; congruence.
Qed.

(** *** Login, distributions and the life of an alert *)






Lemma obj_set_keys (o : jsobj) k v :
  NoDup (map fst o) -> NoDup (map fst (obj_set o k v)).
Proof.
  intros H.
  assert (E : map fst (obj_set o k v)
              = if existsb (String.eqb k) (map fst o) then map fst o
                else map fst o ++ [k]).
  { clear H. induction o as [|[k0 v0] r IH]; simpl; [reflexivity|].
    rewrite (String.eqb_sym k k0).
    destruct (String.eqb_spec k0 k) as [->|]; simpl; [reflexivity|].
    rewrite IH. now destruct (existsb (String.eqb k) (map fst r)). }
  rewrite E. destruct (existsb (String.eqb k) (map fst o)) eqn:Ex; [assumption|].
  apply NoDup_app; [assumption | repeat constructor; intros [] |].
  intros x Hx [<-|[]].
  assert (existsb (String.eqb k) (map fst o) = true); [|congruence].
  apply existsb_exists. exists k. split; [assumption | apply String.eqb_refl].
Qed.

(** X22.  The payload [sendToAide] builds keeps every field of the data
    except [alertId] and [timestamp], which are always the generated id and
    the time of the dispatch, also when the data carried fields of those
    names; and it has no field twice when the data had none twice. *)
Theorem X22_payload_fields (data : jsobj) (uuid ts k : string) :
  obj_get (mk_payload data uuid ts) k
  = (if k =? "timestamp" then JP (PStr ts)
     else if k =? "alertId" then JP (PStr uuid)
     else obj_get data k) /\
  (NoDup (map fst data) -> NoDup (map fst (mk_payload data uuid ts))).
Proof.
  split.
  - unfold mk_payload. rewrite !obj_get_set.
    rewrite (String.eqb_sym "timestamp" k), (String.eqb_sym "alertId" k).
    reflexivity.
  - intros H. unfold mk_payload. now apply obj_set_keys, obj_set_keys.
Qed.

Lemma step_keeps_value s e c uuid p :
  leaves_alone uuid e ->
  pending_lookup s c (PStr uuid) = Some p ->
  pending_lookup (step s e) c (PStr uuid) = Some p.
Proof.
  intros Hl Hp. destruct e; simpl in Hl.
  - destruct url as [|req]; [assumption|].
    rewrite step_connection. destruct (verdict req auth); [assumption|].
    now rewrite lookup_registered.
  - rewrite step_message. destruct (bound_of s w) as [c0|]; [|assumption].
    destruct (classify msgBuf) eqn:Hc; try assumption.
    rewrite lookup_acked. destruct (prim_eq_dec c c0); [|assumption].
    destruct (prim_eq_dec (PStr uuid) k) as [<-|]; [|assumption].
    exfalso. now apply Hl, classify_ack.
  - rewrite step_close. destruct (bound_of (gone w s) w);
      [now rewrite lookup_unregistered | assumption].
  - assumption.
  - now rewrite step_retry.
  - rewrite step_send, lookup_push_wire, lookup_enqueue.
    destruct (prim_eq_dec c aideId); [|assumption].
    destruct (prim_eq_dec (PStr uuid) (PStr uuid0)); [congruence|assumption].
  - now rewrite step_fetch, lookup_refreshed.
  - destruct (step_mqtt s topic message now now' pf api uuid0 ts)
      as [H|[H|(c0 & d & H)]]; rewrite H;
      [assumption | now rewrite lookup_refreshed |].
    rewrite step_send, lookup_push_wire, lookup_enqueue, lookup_refreshed.
    destruct (prim_eq_dec c c0); [|assumption].
    destruct (prim_eq_dec (PStr uuid) (PStr uuid0)); [congruence|assumption].
Qed.

(** X23.  At-least-once delivery.  After [sendToAide] stored an alert, and
    along any run in which that alert is not acknowledged and no other alert
    is dispatched under the same id, the alert stays in the store with its
    payload; so the next retry sweep sends it to every session of the
    caregiver whose socket is open, and the next accepted connection of the
    caregiver on an open socket gets it on connect. *)
Theorem X23_at_least_once
    (s : state) (c : prim) (data : jsobj) (uuid ts : string)
    (evs : list event) :
  Forall (leaves_alone uuid) evs ->
  let payload := mk_payload data uuid ts in
  let s1 := run (snd (sendToAide c data uuid ts s)) evs in
  pending_lookup s1 c (PStr uuid) = Some payload /\
  (forall w, In w (sessions s1 c) -> sendable s1 w = true ->
             In (w, payload) (sweep_msgs s1) /\
             In (w, payload) (wire (step s1 EvRetry))) /\
  (forall req auth,
     verdict req auth = None -> caregiver_of req = c ->
     In (List.length (sockets s1), payload)
        (wire (step s1 (EvConnection 1 false (URLParsed req) auth)))).
Proof.
  intros Hevs payload s1.
  assert (Hp : pending_lookup s1 c (PStr uuid) = Some payload).
  { subst s1.
    assert (H0 : pending_lookup (snd (sendToAide c data uuid ts s)) c (PStr uuid)
                 = Some payload)
      by (rewrite sendToAide_run; apply sendToAide_pending).
    revert H0. generalize (snd (sendToAide c data uuid ts s)) as s0.
    induction Hevs as [|e r He _ IH]; intros s0 H0; simpl; [assumption|].
    apply IH. now apply step_keeps_value. }
  split; [assumption|]. split.
  - intros w Hw Hs.
    assert (Hin : In (w, payload) (sweep_msgs s1))
      by (apply (sweep_msgs_complete s1 c w (PStr uuid)); assumption).
    split; [assumption|]. rewrite step_retry. simpl.
    apply in_or_app. now right.
  - intros req auth Hv Hc. rewrite step_connection, Hv, Hc.
    destruct (registered_facts s1 1 false c) as (_ & _ & F3 & _).
    rewrite F3. apply in_or_app. right. unfold delivered. simpl.
    apply (in_map (fun p => (List.length (sockets s1), p))).
    now apply map_get_values in Hp.
Qed.

(** *** Sessions and sockets *)

Lemma bound_step s e w c :
  bound_of s w = Some c -> bound_of (step s e) w = Some c.
Proof.
  intros Hb. pose proof (bound_alloc s w c Hb) as Hw. destruct e.
  - assert (H0 : bound_of (accepted rs throws s) w = Some c)
      by now rewrite bound_of_accepted.
    destruct url as [|req]; [now rewrite step_connection_throws|].
    rewrite step_connection.
    destruct (verdict req auth).
    + unfold rejected_with, closed. now rewrite bound_of_update.
    + rewrite bound_of_registered by (simpl; rewrite length_app; simpl; lia).
      destruct (Nat.eqb_spec (List.length (sockets s)) w); [lia | assumption].
  - rewrite step_message. destruct (bound_of s w0); [|assumption].
    destruct (classify msgBuf); try assumption.
    unfold acked. destruct (map_get (pendingAlerts s) p); [|assumption].
    now destruct (map_has j k).
  - rewrite step_close.
    assert (H0 : bound_of (gone w0 s) w = Some c) by now rewrite bound_of_gone.
    destruct (bound_of (gone w0 s) w0); [|assumption].
    unfold unregistered. now destruct (map_get (wsClients (gone w0 s)) p).
  - unfold step, handle, modify; simpl.
    now rewrite (bound_of_update s w0
                   (fun k => mkSocket rs throws (close_called k) (bound k))).
  - now rewrite step_retry.
  - now rewrite step_send.
  - rewrite step_fetch. destruct (refreshed_core now now' pf s) as (_ & _ & H3 & _).
    unfold bound_of in *. now rewrite H3.
  - assert (H1 : bound_of (refreshed now now' pf s) w = Some c).
    { destruct (refreshed_core now now' pf s) as (_ & _ & H3 & _).
      unfold bound_of in *. now rewrite H3. }
    destruct (step_mqtt s topic message now now' pf api uuid ts)
      as [H|[H|(c0 & d & H)]]; rewrite H; try assumption.
    now rewrite step_send.
Qed.

Lemma verdict_rejection req auth obj :
  verdict req auth = Some obj -> is_rejection obj.
Proof.
  unfold verdict, is_rejection.
  destruct (param_falsy (q_id req)); [intros [= <-]; left; eauto|].
  destruct (param_falsy (q_pwd req)); [intros [= <-]; left; eauto|].
  destruct (negb (API_KEY =? "") && token_mismatch (q_token req));
    [intros [= <-]; right; eauto|].
  destruct auth as [|r]; [intros [= <-]; left; eauto|].
  destruct (negb (ok r)); [intros [= <-]; left; eauto|].
  destruct (json_body r) as [[[]| |fields]|]; try (intros [= <-]; left; eauto).
  destruct (strict_eq_str _ _); [discriminate | intros [= <-]; left; eauto].
Qed.

(** What a step adds to the wire goes to a socket that is bound to a
    caregiver, or is the answer to a handshake that was turned down. *)
Lemma wire_step s e w m :
  Inv s ->
  In (w, m) (wire (step s e)) ->
  In (w, m) (wire s) \/ (exists c, bound_of (step s e) w = Some c) \/
  is_rejection m.
Proof.
  intros I Hin.
  assert (B : forall l c0 p, In w (sessions s c0) ->
            In (w, m) (wire s ++ broadcast_msgs s l p) -> In w l ->
            exists c, bound_of s w = Some c).
  { intros l c0 p Hs _ _. apply sessions_In in Hs as (st & Hst & Hs).
    exists c0. eapply inv_sessions; eauto. }
  destruct e.
  - destruct url as [|req]; [left; assumption|].
    rewrite step_connection in Hin |- *.
    destruct (verdict req auth) as [obj|] eqn:Hv.
    + destruct (rejected_facts s rs throws obj) as (_ & _ & F3 & _).
      rewrite F3 in Hin. apply in_app_iff in Hin as [Hin|Hin]; [auto|].
      right; right. unfold delivered in Hin.
      destruct (_ && _); [|destruct Hin].
      destruct Hin as [[= <- <-]|[]]. now apply (verdict_rejection req auth).
    + destruct (registered_facts s rs throws (caregiver_of req)) as (_ & F2 & F3 & _).
      rewrite F3 in Hin. apply in_app_iff in Hin as [Hin|Hin]; [auto|].
      right; left. unfold delivered in Hin.
      destruct (_ && _); [|destruct Hin].
      apply in_map_iff in Hin as (p & [= <- <-] & _). eauto.
  - pose proof (bound_step s (EvWsMessage w0 msgBuf)) as P.
    rewrite step_message in Hin, P |- *.
    destruct (bound_of s w0) as [c0|] eqn:Hb; [|auto].
    destruct (classify msgBuf); [| |auto].
    + left. unfold acked in Hin.
      destruct (map_get (pendingAlerts s) c0); [|assumption].
      now destruct (map_has j k).
    + simpl in Hin. apply in_app_iff in Hin as [Hin|Hin]; [auto|].
      apply flush_msgs_In in Hin as (-> & _). right; left. eauto.
  - left. rewrite step_close in Hin.
    destruct (bound_of (gone w0 s) w0); [|assumption].
    unfold unregistered in Hin.
    now destruct (map_get (wsClients (gone w0 s)) p).
  - left. assumption.
  - pose proof (bound_step s EvRetry w) as P.
    rewrite step_retry in Hin, P |- *. simpl in Hin.
    apply in_app_iff in Hin as [Hin|Hin]; [auto|].
    apply sweep_msgs_In in Hin as (c0 & st & a & Hc & Hw & _).
    right; left. exists c0. apply P. eapply inv_sessions; eauto.
  - pose proof (bound_step s (EvSendAlert aideId data uuid ts) w) as P.
    rewrite step_send in Hin, P |- *. simpl in Hin.
    apply in_app_iff in Hin as [Hin|Hin]; [auto|].
    apply broadcast_msgs_In in Hin as (Hw & _).
    apply sessions_In in Hw as (st & Hst & Hw).
    right; left. exists aideId. apply P. eapply inv_sessions; eauto.
  - left. rewrite step_fetch in Hin.
    destruct (refreshed_core now now' pf s) as (_ & _ & _ & H4 & _). now rewrite <- H4.
  - pose proof (Inv_refreshed now now' pf s I) as I1.
    destruct (refreshed_core now now' pf s) as (_ & _ & _ & H4 & _).
    destruct (step_mqtt s topic message now now' pf api uuid ts)
      as [H|[H|(c0 & d & H)]]; rewrite H in Hin |- *.
    + auto.
    + left. now rewrite <- H4.
    + set (s1 := refreshed now now' pf s) in *.
      pose proof (bound_step s1 (EvSendAlert c0 d uuid ts) w) as P.
      rewrite step_send in Hin, P |- *. simpl in Hin.
      apply in_app_iff in Hin as [Hin|Hin]; [left; now rewrite <- H4|].
      apply broadcast_msgs_In in Hin as (Hw & _).
      apply sessions_In in Hw as (st & Hst & Hw).
      right; left. exists c0. apply P. eapply inv_sessions; eauto.
Qed.

(** X24.  A session belongs to one caregiver for its whole life: once the
    handlers of a socket are installed for a caregiver, no event changes
    that; and in every reachable state a socket registered under a caregiver
    is bound to that caregiver, so it is in the set of no other. *)
Theorem X24_session_bound_to_one_caregiver
    (evs : list event) (w : ws_id) (c : prim) :
  let s := run init evs in
  (bound_of s w = Some c ->
   forall more, bound_of (run s more) w = Some c) /\
  (In w (sessions s c) ->
   bound_of s w = Some c /\
   forall c', In w (sessions s c') -> c' = c).
Proof.
  intros s. assert (I : Inv s) by apply Inv_run, Inv_init.
  assert (S : forall c0, In w (sessions s c0) -> bound_of s w = Some c0).
  { intros c0 Hin. apply sessions_In in Hin as (st & Hst & Hin).
    eapply inv_sessions; eauto. }
  split.
  - generalize s. intros s0 Hb more. revert s0 Hb.
    induction more as [|e r IH]; intros s0 Hb; simpl; [assumption|].
    apply IH. now apply bound_step.
  - intros Hin. split; [now apply S|].
    intros c' Hin'. apply S in Hin, Hin'. congruence.
Qed.

(** X25.  A socket whose handshake was turned down never receives an alert:
    in every reachable state, whatever is on the wire of a socket that is
    bound to no caregiver is one of the error objects of the handshake. *)
Theorem X25_unauthenticated_socket_gets_no_alert
    (evs : list event) (w : ws_id) (m : jsobj) :
  let s := run init evs in
  bound_of s w = None -> In (w, m) (wire s) -> is_rejection m.
Proof.
  intros s. subst s.
  enough (H : forall s0, Inv s0 ->
            (forall w m, bound_of s0 w = None -> In (w, m) (wire s0) ->
                         is_rejection m) ->
            forall w m, bound_of (run s0 evs) w = None ->
                        In (w, m) (wire (run s0 evs)) -> is_rejection m).
  { apply (H init Inv_init). intros w0 m0 _ []. }
  induction evs as [|e r IH]; intros s0 I U w0 m0; simpl; [apply U|].
  apply IH; [now apply Inv_step|].
  intros w1 m1 Hb Hin.
  destruct (wire_step s0 e w1 m1 I Hin) as [Hold|[(c & Hc)|Hr]].
  - apply (U w1); [|assumption].
    destruct (bound_of s0 w1) as [c|] eqn:E; [|reflexivity].
    rewrite (bound_step s0 e w1 c E) in Hb. discriminate.
  - congruence.
  - assumption.
Qed.

(** X26.  [sendToAide] answers [true] as soon as the caregiver has a
    registered session, also when no socket of the caregiver takes the
    message (none is open, or every send throws): then nothing goes out, and
    the alert is only pending. *)
Theorem X26_true_without_any_send
    (s : state) (c : prim) (data : jsobj) (uuid ts : string) :
  sessions s c <> [] ->
  (forall w, In w (sessions s c) -> sendable s w = false) ->
  sendToAide c data uuid ts s
  = (Ok true, enqueue c uuid (mk_payload data uuid ts) s) /\
  wire (snd (sendToAide c data uuid ts s)) = wire s.
Proof.
  intros Hne Hall.
  assert (E : broadcast_msgs s (sessions s c) (mk_payload data uuid ts) = []).
  { unfold broadcast_msgs.
    replace (filter (sendable s) (sessions s c)) with (@nil ws_id); [reflexivity|].
    symmetry. clear Hne.
    induction (sessions s c) as [|w r IH]; [reflexivity|]. simpl.
    rewrite (Hall w) by now left.
    apply IH. intros w' Hw'. apply Hall. now right. }
  rewrite sendToAide_run, E, push_wire_nil.
  destruct (sessions s c); [congruence|]. split; reflexivity.
Qed.

End Server.

(* ================================================================== *)
(** ** The claims at sample inputs *)

(** [sample_connected_then_alerted] is where the process stands after
    operator [A] connected and an alert [u1] was dispatched to [A]. *)
Example sample_connected_then_alerted_reached :
  run sample_key sample_base sample_parse init
    [EvConnection 1 false (URLParsed sample_req) (FetchResolves sample_resp);
     EvSendAlert (PStr "A") sample_data "u1" "t1"]
  = sample_connected_then_alerted.
Proof. reflexivity. Qed.

(** The model at work: the connected operator got the alert once; the tick
    of [sample_two_caregivers] reaches [B] although the send to [A] throws;
    a topic splits as [split] and [filter(Boolean)] make it. *)
Example connected_operator_gets_the_alert :
  wire sample_connected_then_alerted
  = [(0%nat, mk_payload sample_data "u1" "t1")].
Proof. reflexivity. Qed.

Example sweep_reaches_the_other_caregiver :
  retryTimer sample_two_caregivers
  = (Ok tt, push_wire [(1%nat, mk_payload sample_data "u2" "t2")]
                      sample_two_caregivers).
Proof. reflexivity. Qed.

Example topic_parts_example :
  topic_parts "alert/box//P1/seuilmedoc/" = ["alert"; "box"; "P1"; "seuilmedoc"].
Proof. reflexivity. Qed.

(** Operator [A] is connected, patient [P1] is a patient of [A], and a
    low-stock message arrives for [P1]: one [warning] goes out to [A]. *)
Example low_stock_warning_reaches_the_operator :
  wire (run sample_key sample_base sample_parse init
          [EvConnection 1 false (URLParsed sample_req) (FetchResolves sample_resp);
           EvMqtt "alert/box/P1/seuilmedoc" "low" 1000 1001
                  (PFData (DirArray [ElemRec (PStr "P1") (PStr "A")]))
                  FetchRejects "u1" "t1"])
  = [(0%nat,
      mk_payload (alert_obj "warning" "P1" "seuilmedoc" "low"
                            "alert/box/P1/seuilmedoc") "u1" "t1")].
Proof. reflexivity. Qed.

(** No caregiver for the patient: the alert is dropped. *)
Example unknown_patient_is_dropped :
  run sample_key sample_base sample_parse init
    [EvMqtt "alert/box/P9/plusmedoc" "empty" 1000 1001
            (PFData (DirArray [ElemRec (PStr "P1") (PStr "A")]))
            FetchRejects "u1" "t1"]
  = with_cache (DirArray [ElemRec (PStr "P1") (PStr "A")]) 1001 init.
Proof. reflexivity. Qed.

Example ack_then_sweep_is_silent :
  wire (run sample_key sample_base sample_parse sample_connected_then_alerted
          [EvWsMessage 0 sample_ack_text; EvRetry])
  = [(0%nat, mk_payload sample_data "u1" "t1")].
Proof. reflexivity. Qed.

Lemma C2_witness :
  (exists w msgBuf,
     EvWsMessage 0 sample_ack_text = EvWsMessage w msgBuf /\
     bound_of sample_connected_then_alerted w = Some (PStr "A") /\
     ack_message sample_parse msgBuf (PStr "u1")) /\
  pending_lookup
    (run sample_key sample_base sample_parse (snd (sendToAide (PStr "A") sample_data "u1" "t1" init))
                [EvRetry])
    (PStr "A") (PStr "u1") <> None.
Proof.
  split.
  - apply (proj1 (C2_only_an_ack_removes_a_pending_alert
                    sample_key sample_base sample_parse)).
    + vm_compute. discriminate.
    + vm_compute. reflexivity.
  - apply (proj2 (C2_only_an_ack_removes_a_pending_alert
                    sample_key sample_base sample_parse)).
    intros w msgBuf [H|[]]. discriminate.
Defined.

Lemma C3_witness :
  In (0%nat, mk_payload sample_data "u1" "t1")
     (wire (step sample_key sample_base sample_parse
              (snd (sendToAide (PStr "A") sample_data "u1" "t1" init))
              (EvConnection 1 false (URLParsed sample_req) (FetchResolves sample_resp)))).
Proof.
  refine (proj2 (proj2 (proj2 (proj2 (proj2 (proj2
    (C3_handshake_registers_then_flushes sample_key sample_base sample_parse
       (snd (sendToAide (PStr "A") sample_data "u1" "t1" init))
       1 false sample_req sample_resp "A" "pw"
       [("mot_de_passe", JP (PStr "pw"))]
       eq_refl _ eq_refl _ (or_intror eq_refl) eq_refl eq_refl eq_refl))))))
    eq_refl eq_refl init sample_data "u1" "t1" eq_refl); discriminate.
Defined.

Lemma C4_witness :
  fetchAllPatients sample_base 40000 40000 PFRejects sample_cached
  = (Ok (DirArray []), sample_cached) /\
  getAideForPatient sample_base "P1" 40000 40000 PFRejects sample_cached
  = (Ok PNull, sample_cached).
Proof.
  apply (C4_failed_refetch_returns_empty sample_base sample_cached).
  - discriminate.
  - vm_compute. reflexivity.
  - left. reflexivity.
Defined.

(** C4 as the specification states it fails: the cache holds patient [P1],
    the refetch is rejected 40 s after the cache was filled, and the caller
    gets the empty array, not the cached one. *)
Lemma C4_counterexample :
  ~ (forall (API_BASE : string) (s : state) (now now' : Z) (pf : patients_fetch),
       API_BASE <> "" ->
       (PATIENTS_CACHE_TTL_MS < now - patientsCacheTs s)%Z ->
       pf = PFRejects \/ pf = PFJsonRejects ->
       fst (fetchAllPatients API_BASE now now' pf s) = Ok (patientsCache s)).
Proof.
  intros H.
  specialize (H sample_base sample_cached 40000%Z 40000%Z PFRejects).
  assert (E : fst (fetchAllPatients sample_base 40000 40000 PFRejects sample_cached)
              = Ok (DirArray [])) by reflexivity.
  rewrite E in H.
  assert (C : Ok (DirArray []) = Ok (patientsCache sample_cached)).
  { apply H; [discriminate | reflexivity | now left]. }
  discriminate C.
Qed.

Lemma C5_witness :
  fst (on_mqtt_message sample_base sample_parse
         "alert/box/P1/delivery" "not json" 0 0 PFRejects FetchRejects
         "u1" "t1" init)
  = Throw SyntaxError.
Proof.
  apply C5_delivery_payload_not_json_escapes. reflexivity.
Defined.

Lemma C6_witness :
  fst (retryTimer sample_two_caregivers) = Ok tt /\
  In (1%nat, mk_payload sample_data "u2" "t2") (sweep_msgs sample_two_caregivers).
Proof.
  destruct (C6_sweep_survives_a_failing_send sample_two_caregivers
              (PStr "A") 0%nat (mkSocket 1 true false (Some (PStr "A"))))
    as (_ & Hok & _ & Hall).
  - left. reflexivity.
  - reflexivity.
  - reflexivity.
  - reflexivity.
  - split; [exact Hok|].
    apply (Hall (PStr "B") 1%nat (PStr "u2")); [left| |]; reflexivity.
Defined.

Lemma C7_witness :
  fst (handle sample_key sample_base sample_parse
         (EvConnection 1 false URLThrows FetchRejects) init)
  = Throw TypeError /\
  wire (step sample_key sample_base sample_parse init
          (EvConnection 1 false URLThrows FetchRejects))
  = [] /\
  close_requested
    (step sample_key sample_base sample_parse init
       (EvConnection 1 false URLThrows FetchRejects)) 0
  = false.
Proof.
  destruct (C7_unparsable_url_escapes_before_the_id_check
              sample_key sample_base sample_parse init 1 false FetchRejects)
    as (H1 & H2 & H3 & _).
  exact (conj H1 (conj H2 H3)).
Defined.

Lemma C8_witness :
  pending_lookup
    (snd (on_ws_message sample_parse 0 (PStr "A") sample_ack_text
            sample_connected_then_alerted))
    (PStr "A") (PStr "u1") = None.
Proof.
  apply (C8_acknowledgment_is_idempotent sample_parse
           sample_connected_then_alerted 0%nat (PStr "A") (PStr "u1")
           sample_ack_text sample_ack_text).
  - eexists. repeat split; reflexivity.
  - eexists. repeat split; reflexivity.
  - reflexivity.
Defined.

Lemma C9_witness :
  In (PStr "A", mk_payload sample_data "u1" "t1")
     (enqueued sample_connected_then_alerted).
Proof.
  apply (C9_no_cross_caregiver_delivery sample_key sample_base sample_parse
           [EvConnection 1 false (URLParsed sample_req) (FetchResolves sample_resp);
            EvSendAlert (PStr "A") sample_data "u1" "t1"] 0%nat).
  - right. reflexivity.
  - left. reflexivity.
Defined.

Lemma C10_witness :
  wsClients (step sample_key sample_base sample_parse sample_connected_then_alerted
               (EvConnection 1 false (URLParsed sample_req_bad_token)
                             (FetchResolves sample_resp)))
  = wsClients sample_connected_then_alerted /\
  wsClients (step sample_key sample_base sample_parse sample_connected_then_alerted
               (EvConnection 1 false URLThrows FetchRejects))
  = wsClients sample_connected_then_alerted.
Proof.
  split.
  - refine (proj1 (C10_rejected_handshake_changes_nothing sample_key sample_base
                     sample_parse sample_connected_then_alerted 1 false
                     (URLParsed sample_req_bad_token)
                     (FetchResolves sample_resp) _)).
    right; right; left. split; discriminate.
  - refine (proj1 (C10_rejected_handshake_changes_nothing sample_key sample_base
                     sample_parse sample_connected_then_alerted 1 false
                     URLThrows FetchRejects _)).
    exact I.
Defined.

(* ================================================================== *)
(** ** The further properties at sample inputs *)

Lemma X1_witness :
  apiKeyMiddleware sample_key (Some "secret")
    (api_send_alert sample_alert_body "u2" "t2") init
  = api_send_alert sample_alert_body "u2" "t2" init /\
  apiKeyMiddleware sample_key (Some "FAKE")
    (api_send_alert sample_alert_body "u2" "t2") init
  = (Ok (mkHttp 401 (json_error "Unauthorized: invalid API key")), init).
Proof.
  destruct (X1_api_key_gate sample_key (Some "secret")
              (api_send_alert sample_alert_body "u2" "t2") init) as (_ & H2 & _).
  destruct (X1_api_key_gate sample_key (Some "FAKE")
              (api_send_alert sample_alert_body "u2" "t2") init) as (_ & _ & H3).
  split; [apply H2; [discriminate | reflexivity] | apply H3; discriminate].
Defined.

Lemma X2_witness :
  api_send_alert sample_alert_body_only_id "u2" "t2" init
  = (Ok (mkHttp 400 (json_error "aideId, patientId and alertType required")),
     init) /\
  fst (api_send_alert sample_alert_body "u2" "t2" sample_connected_then_alerted)
  = Ok (res_json (JObj [("sent", JP (PBool true))])).
Proof.
  split.
  - apply (proj1 (X2_send_alert_endpoint sample_key sample_base sample_parse
                    sample_alert_body_only_id "u2" "t2" init)).
    right; left; reflexivity.
  - apply (proj2 (X2_send_alert_endpoint sample_key sample_base sample_parse
                    sample_alert_body "u2" "t2" sample_connected_then_alerted));
      reflexivity.
Defined.

Lemma X3_witness :
  pending_lookup
    (snd (api_test_send_alert sample_alert_body_only_id "u2" "t2" init))
    (PStr "A") (PStr "u2")
  = Some (mk_payload [("type", JP (PStr "box_alert"));
                      ("patientId", JP (PStr "test-patient"));
                      ("alertType", JP (PStr "test"));
                      ("message", JP (PStr "Alerte de test"));
                      ("topic", JP (PStr "alert/box/test/manual"))] "u2" "t2").
Proof.
  apply (proj2 (X3_test_send_alert_defaults sample_key sample_base sample_parse
                  sample_alert_body_only_id "u2" "t2" init)).
  reflexivity.
Defined.

Lemma X5_witness :
  fst (api_send_alert sample_alert_body "u2" "t2"
         (run sample_key sample_base sample_parse init
            [EvConnection 1 false (URLParsed sample_req) (FetchResolves sample_resp)]))
  = Ok (res_json (JObj [("sent", JP (PBool true))])).
Proof.
  apply (X5_sent_agrees_with_health sample_key sample_base sample_parse
           [EvConnection 1 false (URLParsed sample_req) (FetchResolves sample_resp)]
           sample_alert_body "u2" "t2"); try reflexivity.
  left. reflexivity.
Defined.

Lemma X6_witness :
  sendToAide (PNum "5") sample_data "u2" "t2" sample_connected_then_alerted
  = (Ok false,
     enqueue (PNum "5") "u2" (mk_payload sample_data "u2" "t2")
             sample_connected_then_alerted) /\
  is_operator_id (PStr "A") /\
  In (PStr "A", mk_payload sample_data "u1" "t1")
     (enqueued sample_connected_then_alerted).
Proof.
  destruct (X6_only_string_ids_are_served sample_key sample_base sample_parse
              [EvConnection 1 false (URLParsed sample_req) (FetchResolves sample_resp);
               EvSendAlert (PStr "A") sample_data "u1" "t1"]) as [H1 H2].
  split.
  - apply H1. intros (id & H & _). discriminate H.
  - apply (H2 0%nat); [reflexivity | left; reflexivity].
Defined.

Lemma X7_witness :
  fetchAllPatients sample_base 1000 1001 PFRejects sample_cached
  = (Ok (patientsCache sample_cached), sample_cached).
Proof.
  apply (X7_fresh_cache_is_not_refetched sample_base sample_cached 1000 1001
           PFRejects "P1"); reflexivity.
Defined.

Lemma X8_witness :
  fetchAllPatients sample_base 2000 2001 PFRejects
    (snd (fetchAllPatients sample_base 1000 1001
            (PFData (DirArray [ElemRec (PStr "P1") (PStr "A")])) init))
  = (Ok (DirArray [ElemRec (PStr "P1") (PStr "A")]),
     snd (fetchAllPatients sample_base 1000 1001
            (PFData (DirArray [ElemRec (PStr "P1") (PStr "A")])) init)).
Proof.
  destruct (X8_refetch_then_read sample_base init 1000 1001 2000 2001
              (DirArray [ElemRec (PStr "P1") (PStr "A")]) PFRejects)
    as (_ & _ & _ & H & _); [discriminate | reflexivity |].
  apply H; reflexivity.
Defined.

Lemma X9_witness :
  step sample_key "" sample_parse
    (run sample_key "" sample_parse init
       [EvConnection 1 false (URLParsed sample_req) (FetchResolves sample_resp)])
    (EvMqtt "alert/box/P1/seuilmedoc" "low" 1000 1001
            (PFData (DirArray [ElemRec (PStr "P1") (PStr "A")]))
            FetchRejects "u2" "t2")
  = run sample_key "" sample_parse init
      [EvConnection 1 false (URLParsed sample_req) (FetchResolves sample_resp)].
Proof.
  apply (X9_router_inert_without_API_BASE sample_key "" sample_parse
           [EvConnection 1 false (URLParsed sample_req) (FetchResolves sample_resp)]).
  reflexivity.
Defined.

Lemma X10_witness :
  on_mqtt_message sample_base sample_parse "status/box/P1" "low" 1000 1001
    PFRejects FetchRejects "u2" "t2" sample_connected_cached
  = (Ok tt, sample_connected_cached) /\
  In (alertType_of "alert/box/P1/seuilmedoc") dispatching_classes.
Proof.
  split.
  - apply (proj1 (X10_router_dispatch_classes sample_key sample_base
                    sample_parse "status/box/P1" "low" 1000 1001 PFRejects
                    FetchRejects "u2" "t2" sample_connected_cached)).
    reflexivity.
  - apply (proj1 (proj2 (X10_router_dispatch_classes sample_key sample_base
                    sample_parse "alert/box/P1/seuilmedoc" "low" 1000 1001
                    PFRejects FetchRejects "u2" "t2" sample_connected_cached))).
    left. vm_compute. discriminate.
Defined.

Lemma X11_witness :
  topic_parts "alert//box/P1/seuilmedoc/" = ["alert"; "box"; "P1"; "seuilmedoc"] /\
  routed (box_topic "P1" "seuilmedoc") = true.
Proof.
  destruct (X11_topic_parts_of_joined_segments
              ["alert"; ""; "box"; "P1"; "seuilmedoc"; ""] "P1" "seuilmedoc")
    as [H1 H2]; [reflexivity|].
  split; [exact H1|]. apply H2; try reflexivity; discriminate.
Defined.

Lemma X12_witness :
  getAideForPatient sample_base "12" 1000 1001 PFRejects sample_numeric_ids
  = (Ok (PStr "A"), sample_numeric_ids) /\
  getAideForPatient sample_base "P1" 1000 1001 PFRejects sample_null_first
  = (Ok PNull, sample_null_first).
Proof.
  split.
  - refine (proj1 (X12_lookup_first_match_decides sample_base sample_numeric_ids
                     1000 1001 PFRejects "12" [ElemRec (PNum "7") (PStr "B")] []
                     (PNum "12") (PStr "A") eq_refl eq_refl _) eq_refl eq_refl).
    constructor; [|constructor].
    exists (PNum "7"), (PStr "B"). split; [reflexivity | discriminate].
  - refine (proj2 (X12_lookup_first_match_decides sample_base sample_null_first
                     1000 1001 PFRejects "P1" [] [ElemRec (PStr "P1") (PStr "A")]
                     PNull PNull eq_refl eq_refl _) eq_refl).
    constructor.
Defined.


Lemma X14_witness :
  (wire (step sample_key sample_base sample_parse init
           (EvConnection 1 false (URLParsed sample_req_empty) FetchRejects))
   = [(0%nat, [("error", JP (PStr "Missing 'id' query param"))])] /\
   wire (step sample_key sample_base sample_parse init
           (EvConnection 1 false (URLParsed sample_req_no_pwd) FetchRejects))
   = [(0%nat, [("error", JP (PStr "Missing 'pwd' query param"))])]) /\
  (wire (step sample_key sample_base sample_parse init
           (EvConnection 1 false (URLParsed sample_req_bad_token)
              (FetchResolves sample_resp)))
   = [(0%nat,
       [("error", JP (PStr "Invalid token"));
        ("debug",
         JObj [("token_recu", JP (PStr "FAKE"));
               ("api_key_attendue", JP (PStr "secret"));
               ("url", JP (PStr "http://localhost/?id=A&pwd=pw&token=FAKE"))])])] /\
   wire (step sample_key sample_base sample_parse init
           (EvConnection 1 false (URLParsed sample_req)
              (FetchResolves sample_resp_other)))
   = [(0%nat, [("error", JP (PStr "Invalid password"))])] /\
   close_requested
     (step sample_key sample_base sample_parse init
        (EvConnection 1 false (URLParsed sample_req)
           (FetchResolves sample_resp_other)))
     0 = true).
Proof.
  destruct (X14_rejection_messages sample_key sample_base sample_parse
              init 1 false sample_req_empty FetchRejects) as (H1 & _).
  destruct (X14_rejection_messages sample_key sample_base sample_parse
              init 1 false sample_req_no_pwd FetchRejects) as (_ & H2 & _).
  destruct (X14_rejection_messages sample_key sample_base sample_parse
              init 1 false sample_req_bad_token (FetchResolves sample_resp))
    as (_ & _ & H3 & _).
  destruct (X14_rejection_messages sample_key sample_base sample_parse
              init 1 false sample_req (FetchResolves sample_resp_other))
    as (_ & _ & _ & H4).
  split; [split|split; [|]].
  - exact (proj1 (H1 eq_refl)).
  - exact (proj1 (H2 eq_refl eq_refl)).
  - refine (proj1 (H3 eq_refl eq_refl _ _)); discriminate.
  - refine (proj2 (proj2 (H4 _)) _).
    + repeat split. right. reflexivity.
    + exists sample_resp_other,
        (JObj [("mot_de_passe", JP (PStr "other"))]).
      repeat split; discriminate.
Defined.

Lemma X15_witness :
  wsClients
    (step sample_key sample_base sample_parse
       (step sample_key sample_base sample_parse sample_connected_then_alerted
          (EvConnection 1 false (URLParsed sample_req) (FetchResolves sample_resp)))
       (EvWsClose 1))
  = wsClients sample_connected_then_alerted.
Proof.
  apply (X15_connect_then_close_restores_registry sample_key sample_base
           sample_parse
           [EvConnection 1 false (URLParsed sample_req) (FetchResolves sample_resp);
            EvSendAlert (PStr "A") sample_data "u1" "t1"]
           1 false sample_req (FetchResolves sample_resp) (PStr "A")).
  reflexivity.
Defined.

Lemma X17_witness :
  on_ws_message sample_parse_more 0 (PStr "A") "not json"
    sample_connected_then_alerted
  = (Ok tt, sample_connected_then_alerted) /\
  on_ws_message sample_parse_more 0 (PStr "A") sample_resend_text
    sample_connected_then_alerted
  = (Ok tt,
     push_wire [(0%nat, mk_payload sample_data "u1" "t1")]
               sample_connected_then_alerted).
Proof.
  split.
  - apply (proj1 (X17_other_messages_are_ignored sample_parse_more
                    sample_connected_then_alerted 0%nat (PStr "A") "not json")).
    reflexivity.
  - apply (proj2 (proj2 (X17_other_messages_are_ignored sample_parse_more
                    sample_connected_then_alerted 0%nat (PStr "A")
                    sample_resend_text))
             [("type", JP (PStr "resend_pending"))]); reflexivity.
Defined.

Lemma X18_witness :
  pending_lookup
    (snd (on_ws_message sample_parse 0 (PStr "A") sample_ack_text
            sample_two_caregivers))
    (PStr "A") (PStr "u1") = None /\
  (forall w m,
     In (w, m)
        (sweep_msgs (snd (on_ws_message sample_parse 0 (PStr "A")
                            sample_ack_text sample_two_caregivers))) ->
     exists c' a',
       In (a', m)
          (queue_of (snd (on_ws_message sample_parse 0 (PStr "A")
                            sample_ack_text sample_two_caregivers)) c') /\
       In (a', m) (queue_of sample_two_caregivers c') /\
       (c', a') <> (PStr "A", PStr "u1")).
Proof.
  apply (X18_sweep_after_ack_skips_the_alert sample_parse sample_two_caregivers
           0%nat (PStr "A") (PStr "u1") sample_ack_text).
  - eexists. repeat split; reflexivity.
  - reflexivity.
Defined.

Lemma X19_witness :
  wire (snd (on_mqtt_message sample_base sample_parse "alert/box/P1/delivery"
               "null" 1000 1001 PFRejects FetchRejects "u2" "t2"
               sample_connected_cached))
  = wire sample_connected_cached /\
  fst (on_mqtt_message sample_base sample_parse "alert/box/P1/delivery"
         "null" 1000 1001 PFRejects FetchRejects "u2" "t2"
         sample_connected_cached)
  = Throw TypeError.
Proof.
  destruct (X19_delivery_never_dispatches sample_base sample_parse
              "alert/box/P1/delivery" "null" 1000 1001 PFRejects FetchRejects
              "u2" "t2" sample_connected_cached)
    as (_ & _ & Hw & _ & _ & Ht & _); try reflexivity.
  split; [exact Hw | apply Ht; reflexivity].
Defined.



Lemma X22_witness :
  obj_get (mk_payload [("timestamp", JP (PStr "2020")); ("x", JP PNull)]
                      "u2" "t2") "timestamp"
  = JP (PStr "t2") /\
  NoDup (map fst (mk_payload sample_data "u2" "t2")).
Proof.
  split.
  - apply (proj1 (X22_payload_fields
                    [("timestamp", JP (PStr "2020")); ("x", JP PNull)]
                    "u2" "t2" "timestamp")).
  - apply (proj2 (X22_payload_fields sample_data "u2" "t2" "type")).
    repeat constructor; simpl; intros H;
      repeat (destruct H as [H|H]; [discriminate H|]); exact H.
Defined.

Lemma X23_witness :
  pending_lookup
    (run sample_key sample_base sample_parse
       (snd (sendToAide (PStr "A") sample_data "u2" "t2"
               sample_connected_then_alerted))
       [EvRetry; EvWsMessage 0 sample_ack_text; EvRetry])
    (PStr "A") (PStr "u2")
  = Some (mk_payload sample_data "u2" "t2") /\
  In (0%nat, mk_payload sample_data "u2" "t2")
     (sweep_msgs
        (run sample_key sample_base sample_parse
           (snd (sendToAide (PStr "A") sample_data "u2" "t2"
                   sample_connected_then_alerted))
           [EvRetry; EvWsMessage 0 sample_ack_text; EvRetry])).
Proof.
  destruct (X23_at_least_once sample_key sample_base sample_parse
              sample_connected_then_alerted (PStr "A") sample_data "u2" "t2"
              [EvRetry; EvWsMessage 0 sample_ack_text; EvRetry])
    as (H1 & H2 & _).
  - repeat constructor. intros (fields & Hp & _ & Ha).
    vm_compute in Hp. injection Hp as <-. discriminate Ha.
  - split; [exact H1|].
    refine (proj1 (H2 0%nat _ _)); [vm_compute; left; reflexivity|].
    vm_compute. reflexivity.
Defined.

Lemma X24_witness :
  bound_of (run sample_key sample_base sample_parse
              (run sample_key sample_base sample_parse init
                 [EvConnection 1 false (URLParsed sample_req) (FetchResolves sample_resp)])
              [EvRetry; EvWsClose 0]) 0
  = Some (PStr "A") /\
  bound_of (run sample_key sample_base sample_parse init
              [EvConnection 1 false (URLParsed sample_req) (FetchResolves sample_resp)]) 0
  = Some (PStr "A").
Proof.
  split.
  - refine (proj1 (X24_session_bound_to_one_caregiver sample_key sample_base
                     sample_parse
                     [EvConnection 1 false (URLParsed sample_req) (FetchResolves sample_resp)]
                     0%nat (PStr "A")) _ [EvRetry; EvWsClose 0]).
    vm_compute. reflexivity.
  - refine (proj1 (proj2 (X24_session_bound_to_one_caregiver sample_key
                            sample_base sample_parse
                            [EvConnection 1 false (URLParsed sample_req)
                               (FetchResolves sample_resp)]
                            0%nat (PStr "A")) _)).
    vm_compute. left. reflexivity.
Defined.

Lemma X25_witness :
  is_rejection sample_key (invalid_token_obj sample_key sample_req_bad_token).
Proof.
  refine (X25_unauthenticated_socket_gets_no_alert sample_key sample_base
            sample_parse
            [EvConnection 1 false (URLParsed sample_req_bad_token) (FetchResolves sample_resp)]
            0%nat _ _ _).
  - vm_compute. reflexivity.
  - vm_compute. left. reflexivity.
Defined.

Lemma X26_witness :
  sendToAide (PStr "A") sample_data "u3" "t3" sample_two_caregivers
  = (Ok true,
     enqueue (PStr "A") "u3" (mk_payload sample_data "u3" "t3")
       sample_two_caregivers) /\
  wire (snd (sendToAide (PStr "A") sample_data "u3" "t3" sample_two_caregivers))
  = wire sample_two_caregivers.
Proof.
  apply X26_true_without_any_send.
  - intro H. vm_compute in H. discriminate H.
  - intros w H. vm_compute in H. destruct H as [<-|[]]. reflexivity.
Defined.
